(** * Mental Health Dashboard (app.py): a shallow embedding

    The program is one Streamlit script.  It loads every [*.csv] file next
    to it into one pandas table (the Unified Table), filters that table by
    source file and year range (the Filtered View), prints three KPIs and
    renders one of five views.

    The embedding follows the script top to bottom:
    - a Python string is a list of Unicode code points;
    - a table is an ordered list of column labels, the type pandas gives
      each column, and a list of rows;
    - a cell is missing (NaN), a number or a text;
    - a Python exception is the [Raised] outcome of an error monad;
    - a sidebar widget returns what the user picked, so the picks are
      inputs of the model.

    Numbers are canonical rationals: every finite float64 is a rational,
    and comparisons and [int()] are exact on them.  What the libraries
    decide and the script does not is a parameter: the Unicode tables of
    Python, the float64 mean of pandas with its rounding, the order
    numpy's sort leaves equal values in, and what [nlargest] does with
    missing values. *)

From Stdlib Require Import String Ascii.
From Stdlib Require Import Bool Arith ZArith NArith QArith Qcanon Lia.
From Stdlib Require Import List Permutation Sorted.
Import ListNotations.

Close Scope Qc_scope.
Close Scope Q_scope.

(** ** Outcomes: a value, or a Python exception that ends the script *)

Inductive outcome (A : Type) : Type :=
| Ok (a : A)
| Raised.
Arguments Ok {A} a.
Arguments Raised {A}.

Definition bind {A B : Type} (c : outcome A) (k : A -> outcome B) : outcome B :=
  match c with
  | Ok a => k a
  | Raised => Raised
  end.

Notation "x <- c ;; k" := (bind c (fun x => k))
  (at level 61, c at next level, right associativity).

(** ** Python strings *)

Definition pychar := N.
Definition pystr := list pychar.

(** The literals of the script are ASCII. *)
Definition py (s : string) : pystr := map N_of_ascii (list_ascii_of_string s).

Definition pystr_eq_dec : forall a b : pystr, {a = b} + {a <> b} := list_eq_dec N.eq_dec.

Definition pystr_eqb (a b : pystr) : bool := if pystr_eq_dec a b then true else false.

(** [x in labels] *)
Definition mem (x : pystr) (l : list pystr) : bool := existsb (pystr_eqb x) l.

(** [needle in hay] for two strings: substring search. *)
Fixpoint starts_with (needle hay : pystr) : bool :=
  match needle, hay with
  | [], _ => true
  | _ :: _, [] => false
  | a :: n', b :: h' => N.eqb a b && starts_with n' h'
  end.

Fixpoint contains (needle hay : pystr) : bool :=
  starts_with needle hay ||
  match hay with
  | [] => false
  | _ :: h' => contains needle h'
  end.

(** Order of [sorted] on strings: lexicographic on code points. *)
Fixpoint pystr_leb (a b : pystr) : bool :=
  match a, b with
  | [], _ => true
  | _ :: _, [] => false
  | x :: a', y :: b' =>
      if (x <? y)%N then true else if (y <? x)%N then false else pystr_leb a' b'
  end.

(** *** [str.lower], the regular expression class [\w] and [int(str)]

    On code points below 128 all three are fixed by the language and
    written out.  Above, Python consults the Unicode database, which is
    not part of the repository: it is a parameter.  [str.lower] is not a
    per-character map there (the final-sigma rule looks at the
    neighbours), so the table receives the context.  [space_wide] and
    [decimal_wide] are the white space and the decimal digits that
    [int()] accepts beyond ASCII. *)

Record unicode := {
  lower_wide : pystr -> pychar -> pystr -> pystr;
  word_wide : pychar -> bool;
  space_wide : pychar -> bool;
  decimal_wide : pychar -> option N
}.

Definition is_ascii (c : pychar) : bool := (c <? 128)%N.
Definition is_upper (c : pychar) : bool := ((65 <=? c) && (c <=? 90))%N.
Definition is_lower (c : pychar) : bool := ((97 <=? c) && (c <=? 122))%N.
Definition is_digit (c : pychar) : bool := ((48 <=? c) && (c <=? 57))%N.
Definition underscore : pychar := 95%N.
Definition is_underscore (c : pychar) : bool := (c =? underscore)%N.

Definition lower_char (U : unicode) (before : pystr) (c : pychar) (after : pystr) : pystr :=
  if is_upper c then [(c + 32)%N]
  else if is_ascii c then [c]
  else lower_wide U before c after.

Fixpoint lower_from (U : unicode) (before s : pystr) : pystr :=
  match s with
  | [] => []
  | c :: rest => lower_char U before c rest ++ lower_from U (before ++ [c]) rest
  end.

Definition str_lower (U : unicode) (s : pystr) : pystr := lower_from U [] s.

Definition is_word (U : unicode) (c : pychar) : bool :=
  if is_ascii c then is_upper c || is_lower c || is_digit c || is_underscore c
  else word_wide U c.

(** [re.sub(r"[^\w]+", "_", s)]: scanning from the left, every maximal run
    of non-word characters is replaced by one underscore.  [in_run] tells
    that the run being read has already produced its underscore. *)
Fixpoint sub_runs (U : unicode) (in_run : bool) (s : pystr) : pystr :=
  match s with
  | [] => []
  | c :: rest =>
      if is_word U c then c :: sub_runs U false rest
      else if in_run then sub_runs U true rest
      else underscore :: sub_runs U true rest
  end.

Definition str_replace_nonword (U : unicode) (s : pystr) : pystr := sub_runs U false s.

(** Lines 57-60 on one label:
    [df.columns.str.lower().str.replace(r"[^\w]+", "_", regex=True)]. *)
Definition normalize (U : unicode) (name : pystr) : pystr :=
  str_replace_nonword U (str_lower U name).

(** Tables that leave every wide character alone and count it as a letter;
    enough to run the model on ASCII data. *)
Definition plain : unicode :=
  {| lower_wide := fun _ c _ => [c];
     word_wide := fun _ => true;
     space_wide := fun _ => false;
     decimal_wide := fun _ => None |}.

(** *** [int(s)] on a string

    The string is first brought to ASCII: a code point below 127 stays, a
    wide space becomes a blank, a wide decimal digit its ASCII digit and
    anything else a question mark.  Then, in base 10: blanks, an optional
    sign, digits with single underscores between them, blanks, and the
    end; more than 4300 digits are refused.  Anything else is a
    [ValueError]. *)

Definition is_blank (c : pychar) : bool := (c =? 32)%N || ((9 <=? c) && (c <=? 13))%N.

Definition to_ascii (U : unicode) (c : pychar) : pychar :=
  if (c <? 127)%N then c
  else if space_wide U c then 32%N
  else
    match decimal_wide U c with
    | Some d => if (d <? 10)%N then (48 + d)%N else 63%N
    | None => 63%N
    end.

Fixpoint skip_blanks (s : pystr) : pystr :=
  match s with
  | c :: rest => if is_blank c then skip_blanks rest else s
  | [] => []
  end.

(** The digits read so far as a number, how many they are, whether the
    last character was an underscore; returns what follows the digits. *)
Fixpoint scan_digits (acc : Z) (count : nat) (after_underscore : bool) (s : pystr)
  : option (Z * nat * pystr) :=
  match s with
  | c :: rest =>
      if is_digit c then scan_digits (acc * 10 + Z.of_N (c - 48)) (S count) false rest
      else if is_underscore c then
        if after_underscore then None else scan_digits acc count true rest
      else if after_underscore then None else Some (acc, count, s)
  | [] => if after_underscore then None else Some (acc, count, [])
  end.

Definition max_str_digits : nat := 4300.

Definition int_of_str (U : unicode) (s : pystr) : outcome Z :=
  let s := skip_blanks (map (to_ascii U) s) in
  let (negative, s) :=
    match s with
    | c :: rest => if (c =? 45)%N then (true, rest)
                   else if (c =? 43)%N then (false, rest) else (false, s)
    | [] => (false, s)
    end in
  match s with
  | c :: _ =>
      if is_underscore c then Raised
      else
        match scan_digits 0 0 false s with
        | Some (n, count, rest) =>
            match count, skip_blanks rest with
            | O, _ => Raised
            | _, [] => if max_str_digits <? count then Raised
                       else Ok (if negative then (- n)%Z else n)
            | _, _ :: _ => Raised
            end
        | None => Raised
        end
  | [] => Raised
  end.

(** What the specification promises about a label. *)
Definition is_az09_ (c : pychar) : bool := is_lower c || is_digit c || is_underscore c.

Fixpoint double_underscore (s : pystr) : bool :=
  match s with
  | a :: (b :: _) as rest => (is_underscore a && is_underscore b) || double_underscore rest
  | _ => false
  end.

Definition tidy (s : pystr) : bool := forallb is_az09_ s && negb (double_underscore s).

(** ** Cells and tables *)

Inductive cell : Type :=
| NaN
| Num (q : Qc)
| Str (s : pystr).

Definition cell_eq_dec : forall a b : cell, {a = b} + {a <> b}.
Proof.
  decide equality; [apply Qc_eq_dec | apply pystr_eq_dec].
Defined.

Definition is_nan (c : cell) : bool := match c with NaN => true | _ => false end.
Definition is_text (c : cell) : bool := match c with Str _ => true | _ => false end.

(** Elementwise [==]: a missing cell equals nothing, itself included. *)
Definition cell_eqb (a b : cell) : bool :=
  match a with
  | NaN => false
  | _ => if cell_eq_dec a b then true else false
  end.

Definition num (z : Z) : cell := Num (Q2Qc (inject_Z z)).
Definition frac (n : Z) (d : positive) : cell := Num (Q2Qc (n # d)).
Definition txt (s : string) : cell := Str (py s).
Arguments num z%_Z.
Arguments frac n%_Z d%_positive.
Arguments txt s%_string.

Definition Qcleb (x y : Qc) : bool := Qle_bool x y.

(** The type pandas gives a column, as far as the script can tell:
    [Numeric] for int64 and float64, [Object] for a column of texts or of
    mixed cells, and for any column of a frame that has no row. *)
Inductive dtype : Type :=
| Numeric
| Object.

Definition is_object (d : dtype) : bool := match d with Object => true | Numeric => false end.

(** A DataFrame: the column labels in order, the type of each column,
    and the rows; the cell of a row under the i-th label is its i-th
    entry. *)
Record table := {
  columns : list pystr;
  dtypes : list dtype;
  rows : list (list cell)
}.

Definition nrows (t : table) : nat := length (rows t).

Fixpoint index_of (c : pystr) (labels : list pystr) : option nat :=
  match labels with
  | [] => None
  | l :: ls => if pystr_eqb c l then Some O else option_map S (index_of c ls)
  end.

Definition at_col (i : nat) (r : list cell) : cell := nth i r NaN.

(** [t[c]] as a list of cells; [KeyError] when the label is absent. *)
Definition column_values (t : table) (c : pystr) : outcome (list cell) :=
  match index_of c (columns t) with
  | Some i => Ok (map (at_col i) (rows t))
  | None => Raised
  end.

(** [t[c].dtype] *)
Definition dtype_of (t : table) (c : pystr) : dtype :=
  match index_of c (columns t) with
  | Some i => nth i (dtypes t) Object
  | None => Object
  end.

(** [t[mask]]: the rows go, the types stay. *)
Definition keep_rows (mask : list cell -> bool) (t : table) : table :=
  {| columns := columns t; dtypes := dtypes t; rows := filter mask (rows t) |}.

Fixpoint unique_labels (l : list pystr) : bool :=
  match l with
  | [] => true
  | x :: l' => negb (mem x l') && unique_labels l'
  end.

(** ** Dataset Loader (lines 50-62) *)

(** What [pd.read_csv(f)] hands back for one file, with the file's name. *)
Record csv_file := {
  name : pystr;
  header : list pystr;
  body : list (list cell)
}.

Fixpoint replace_at (i : nat) (v : cell) (r : list cell) : list cell :=
  match i, r with
  | _, [] => []
  | O, _ :: r' => v :: r'
  | S i', x :: r' => x :: replace_at i' v r'
  end.

Fixpoint replace_dtype (i : nat) (d : dtype) (l : list dtype) : list dtype :=
  match i, l with
  | _, [] => []
  | O, _ :: l' => d :: l'
  | S i', x :: l' => x :: replace_dtype i' d l'
  end.

(** The type [pd.read_csv] infers for a column from its cells: a file
    without rows has only [Object] columns; otherwise a column is
    [Object] as soon as one cell is a text. *)
Definition read_dtype (cells : list cell) : dtype :=
  match cells with
  | [] => Object
  | _ => if existsb is_text cells then Object else Numeric
  end.

(** Line 55: the frame of a parsed file. *)
Definition read_csv (f : csv_file) : table :=
  {| columns := header f;
     dtypes := map (fun i => read_dtype (map (at_col i) (body f))) (seq 0 (length (header f)));
     rows := body f |}.

(** [df[c] = v] with a text [v]: overwrite the column when the label
    exists, append it as the last column otherwise; the column is typed
    [Object]. *)
Definition set_column (c : pystr) (v : cell) (t : table) : table :=
  match index_of c (columns t) with
  | Some i => {| columns := columns t;
                 dtypes := replace_dtype i Object (dtypes t);
                 rows := map (replace_at i v) (rows t) |}
  | None => {| columns := columns t ++ [c];
               dtypes := dtypes t ++ [Object];
               rows := map (fun r => r ++ [v]) (rows t) |}
  end.

(** The body of the loop, lines 55-60. *)
Definition load_frame (U : unicode) (f : csv_file) : table :=
  let df := read_csv f in
  let df := set_column (py "source_file") (Str (name f)) df in
  {| columns := map (normalize U) (columns df); dtypes := dtypes df; rows := rows df |}.

(** Labels of the concatenation: the union, in order of first appearance. *)
Definition union_labels (frames : list table) : list pystr :=
  fold_left (fun acc t => acc ++ filter (fun c => negb (mem c acc)) (columns t)) frames [].

(** A frame laid out under the labels of the result; a label the frame
    does not have is filled with NaN. *)
Definition reindex (labels : list pystr) (t : table) : list (list cell) :=
  map (fun r =>
         map (fun c => match index_of c (columns t) with
                       | Some i => at_col i r
                       | None => NaN
                       end) labels)
      (rows t).

Definition same_labels (a b : table) : bool :=
  if list_eq_dec pystr_eq_dec (columns a) (columns b) then true else false.

(** The type of a column of the concatenation: [Object] as soon as one
    frame that has the column types it [Object], a frame without rows
    included; a frame that lacks the column only brings NaN and leaves a
    numeric column numeric. *)
Definition stacked_dtypes (frames : list table) (width : nat) : list dtype :=
  map (fun i => if existsb (fun t => is_object (nth i (dtypes t) Object)) frames
                then Object else Numeric)
      (seq 0 width).

Definition typed_object (t : table) (c : pystr) : bool :=
  match index_of c (columns t) with
  | Some i => is_object (nth i (dtypes t) Object)
  | None => false
  end.

Definition joined_dtype (frames : list table) (c : pystr) : dtype :=
  if existsb (fun t => typed_object t c) frames then Object else Numeric.

(** [pd.concat(frames, ignore_index=True)].
    - no frame: [ValueError: No objects to concatenate];
    - every frame has the same labels: the rows are stacked as they are;
    - otherwise the frames are reindexed on the union of the labels, which
      pandas refuses ([InvalidIndexError]) when a frame carries a label
      twice. *)
Definition concat (frames : list table) : outcome table :=
  match frames with
  | [] => Raised
  | f :: fs =>
      if forallb (same_labels f) fs then
        Ok {| columns := columns f;
              dtypes := stacked_dtypes frames (length (columns f));
              rows := flat_map rows frames |}
      else if forallb (fun g => unique_labels (columns g)) frames then
        let labels := union_labels frames in
        Ok {| columns := labels;
              dtypes := map (joined_dtype frames) labels;
              rows := flat_map (reindex labels) frames |}
      else Raised
  end.

(** [csvs] is the list of parsed files in the order of [DATA_DIR.glob]. *)
Definition load_data (U : unicode) (csvs : list csv_file) : outcome table :=
  let frames := map (load_frame U) csvs in
  concat frames.

(** Line 65.  [df[c]] is a whole frame when [c] labels two columns, and a
    frame has no [dtype]: the comprehension raises [AttributeError] then.
    Otherwise a column is kept when its type is int64 or float64. *)
Definition is_numeric (df : table) (c : pystr) : bool := negb (is_object (dtype_of df c)).

Definition numeric_cols (df : table) : outcome (list pystr) :=
  if unique_labels (columns df) then Ok (filter (is_numeric df) (columns df))
  else Raised.

(** ** Filter Engine (lines 84-91)

    From line 65 on the labels of [df] are pairwise distinct (the script
    has stopped otherwise), so a label names one column. *)

(** Lines 84-86.  [source] is the value of the "Pick Dataset" box. *)
Definition source_filter (df : table) (source : pystr) : outcome table :=
  let df_view := df in
  if negb (pystr_eqb source (py "All")) then
    match index_of (py "source_file") (columns df_view) with
    | Some i => Ok (keep_rows (fun r => cell_eqb (at_col i r) (Str source)) df_view)
    | None => Raised
    end
  else Ok df_view.

(** Line 88. *)
Definition has_year (df_view : table) : bool := mem (py "year") (columns df_view).

Definition numbers (cells : list cell) : list Qc :=
  flat_map (fun c => match c with Num q => [q] | _ => [] end) cells.

Definition texts (cells : list cell) : list pystr :=
  flat_map (fun c => match c with Str s => [s] | _ => [] end) cells.

Definition Qcmin (x y : Qc) : Qc := if Qcleb x y then x else y.
Definition Qcmax (x y : Qc) : Qc := if Qcleb x y then y else x.

(** [Series.min()] and [Series.max()] skip missing cells; on nothing they
    are NaN, here [None]. *)
Definition series_min (qs : list Qc) : option Qc :=
  match qs with
  | [] => None
  | q :: qs' => Some (fold_left Qcmin qs' q)
  end.

Definition series_max (qs : list Qc) : option Qc :=
  match qs with
  | [] => None
  | q :: qs' => Some (fold_left Qcmax qs' q)
  end.

(** [int(x)] on a float: truncation toward zero. *)
Definition py_int (q : Qc) : Z := Z.quot (Qnum q) (Zpos (Qden q)).

Definition str_min (a b : pystr) : pystr := if pystr_leb a b then a else b.
Definition str_max (a b : pystr) : pystr := if pystr_leb a b then b else a.

(** Line 89: [yr_min, yr_max].
    - numbers, missing cells skipped: [int()] of the least and of the
      greatest; with no number at all [int(nan)] is a [ValueError];
    - texts only: the least and the greatest in string order, and
      [int()] reads them or raises;
    - texts next to numbers or to missing cells: [min()] cannot compare
      them ([TypeError]). *)
Definition year_bounds (U : unicode) (df_view : table) : outcome (Z * Z) :=
  years <- column_values df_view (py "year") ;;
  match texts years with
  | [] =>
      match series_min (numbers years), series_max (numbers years) with
      | Some lo, Some hi => Ok (py_int lo, py_int hi)
      | _, _ => Raised
      end
  | s :: ss =>
      if existsb (fun c => negb (is_text c)) years then Raised
      else
        yr_min <- int_of_str U (fold_left str_min ss s) ;;
        yr_max <- int_of_str U (fold_left str_max ss s) ;;
        Ok (yr_min, yr_max)
  end.

(** Line 90.  [st.slider] refuses a span whose ends are not in strict
    order, and numbers beyond what JavaScript holds exactly.  Otherwise
    it starts on the full span [(yr_min, yr_max)] and returns the handles
    the user has set; the widget keeps them inside the span. *)
Definition max_safe_integer : Z := 2 ^ 53 - 1.

Definition is_safe (z : Z) : bool := ((- max_safe_integer <=? z) && (z <=? max_safe_integer))%Z.

Definition accepts (span : Z * Z) : bool :=
  (fst span <? snd span)%Z && is_safe (fst span) && is_safe (snd span).

Definition slider (span : Z * Z) (pick : option (Z * Z)) : outcome (Z * Z) :=
  if accepts span then
    Ok (match pick with
        | Some handles => handles
        | None => span
        end)
  else Raised.

Definition in_range (yr_rng : Z * Z) (c : cell) : bool :=
  match c with
  | Num q => Qle_bool (inject_Z (fst yr_rng)) q && Qle_bool q (inject_Z (snd yr_rng))
  | _ => false
  end.

(** Line 91.  A comparison with NaN is false; a text cannot be compared
    with an int ([TypeError]). *)
Definition year_filter (df_view : table) (yr_rng : Z * Z) : outcome table :=
  match index_of (py "year") (columns df_view) with
  | Some i =>
      if existsb (fun r => is_text (at_col i r)) (rows df_view) then Raised
      else Ok (keep_rows (fun r => in_range yr_rng (at_col i r)) df_view)
  | None => Raised
  end.

(** Lines 84-91 as the script runs them; [pick] is what the user has done
    with the slider. *)
Definition filter_section (U : unicode) (df : table) (source : pystr) (pick : option (Z * Z))
  : outcome table :=
  df_view <- source_filter df source ;;
  if has_year df_view then
    span <- year_bounds U df_view ;;
    yr_rng <- slider span pick ;;
    year_filter df_view yr_rng
  else Ok df_view.

(** The Filter Engine on its inputs, the table, the selector and the pair
    of bounds: lines 84-91 with the handles of the slider on that pair. *)
Definition filter_engine (U : unicode) (df : table) (source : pystr) (yr_rng : Z * Z)
  : outcome table :=
  filter_section U df source (Some yr_rng).

(** ** Aggregation *)

(** A pandas Series: index labels with their values. *)
Definition series := list (cell * cell).

(** [Series.nunique()]: the number of distinct values, NaN not counted. *)
Definition dropna (cells : list cell) : list cell := filter (fun c => negb (is_nan c)) cells.
Definition nunique (cells : list cell) : nat := length (nodup cell_eq_dec (dropna cells)).

Section Sorting.
Variable A : Type.
Variable leb : A -> A -> bool.

Fixpoint insert_by (x : A) (l : list A) : list A :=
  match l with
  | [] => [x]
  | y :: l' => if leb x y then x :: l else y :: insert_by x l'
  end.

(** A stable sort. *)
Definition sort_by (l : list A) : list A := fold_right insert_by [] l.
End Sorting.
Arguments insert_by {A} leb x l.
Arguments sort_by {A} leb l.

(** The order in which [groupby] lists its keys: numbers in increasing
    order, then texts in lexicographic order. *)
Definition key_leb (a b : cell) : bool :=
  match a, b with
  | Num x, Num y => Qcleb x y
  | Num _, _ => true
  | Str _, Num _ => false
  | Str s, Str t => pystr_leb s t
  | Str _, NaN => true
  | NaN, NaN => true
  | NaN, _ => false
  end.

(** Grouping walks the rows once and files each value under its key; a row
    whose key is missing is skipped ([dropna=True], the default). *)
Fixpoint add_to_group (k x : cell) (groups : list (cell * list cell)) : list (cell * list cell) :=
  match groups with
  | [] => [(k, [x])]
  | (k', xs) :: rest =>
      if cell_eq_dec k' k then (k', xs ++ [x]) :: rest
      else (k', xs) :: add_to_group k x rest
  end.

Definition group_step (groups : list (cell * list cell)) (kx : cell * cell) : list (cell * list cell) :=
  if is_nan (fst kx) then groups else add_to_group (fst kx) (snd kx) groups.

Definition group_values (keys vals : list cell) : list (cell * list cell) :=
  fold_left group_step (combine keys vals) [].

(** What pandas and numpy decide and the script does not:
    - [nlargest_keeps_nan]: the releases differ on the missing values of
      [nlargest], the older ones drop them, the newer ones put them behind
      the others before cutting;
    - [average]: the float64 mean of the values of a group, with its
      rounding;
    - [ties]: which of two entries with the same value numpy's quicksort
      puts first. *)
Record pandas := {
  nlargest_keeps_nan : bool;
  average : list Qc -> Qc;
  ties : cell * cell -> cell * cell -> bool
}.

(** [mean()] of one group: over the values that are present, NaN when
    there is none ([skipna=True], the default). *)
Definition mean (P : pandas) (cells : list cell) : cell :=
  match numbers cells with
  | [] => NaN
  | qs => Num (average P qs)
  end.

(** [df_view.groupby(by)[col].mean()]: one entry per key, keys sorted.
    A missing label is a [KeyError]; a text in a row that belongs to a
    group cannot be averaged ([TypeError]). *)
Definition groupby_mean (P : pandas) (df_view : table) (by_ col : pystr) : outcome series :=
  keys <- column_values df_view by_ ;;
  vals <- column_values df_view col ;;
  if existsb (fun kv => negb (is_nan (fst kv)) && is_text (snd kv)) (combine keys vals)
  then Raised
  else
    let groups := sort_by (fun a b => key_leb (fst a) (fst b)) (group_values keys vals) in
    Ok (map (fun g => (fst g, mean P (snd g))) groups).

(** The order between two values: increasing or decreasing on the values
    that are present, the missing ones last either way
    ([na_position="last"]). *)
Definition value_leb (ascending : bool) (a b : cell) : bool :=
  match a, b with
  | Num x, Num y => if ascending then Qcleb x y else Qcleb y x
  | Num _, _ => true
  | _, Num _ => false
  | _, _ => true
  end.

(** [sort_values]: entries with the same value come as numpy's quicksort
    leaves them, the missing ones stay in their former order. *)
Definition before (P : pandas) (ascending : bool) (a b : cell * cell) : bool :=
  match snd a, snd b with
  | Num x, Num y => if Qc_eq_dec x y then ties P a b else value_leb ascending (Num x) (Num y)
  | va, vb => value_leb ascending va vb
  end.

Definition sort_values (P : pandas) (ascending : bool) (s : series) : series :=
  sort_by (before P ascending) s.

(** A stable sort on the values, as [nlargest] uses (mergesort). *)
Definition sort_stable (ascending : bool) (s : series) : series :=
  sort_by (fun a b => value_leb ascending (snd a) (snd b)) s.

Definition head (n : nat) (s : series) : series := firstn n s.

(** [Series.nlargest(n)]: the values in decreasing order, cut after [n]
    entries.  When the series has no more than [n] entries pandas just
    calls [sort_values]; otherwise it selects with a stable sort. *)
Definition nlargest_kept (P : pandas) (s : series) : series :=
  if nlargest_keeps_nan P then s else filter (fun e => negb (is_nan (snd e))) s.

Definition nlargest (P : pandas) (n : nat) (s : series) : series :=
  let kept := nlargest_kept P s in
  if length s <=? n then firstn n (sort_values P false kept)
  else firstn n (sort_stable false kept).

Definition values (s : series) : list cell := map snd s.
Definition index (s : series) : list cell := map fst s.

(** ** Chart renderers (lines 108-160) *)

Inductive view_mode : Type :=
| DataPreview
| BarChart
| TrendOverTime
| TreatmentGapPie
| Correlation.

(** What a plotting call is handed. *)
Inductive figure : Type :=
| Bars (agg : series)
| Line (grp : series)
| Pie (pie_data : series)
| Heatmap (labels : list pystr).

(** What the script puts on the page. *)
Inductive element : Type :=
| Markdown (html : string)
| Text (s : string)
| Subheader (s : string)
| Metric (label : string) (value : nat)
| Warning (msg : string)
| Dataframe (t : table)
| Pyplot (fig : figure).

Definition is_chart (e : element) : bool := match e with Pyplot _ => true | _ => false end.
Definition is_warning (e : element) : bool := match e with Warning _ => true | _ => false end.

Definition card_open : element := Markdown "<div class='glass-card'>".
Definition card_close : element := Markdown "</div>".

(** [st.selectbox(label, options)]: the option the user picked, the first
    one until they pick; [None] when there is no option. *)
Definition selectbox (options : list pystr) (pick : nat) : option pystr := nth_error options pick.

(** Lines 116 and 147: ["entity" if "entity" in df_view.columns else df_view.columns[0]]. *)
Definition category (df_view : table) : outcome pystr :=
  if mem (py "entity") (columns df_view) then Ok (py "entity")
  else
    match columns df_view with
    | c :: _ => Ok c
    | [] => Raised
    end.

(** Lines 116-120.  [metric] is [None] when the box had nothing to offer,
    and [groupby(...)[None]] is a [KeyError]. *)
Definition bar_chart (P : pandas) (df_view : table) (metric : option pystr) (top_n : nat)
           (srt : bool) : outcome series :=
  category <- category df_view ;;
  match metric with
  | Some metric =>
      agg <- groupby_mean P df_view category metric ;;
      Ok (head top_n (sort_values P (negb srt) agg))
  | None => Raised
  end.

(** Line 122: [agg.plot(kind="bar")] has nothing to draw from a series
    without entries ([IndexError]) or without numeric type
    ([TypeError]). *)
Definition plot_bar (df_view : table) (metric : option pystr) (agg : series)
  : outcome figure :=
  match agg, metric with
  | [], _ => Raised
  | _, None => Raised
  | _, Some metric => if is_object (dtype_of df_view metric) then Raised else Ok (Bars agg)
  end.

(** Line 133. *)
Definition trend (P : pandas) (df_view : table) (tm : option pystr) : outcome series :=
  match tm with
  | Some tm => groupby_mean P df_view (py "year") tm
  | None => Raised
  end.

(** Line 142: the first label that contains "gap" or "percent". *)
Definition is_gap_label (c : pystr) : bool := contains (py "gap") c || contains (py "percent") c.
Definition gap_col (df_view : table) : option pystr := find is_gap_label (columns df_view).

(** Lines 142-148: [None] stands for the warning branch.  [nlargest]
    refuses a series that is not of numeric type ([TypeError]), which is
    what the mean of an [Object] column is. *)
Definition pie_chart (P : pandas) (df_view : table) : outcome (option series) :=
  match gap_col df_view with
  | None | Some [] => Ok None
  | Some gap_col =>
      category <- category df_view ;;
      agg <- groupby_mean P df_view category gap_col ;;
      if is_object (dtype_of df_view gap_col) then Raised
      else Ok (Some (nlargest P 8 agg))
  end.

Definition is_negative (c : cell) : bool :=
  match c with
  | Num q => negb (Qle_bool 0 q)
  | _ => false
  end.

Definition is_zero (c : cell) : bool :=
  match c with
  | Num q => Qeq_bool q 0
  | _ => false
  end.

(** Line 150: [ax.pie] refuses a negative size ([ValueError]); it divides
    the sizes by their sum, and a missing size, or sizes that are all
    zero, leave it with NaN angles that it cannot draw ([ValueError]). *)
Definition plot_pie (pie_data : series) : outcome figure :=
  if existsb is_negative (values pie_data) then Raised
  else if existsb is_nan (values pie_data) then Raised
  else
    match pie_data with
    | [] => Ok (Pie pie_data)
    | _ => if forallb is_zero (values pie_data) then Raised else Ok (Pie pie_data)
    end.

(** Lines 156-158: the matrix of correlations has one row and one column
    per numeric column; [sns.heatmap] cannot take the minimum of an empty
    matrix ([ValueError]).  The coefficients themselves are not
    modelled. *)
Definition plot_heatmap (numeric_cols : list pystr) : outcome figure :=
  match numeric_cols with
  | [] => Raised
  | _ => Ok (Heatmap numeric_cols)
  end.

(** The widgets of the page, as the user has left them. *)
Record inputs := {
  source_pick : nat;
  view : view_mode;
  year_pick : option (Z * Z);
  metric_pick : nat;
  top_n : nat;
  highest_first : bool;
  trend_pick : nat
}.

Definition render (P : pandas) (ui : inputs) (df_view : table) (numeric_cols : list pystr)
  : outcome (list element) :=
  match view ui with
  | DataPreview =>
      Ok [card_open; Subheader "Sample of Filtered Data";
          Dataframe {| columns := columns df_view; dtypes := dtypes df_view;
                       rows := firstn 15 (rows df_view) |};
          card_close]
  | BarChart =>
      let metric := selectbox numeric_cols (metric_pick ui) in
      agg <- bar_chart P df_view metric (top_n ui) (highest_first ui) ;;
      fig <- plot_bar df_view metric agg ;;
      Ok [card_open; Pyplot fig; card_close]
  | TrendOverTime =>
      if negb (has_year df_view) then
        Ok [Warning "This dataset does not contain a 'year' column."]
      else
        grp <- trend P df_view (selectbox numeric_cols (trend_pick ui)) ;;
        Ok [card_open; Pyplot (Line grp); card_close]
  | TreatmentGapPie =>
      pie_data <- pie_chart P df_view ;;
      match pie_data with
      | None => Ok [Warning "No gap column found."]
      | Some pie_data =>
          fig <- plot_pie pie_data ;;
          Ok [card_open; Pyplot fig; card_close]
      end
  | Correlation =>
      fig <- plot_heatmap numeric_cols ;;
      Ok [card_open; Pyplot fig; card_close]
  end.

(** ** The script *)

(** Line 78: ["All"] and the sorted distinct values of [source_file]. *)
Definition source_options (df : table) : outcome (list pystr) :=
  files <- column_values df (py "source_file") ;;
  Ok (py "All" :: sort_by pystr_leb (nodup pystr_eq_dec (texts files))).

(** Lines 98-101. *)
Definition kpis (df_view : table) (numeric_cols : list pystr) : list element :=
  [ Metric "Rows" (nrows df_view);
    Metric "Numeric Columns" (length numeric_cols);
    Metric "Entities" (match column_values df_view (py "entity") with
                       | Ok cells => nunique cells
                       | Raised => 0
                       end) ].

Definition app (U : unicode) (P : pandas) (csvs : list csv_file) (ui : inputs)
  : outcome (list element) :=
  df <- load_data U csvs ;;
  numeric_cols <- numeric_cols df ;;
  options <- source_options df ;;
  let source := nth (source_pick ui) options (py "All") in
  df_view <- filter_section U df source (year_pick ui) ;;
  chart <- render P ui df_view numeric_cols ;;
  Ok ([Markdown "<h1>Mental Health Analytics</h1>";
       Text "Sort. Filter. Analyze. Judge society responsibly."]
      ++ kpis df_view numeric_cols ++ [Markdown "<br>"] ++ chart
      ++ [card_open; Subheader "Insights"; Text "Insights"; card_close]).

(** ** Notions used to state the properties *)

(** [l1] is [l2] with some entries left out, the order kept. *)
Inductive subseq {A : Type} : list A -> list A -> Prop :=
| subseq_nil : subseq [] []
| subseq_keep (x : A) (l1 l2 : list A) : subseq l1 l2 -> subseq (x :: l1) (x :: l2)
| subseq_skip (x : A) (l1 l2 : list A) : subseq l1 l2 -> subseq l1 (x :: l2).

(** A view: the same labels, and rows taken from the table in order. *)
Definition view_of (df_view df : table) : Prop :=
  columns df_view = columns df /\ subseq (rows df_view) (rows df).

(** Comparison of two values as Python compares floats: false as soon as
    one side is NaN. *)
Definition value_le (a b : cell) : Prop :=
  match a, b with
  | Num x, Num y => (x <= y)%Qc
  | _, _ => False
  end.

Definition non_decreasing (l : list cell) : Prop := Sorted value_le l.
Definition non_increasing (l : list cell) : Prop := Sorted (fun a b => value_le b a) l.

(** The cells of a column, [[]] when the label is absent. *)
Definition cells_of (t : table) (c : pystr) : list cell :=
  match column_values t c with
  | Ok cells => cells
  | Raised => []
  end.

Definition is_whole (q : Qc) : Prop := Qden q = 1%positive.

(** Every year of the column is present and a whole number. *)
Definition whole_years (t : table) : Prop :=
  Forall (fun c => exists q, c = Num q /\ is_whole q) (cells_of t (py "year")).

(** No frame carries a label twice once the labels are normalized. *)
Definition distinct_labels (U : unicode) (csvs : list csv_file) : Prop :=
  Forall (fun f => unique_labels (columns (load_frame U f)) = true) csvs.

Definition sum_rows (csvs : list csv_file) : nat :=
  fold_right (fun f n => length (body f) + n) 0 csvs.

(** Two rows of the table have different years. *)
Definition years_apart (t : table) : Prop :=
  exists q1 q2 : Qc,
    In (Num q1) (cells_of t (py "year")) /\ In (Num q2) (cells_of t (py "year")) /\ q1 <> q2.

(** Every year is a number that JavaScript holds exactly. *)
Definition years_safe (t : table) : Prop :=
  forall q, In (Num q) (cells_of t (py "year")) -> is_safe (py_int q) = true.

(** The cell of row [r] of table [t] under label [c]. *)
Definition cell_at (t : table) (c : pystr) (r : list cell) : cell :=
  match index_of c (columns t) with
  | Some i => at_col i r
  | None => NaN
  end.

(** The least and the greatest year of a view. *)
Definition is_min_year (df_view : table) (m : Qc) : Prop :=
  In (Num m) (cells_of df_view (py "year"))
  /\ forall q, In (Num q) (cells_of df_view (py "year")) -> (m <= q)%Qc.

Definition is_max_year (df_view : table) (m : Qc) : Prop :=
  In (Num m) (cells_of df_view (py "year"))
  /\ forall q, In (Num q) (cells_of df_view (py "year")) -> (q <= m)%Qc.

(** C8 as stated: the bounds of the slider are the least and the greatest year. *)
Definition bounds_are_extremes (U : unicode) (df_view : table) : Prop :=
  exists lo hi : Z,
    year_bounds U df_view = Ok (lo, hi)
    /\ is_min_year df_view (Q2Qc (inject_Z lo))
    /\ is_max_year df_view (Q2Qc (inject_Z hi)).

(** The order Python knows between two numbers, on the chosen side. *)
Definition in_order (ascending : bool) (x y : Qc) : Prop :=
  if ascending then (x <= y)%Qc else (y <= x)%Qc.

(** The values of [col] in the rows of the view whose [by_] cell is [k]. *)
Definition values_where (df_view : table) (by_ : pystr) (k : cell) (col : pystr) : list cell :=
  map (cell_at df_view col)
      (filter (fun r => cell_eqb (cell_at df_view by_ r) k) (rows df_view)).

(** The values filed under key [k] by a walk over the pairs [kvs]. *)
Definition values_of (k : cell) (kvs : list (cell * cell)) : list cell :=
  map snd (filter (fun kv => cell_eqb (fst kv) k) kvs).

(** The series drawn by the pie view: none in the warning branch. *)
Definition drawn (pie_data : option series) : series :=
  match pie_data with
  | Some s => s
  | None => []
  end.

(** The entry of a key in the list of groups. *)
Fixpoint assoc (k : cell) (groups : list (cell * list cell)) : option (list cell) :=
  match groups with
  | [] => None
  | (k', xs) :: rest => if cell_eq_dec k' k then Some xs else assoc k rest
  end.

(** ** Sample data

    [a.csv] and [b.csv] have the same header; [c.csv] has no year and no
    gap column; [d.csv] has a year that is not a whole number. *)

Definition a_csv : csv_file :=
  {| name := py "a.csv";
     header := [py "Entity"; py "Year"; py "Gap (%)"];
     body := [ [txt "X"; num 2000; num 10];
               [txt "Y"; num 2005; num 20];
               [txt "X"; num 2010; frac 5 2] ] |}.

Definition b_csv : csv_file :=
  {| name := py "b.csv";
     header := [py "Entity"; py "Year"; py "Gap (%)"];
     body := [ [txt "Z"; num 1990; num 1];
               [txt "Y"; num 1995; num 3] ] |}.

Definition c_csv : csv_file :=
  {| name := py "c.csv";
     header := [py "Entity"; py "Score"];
     body := [ [txt "W"; num 7] ] |}.

Definition d_csv : csv_file :=
  {| name := py "d.csv";
     header := [py "Entity"; py "Year"];
     body := [ [txt "X"; frac 4001 2];
               [txt "Y"; num 2001] ] |}.

(** [a.csv] and [b.csv] loaded. *)
Definition df_ab : table :=
  {| columns := [py "entity"; py "year"; py "gap_"; py "source_file"];
     dtypes := [Object; Numeric; Numeric; Object];
     rows := [ [txt "X"; num 2000; num 10; txt "a.csv"];
               [txt "Y"; num 2005; num 20; txt "a.csv"];
               [txt "X"; num 2010; frac 5 2; txt "a.csv"];
               [txt "Z"; num 1990; num 1; txt "b.csv"];
               [txt "Y"; num 1995; num 3; txt "b.csv"] ] |}.

(** [a.csv] and [c.csv] loaded: the row of [c.csv] has no year and no gap. *)
Definition df_ac : table :=
  {| columns := [py "entity"; py "year"; py "gap_"; py "source_file"; py "score"];
     dtypes := [Object; Numeric; Numeric; Object; Numeric];
     rows := [ [txt "X"; num 2000; num 10; txt "a.csv"; NaN];
               [txt "Y"; num 2005; num 20; txt "a.csv"; NaN];
               [txt "X"; num 2010; frac 5 2; txt "a.csv"; NaN];
               [txt "W"; NaN; NaN; txt "c.csv"; num 7] ] |}.

(** [d.csv] loaded. *)
Definition df_d : table :=
  {| columns := [py "entity"; py "year"; py "source_file"];
     dtypes := [Object; Numeric; Object];
     rows := [ [txt "X"; frac 4001 2; txt "d.csv"];
               [txt "Y"; num 2001; txt "d.csv"] ] |}.

(** [c.csv] loaded alone. *)
Definition df_c : table :=
  {| columns := [py "entity"; py "score"; py "source_file"];
     dtypes := [Object; Numeric; Object];
     rows := [ [txt "W"; num 7; txt "c.csv"] ] |}.

(** A file whose rows all have the same year. *)
Definition one_csv : csv_file :=
  {| name := py "one.csv";
     header := [py "Entity"; py "Year"; py "Score"];
     body := [ [txt "X"; num 2000; num 1];
               [txt "Y"; num 2000; num 2] ] |}.

Definition df_one : table :=
  {| columns := [py "entity"; py "year"; py "score"; py "source_file"];
     dtypes := [Object; Numeric; Numeric; Object];
     rows := [ [txt "X"; num 2000; num 1; txt "one.csv"];
               [txt "Y"; num 2000; num 2; txt "one.csv"] ] |}.

(** A file in which one entity has a year and no gap value. *)
Definition m_csv : csv_file :=
  {| name := py "m.csv";
     header := [py "Entity"; py "Year"; py "Gap (%)"];
     body := [ [txt "X"; num 2000; num 10];
               [txt "Y"; num 2005; NaN];
               [txt "Z"; num 2010; num 20] ] |}.

Definition df_m : table :=
  {| columns := [py "entity"; py "year"; py "gap_"; py "source_file"];
     dtypes := [Object; Numeric; Numeric; Object];
     rows := [ [txt "X"; num 2000; num 10; txt "m.csv"];
               [txt "Y"; num 2005; NaN; txt "m.csv"];
               [txt "Z"; num 2010; num 20; txt "m.csv"] ] |}.

(** A file whose gap column holds a text. *)
Definition t_csv : csv_file :=
  {| name := py "t.csv";
     header := [py "Entity"; py "Year"; py "Gap (%)"];
     body := [ [txt "V"; num 2001; txt "unknown"] ] |}.

(** [a.csv] and [t.csv] loaded: the gap column is typed [Object]. *)
Definition df_at : table :=
  {| columns := [py "entity"; py "year"; py "gap_"; py "source_file"];
     dtypes := [Object; Numeric; Object; Object];
     rows := [ [txt "X"; num 2000; num 10; txt "a.csv"];
               [txt "Y"; num 2005; num 20; txt "a.csv"];
               [txt "X"; num 2010; frac 5 2; txt "a.csv"];
               [txt "V"; num 2001; txt "unknown"; txt "t.csv"] ] |}.

(** The rows of [a.csv] in that table. *)
Definition df_at_a : table :=
  {| columns := columns df_at;
     dtypes := dtypes df_at;
     rows := firstn 3 (rows df_at) |}.

(** A file with two rows in one year and a year without gap value. *)
Definition y_csv : csv_file :=
  {| name := py "y.csv";
     header := [py "Entity"; py "Year"; py "Gap (%)"];
     body := [ [txt "X"; num 2000; num 10];
               [txt "Y"; num 2000; num 20];
               [txt "Z"; num 2005; NaN];
               [txt "W"; num 2010; num 5] ] |}.

Definition df_y : table :=
  {| columns := [py "entity"; py "year"; py "gap_"; py "source_file"];
     dtypes := [Object; Numeric; Numeric; Object];
     rows := [ [txt "X"; num 2000; num 10; txt "y.csv"];
               [txt "Y"; num 2000; num 20; txt "y.csv"];
               [txt "Z"; num 2005; NaN; txt "y.csv"];
               [txt "W"; num 2010; num 5; txt "y.csv"] ] |}.

(** A file whose years are texts that [int()] reads: 90 and 100. *)
Definition s_csv : csv_file :=
  {| name := py "s.csv";
     header := [py "Entity"; py "Year"];
     body := [ [txt "X"; txt "9_0"];
               [txt "Y"; txt "1_00"] ] |}.

Definition df_s : table :=
  {| columns := [py "entity"; py "year"; py "source_file"];
     dtypes := [Object; Object; Object];
     rows := [ [txt "X"; txt "9_0"; txt "s.csv"];
               [txt "Y"; txt "1_00"; txt "s.csv"] ] |}.

(** A file with a header and no row, and a file with whole years. *)
Definition h_csv : csv_file :=
  {| name := py "h.csv";
     header := [py "Entity"; py "Year"];
     body := [] |}.

Definition k_csv : csv_file :=
  {| name := py "k.csv";
     header := [py "Entity"; py "Year"];
     body := [ [txt "X"; num 2000];
               [txt "Y"; num 2005] ] |}.

(** [h.csv] and [k.csv] loaded: the year column is typed [Object]. *)
Definition df_hk : table :=
  {| columns := [py "entity"; py "year"; py "source_file"];
     dtypes := [Object; Object; Object];
     rows := [ [txt "X"; num 2000; txt "k.csv"];
               [txt "Y"; num 2005; txt "k.csv"] ] |}.

(** A header with an underscore next to a run of non-word characters. *)
Definition e_csv : csv_file :=
  {| name := py "e.csv";
     header := [py "Entity"; py "Gap_(%)"];
     body := [ [txt "X"; num 10] ] |}.

Definition df_e : table :=
  {| columns := [py "entity"; py "gap__"; py "source_file"];
     dtypes := [Object; Numeric; Object];
     rows := [ [txt "X"; num 10; txt "e.csv"] ] |}.

(** The page as the user finds it, with the Trend view picked. *)
Definition ui_trend : inputs :=
  {| source_pick := 0;
     view := TrendOverTime;
     year_pick := None;
     metric_pick := 0;
     top_n := 10;
     highest_first := true;
     trend_pick := 0 |}.

(** The Trend view with the second numeric column as metric. *)
Definition ui_trend_gap : inputs :=
  {| source_pick := 0;
     view := TrendOverTime;
     year_pick := None;
     metric_pick := 0;
     top_n := 10;
     highest_first := true;
     trend_pick := 1 |}.

(** The page as the user finds it, with the Bar Chart picked and the
    second numeric column as metric. *)
Definition ui_bar : inputs :=
  {| source_pick := 0;
     view := BarChart;
     year_pick := None;
     metric_pick := 1;
     top_n := 10;
     highest_first := true;
     trend_pick := 0 |}.

(** A value as a fraction; nothing for a missing value. *)
Definition reading (c : cell) : option Q :=
  match c with
  | Num q => Some (this q)
  | _ => None
  end.

(** The mean without rounding.  It is the float64 mean wherever the sum
    and the quotient are float64 numbers, as on the sample data. *)
Definition exact_average (qs : list Qc) : Qc :=
  (fold_left Qcplus qs (Q2Qc 0) / Q2Qc (inject_Z (Z.of_nat (length qs))))%Qc.

(** A recent pandas on the sample data; equal values stay in the order
    they had. *)
Definition modern : pandas :=
  {| nlargest_keeps_nan := true;
     average := exact_average;
     ties := fun _ _ => true |}.

(** ** Further notions *)

(** A parsed file is rectangular: every row has one cell per header. *)
Definition well_formed (f : csv_file) : Prop :=
  Forall (fun r => length r = length (header f)) (body f).

(** A row of frame [t] laid out under [labels]. *)
Definition relabel (labels : list pystr) (t : table) (r : list cell) : list cell :=
  map (fun c => cell_at t c r) labels.

(** The mask of line 86 and the mask of line 91, on a row of [df]. *)
Definition source_matches (df : table) (source : pystr) (r : list cell) : bool :=
  pystr_eqb source (py "All") || cell_eqb (cell_at df (py "source_file") r) (Str source).

Definition year_matches (df : table) (yr_rng : Z * Z) (r : list cell) : bool :=
  negb (has_year df) || in_range yr_rng (cell_at df (py "year") r).

(** Strict order on strings, code point by code point. *)
Definition pystr_ltb (a b : pystr) : bool := pystr_leb a b && negb (pystr_eqb a b).

Definition is_metric (e : element) : bool := match e with Metric _ _ => true | _ => false end.

(** What is shown under the card of the Data Preview. *)
Definition preview (df_view : table) : table :=
  {| columns := columns df_view; dtypes := dtypes df_view;
     rows := firstn 15 (rows df_view) |}.

(** The types tell the truth about the cells: a column typed [Numeric]
    holds no text.  Every frame that [pd.read_csv] and [pd.concat] build
    is so. *)
Definition well_typed (t : table) : Prop :=
  forall c, In c (columns t) -> dtype_of t c = Numeric ->
            existsb is_text (cells_of t c) = false.

(** The view that the year range (2001, 2002) leaves of [a.csv] and
    [b.csv]: the labels and no row. *)
Definition df_ab_none : table :=
  {| columns := columns df_ab; dtypes := dtypes df_ab; rows := [] |}.

(** * Properties *)

(** ** Strings *)

Lemma pystr_eqb_eq (a b : pystr) : pystr_eqb a b = true <-> a = b.
Proof.
  unfold pystr_eqb. destruct (pystr_eq_dec a b); split; congruence.
Qed.

Lemma pystr_eqb_refl (a : pystr) : pystr_eqb a a = true.
Proof. now apply pystr_eqb_eq. Qed.

Lemma pystr_eqb_neq (a b : pystr) : pystr_eqb a b = false <-> a <> b.
Proof.
  unfold pystr_eqb. destruct (pystr_eq_dec a b); split; congruence.
Qed.

Lemma mem_In (x : pystr) (l : list pystr) : mem x l = true <-> In x l.
Proof.
  unfold mem. rewrite existsb_exists. split.
  - intros [y [Hy E]]. apply pystr_eqb_eq in E. now subst.
  - intros H. exists x. split; [exact H | apply pystr_eqb_refl].
Qed.

Lemma mem_not_In (x : pystr) (l : list pystr) : mem x l = false <-> ~ In x l.
Proof.
  rewrite <- mem_In. destruct (mem x l); split; congruence.
Qed.

Lemma unique_labels_NoDup (l : list pystr) : unique_labels l = true <-> NoDup l.
Proof.
  induction l as [|x l IH]; simpl.
  - split; [constructor | reflexivity].
  - rewrite andb_true_iff, negb_true_iff, mem_not_In, IH. split.
    + intros [H1 H2]. now constructor.
    + intros H. inversion H; subst. now split.
Qed.

Lemma starts_with_prefix (needle hay : pystr) :
  starts_with needle hay = true <-> exists post, hay = needle ++ post.
Proof.
  revert hay. induction needle as [|a n IH]; intros hay; simpl.
  - split; [intros _; now exists hay | reflexivity].
  - destruct hay as [|b h].
    + split; [discriminate | intros [post E]; discriminate].
    + rewrite andb_true_iff, N.eqb_eq, IH. split.
      * intros [-> [post ->]]. now exists post.
      * intros [post E]. injection E as -> ->. split; [reflexivity | now exists post].
Qed.

(** [contains] is Python's [in] on strings: the needle occurs as a block. *)
Lemma contains_infix (needle hay : pystr) :
  contains needle hay = true <-> exists pre post, hay = pre ++ needle ++ post.
Proof.
  induction hay as [|b h IH].
  - simpl. rewrite orb_false_r, starts_with_prefix. split.
    + intros [post E]. now exists [], post.
    + intros [pre [post E]]. destruct pre; [now exists post | discriminate].
  - cbn [contains]. rewrite orb_true_iff, starts_with_prefix, IH. split.
    + intros [[post E] | [pre [post E]]].
      * now exists [], post.
      * exists (b :: pre), post. now rewrite E.
    + intros [pre [post E]]. destruct pre as [|c pre].
      * left. now exists post.
      * right. injection E as _ ->. now exists pre, post.
Qed.

(** *** Normalization of a label *)

Section Normalization.
Variable U : unicode.

Lemma underscore_is_word : is_word U underscore = true.
Proof. reflexivity. Qed.

(** Whatever the run state, the substitution leaves word characters only. *)
Lemma sub_runs_word (s : pystr) (in_run : bool) :
  Forall (fun c => is_word U c = true) (sub_runs U in_run s).
Proof.
  revert in_run. induction s as [|c s IH]; intros in_run; simpl.
  - constructor.
  - destruct (is_word U c) eqn:W.
    + constructor; [exact W | apply IH].
    + destruct in_run; [apply IH | constructor; [apply underscore_is_word | apply IH]].
Qed.

(** And each of them is a word character of the input or the underscore. *)
Lemma sub_runs_from (s : pystr) (in_run : bool) (c : pychar) :
  In c (sub_runs U in_run s) -> c = underscore \/ (In c s /\ is_word U c = true).
Proof.
  revert in_run. induction s as [|d s IH]; intros in_run; simpl.
  - intros [].
  - destruct (is_word U d) eqn:W.
    + intros [<- | H]; [right; split; [now left | exact W] |].
      destruct (IH _ H) as [E | [Hin Hw]]; [now left | right; split; [now right | exact Hw]].
    + destruct in_run.
      * intros H. destruct (IH _ H) as [E | [Hin Hw]]; [now left | right; split; [now right | exact Hw]].
      * intros [<- | H]; [now left |].
        destruct (IH _ H) as [E | [Hin Hw]]; [now left | right; split; [now right | exact Hw]].
Qed.

(** On a string without underscore, a run that has produced its
    underscore is never followed by another one. *)
Lemma sub_runs_head (s : pystr) :
  existsb is_underscore s = false ->
  match sub_runs U true s with
  | c :: _ => is_underscore c = false
  | [] => True
  end.
Proof.
  induction s as [|d s IH]; simpl; [trivial |].
  intros H. apply orb_false_iff in H as [Hd Hs].
  destruct (is_word U d); [exact Hd | now apply IH].
Qed.

Lemma sub_runs_no_double (s : pystr) (in_run : bool) :
  existsb is_underscore s = false ->
  double_underscore (sub_runs U in_run s) = false.
Proof.
  revert in_run. induction s as [|d s IH]; intros in_run; simpl; [reflexivity |].
  intros H. apply orb_false_iff in H as [Hd Hs].
  destruct (is_word U d).
  - cbn [double_underscore]. rewrite Hd. simpl.
    specialize (IH false Hs). destruct (sub_runs U false s); [reflexivity | exact IH].
  - destruct in_run; [now apply IH |].
    pose proof (sub_runs_head s Hs) as Hh. specialize (IH true Hs).
    cbn [double_underscore]. destruct (sub_runs U true s) as [|c r]; [reflexivity |].
    rewrite Hh, andb_false_r. exact IH.
Qed.

(** [str.lower] on ASCII text: ASCII again, without capitals, and with
    an underscore only where there was one. *)
Lemma lower_char_ascii (before after : pystr) (c : pychar) :
  is_ascii c = true ->
  exists d, lower_char U before c after = [d]
            /\ is_ascii d = true /\ is_upper d = false
            /\ is_underscore d = is_underscore c.
Proof.
  unfold lower_char, is_ascii, is_upper, is_underscore, underscore. intros A.
  apply N.ltb_lt in A.
  destruct ((65 <=? c)%N && (c <=? 90)%N) eqn:Up.
  - apply andb_true_iff in Up as [L R]. apply N.leb_le in L. apply N.leb_le in R.
    exists (c + 32)%N. repeat split.
    + apply N.ltb_lt. lia.
    + apply andb_false_iff. right. apply N.leb_gt. lia.
    + transitivity false; [apply N.eqb_neq; lia | symmetry; apply N.eqb_neq; lia].
  - assert (A' : (c <? 128)%N = true) by now apply N.ltb_lt.
    rewrite A'. exists c. repeat split; assumption.
Qed.

Lemma lower_from_ascii (s before : pystr) :
  forallb is_ascii s = true ->
  forallb (fun d => is_ascii d && negb (is_upper d)) (lower_from U before s) = true
  /\ existsb is_underscore (lower_from U before s) = existsb is_underscore s.
Proof.
  revert before. induction s as [|c s IH]; intros before; simpl; [now split |].
  intros H. apply andb_true_iff in H as [Hc Hs].
  destruct (lower_char_ascii before s c Hc) as [d [E [A [NU UN]]]].
  destruct (IH (before ++ [c]) Hs) as [IH1 IH2].
  rewrite E. simpl. rewrite A, NU, UN, IH1, IH2. now split.
Qed.

Lemma ascii_word_az09_ (c : pychar) :
  is_ascii c = true -> is_upper c = false -> is_word U c = true -> is_az09_ c = true.
Proof.
  unfold is_word, is_az09_. intros -> ->. now rewrite orb_false_l.
Qed.
End Normalization.

Lemma underscore_az09_ : is_az09_ underscore = true.
Proof. reflexivity. Qed.

(** On an ASCII label the result stays within [a-z0-9_]. *)
Lemma normalize_ascii_charset (U : unicode) (name : pystr) :
  forallb is_ascii name = true -> forallb is_az09_ (normalize U name) = true.
Proof.
  intros A. apply forallb_forall. intros c Hc.
  unfold normalize, str_replace_nonword in Hc.
  apply sub_runs_from in Hc as [-> | [Hin W]]; [apply underscore_az09_ |].
  destruct (lower_from_ascii U name [] A) as [L _].
  rewrite forallb_forall in L. specialize (L c Hin).
  apply andb_true_iff in L as [L1 L2]. apply negb_true_iff in L2.
  now apply (ascii_word_az09_ U).
Qed.

Lemma normalize_ascii_no_double (U : unicode) (name : pystr) :
  forallb is_ascii name = true -> existsb is_underscore name = false ->
  double_underscore (normalize U name) = false.
Proof.
  intros A N. unfold normalize, str_replace_nonword. apply sub_runs_no_double.
  unfold str_lower. destruct (lower_from_ascii U name [] A) as [_ E]. now rewrite E.
Qed.

(** ** Dataset Loader *)

Lemma set_column_nrows (c : pystr) (v : cell) (t : table) :
  nrows (set_column c v t) = nrows t.
Proof.
  unfold set_column, nrows. destruct (index_of c (columns t)); simpl; apply length_map.
Qed.

Lemma load_frame_nrows (U : unicode) (f : csv_file) :
  nrows (load_frame U f) = length (body f).
Proof.
  unfold load_frame, nrows. simpl.
  exact (set_column_nrows (py "source_file") (Str (name f)) (read_csv f)).
Qed.

Lemma reindex_length (labels : list pystr) (t : table) :
  length (reindex labels t) = nrows t.
Proof. unfold reindex, nrows. apply length_map. Qed.

Lemma flat_map_length_sum {A B : Type} (f : A -> list B) (g : A -> nat) (l : list A) :
  (forall a, length (f a) = g a) ->
  length (flat_map f l) = fold_right (fun a n => g a + n) 0 l.
Proof.
  intros H. induction l as [|a l IH]; simpl; [reflexivity |].
  now rewrite length_app, H, IH.
Qed.

(** Stacking frames neither drops nor invents a row. *)
Lemma concat_nrows (frames : list table) (df : table) :
  concat frames = Ok df ->
  nrows df = fold_right (fun t n => nrows t + n) 0 frames.
Proof.
  unfold concat. destruct frames as [|f fs]; [discriminate |].
  destruct (forallb (same_labels f) fs).
  - intros E. injection E as <-.
    exact (flat_map_length_sum rows nrows (f :: fs) (fun a => eq_refl)).
  - destruct (forallb (fun g => unique_labels (columns g)) (f :: fs)); [| discriminate].
    intros E. injection E as <-.
    exact (flat_map_length_sum _ nrows (f :: fs) (reindex_length _)).
Qed.

Lemma concat_returns (frames : list table) :
  frames <> [] ->
  Forall (fun t => unique_labels (columns t) = true) frames ->
  exists df, concat frames = Ok df.
Proof.
  intros NE H. unfold concat. destruct frames as [|f fs]; [congruence |].
  destruct (forallb (same_labels f) fs); [eexists; reflexivity |].
  rewrite Forall_forall in H. apply forallb_forall in H. rewrite H. eexists; reflexivity.
Qed.

Lemma concat_empty : concat [] = Raised.
Proof. reflexivity. Qed.

Lemma sum_rows_frames (U : unicode) (csvs : list csv_file) :
  fold_right (fun t n => nrows t + n) 0 (map (load_frame U) csvs) = sum_rows csvs.
Proof.
  unfold sum_rows. induction csvs as [|f l IH]; simpl; [reflexivity |].
  now rewrite load_frame_nrows, IH.
Qed.

Lemma load_data_nrows (U : unicode) (csvs : list csv_file) (df : table) :
  load_data U csvs = Ok df -> nrows df = sum_rows csvs.
Proof.
  unfold load_data. intros H. apply concat_nrows in H.
  now rewrite H, sum_rows_frames.
Qed.

(** The labels of the concatenation are labels of the frames. *)
Lemma union_labels_acc (frames : list table) (acc : list pystr) (c : pystr) :
  In c (fold_left (fun acc t => acc ++ filter (fun c => negb (mem c acc)) (columns t)) frames acc) ->
  In c acc \/ exists t, In t frames /\ In c (columns t).
Proof.
  revert acc. induction frames as [|f fs IH]; intros acc; simpl.
  - now left.
  - intros H. apply IH in H as [H | [t [Ht Hc]]].
    + apply in_app_or in H as [H | H]; [now left |].
      apply filter_In in H as [H _]. right. exists f. split; [now left | exact H].
    + right. exists t. split; [now right | exact Hc].
Qed.

Lemma concat_columns (frames : list table) (df : table) (c : pystr) :
  concat frames = Ok df -> In c (columns df) ->
  exists t, In t frames /\ In c (columns t).
Proof.
  unfold concat. destruct frames as [|f fs]; [discriminate |].
  destruct (forallb (same_labels f) fs).
  - intros E Hc. injection E as <-. exists f. split; [now left | exact Hc].
  - destruct (forallb (fun g => unique_labels (columns g)) (f :: fs)); [| discriminate].
    intros E Hc. injection E as <-. cbn [columns] in Hc.
    apply union_labels_acc in Hc as [[] | H]. exact H.
Qed.

(** Every label of the Unified Table is the normal form of a label that a
    frame had before line 57. *)
Lemma load_data_columns (U : unicode) (csvs : list csv_file) (df : table) (c : pystr) :
  load_data U csvs = Ok df -> In c (columns df) ->
  exists raw, c = normalize U raw.
Proof.
  unfold load_data. intros H Hc.
  destruct (@concat_columns _ _ _ H Hc) as [t [Ht Hct]].
  apply in_map_iff in Ht as [f [<- _]].
  unfold load_frame in Hct. cbn [columns] in Hct.
  apply in_map_iff in Hct as [raw [<- _]]. now exists raw.
Qed.

(** ** Filter Engine *)

Lemma subseq_refl {A : Type} (l : list A) : subseq l l.
Proof. induction l; constructor; assumption. Qed.

Lemma subseq_trans {A : Type} (l1 l2 l3 : list A) :
  subseq l1 l2 -> subseq l2 l3 -> subseq l1 l3.
Proof.
  intros H12 H23. revert l1 H12.
  induction H23 as [| x l2 l3 H IH | x l2 l3 H IH]; intros l1 H12.
  - exact H12.
  - inversion H12; subst; constructor; auto.
  - constructor. auto.
Qed.

Lemma subseq_filter {A : Type} (f : A -> bool) (l : list A) : subseq (filter f l) l.
Proof.
  induction l as [|x l IH]; simpl; [constructor |].
  destruct (f x); constructor; assumption.
Qed.

Lemma subseq_length {A : Type} (l1 l2 : list A) : subseq l1 l2 -> length l1 <= length l2.
Proof. induction 1; simpl; lia. Qed.

Lemma subseq_In {A : Type} (l1 l2 : list A) (x : A) : subseq l1 l2 -> In x l1 -> In x l2.
Proof.
  induction 1; simpl; intros Hin; [assumption | destruct Hin; auto | auto].
Qed.

Lemma filter_id {A : Type} (f : A -> bool) (l : list A) :
  (forall x, In x l -> f x = true) -> filter f l = l.
Proof.
  intros H. induction l as [|x l IH]; simpl; [reflexivity |].
  rewrite (H x (or_introl eq_refl)). f_equal. apply IH. intros y Hy. apply H. now right.
Qed.

Lemma filter_idem {A : Type} (f : A -> bool) (l : list A) :
  filter f (filter f l) = filter f l.
Proof.
  apply filter_id. intros x Hx. now apply filter_In in Hx.
Qed.

Lemma existsb_map {A B : Type} (f : B -> bool) (g : A -> B) (l : list A) :
  existsb f (map g l) = existsb (fun x => f (g x)) l.
Proof. induction l as [|x l IH]; simpl; [reflexivity | now rewrite IH]. Qed.

Lemma keep_rows_all (mask : list cell -> bool) (t : table) :
  (forall r, In r (rows t) -> mask r = true) -> keep_rows mask t = t.
Proof.
  intros H. unfold keep_rows. rewrite (@filter_id _ _ _ H). now destruct t.
Qed.

Lemma keep_rows_idem (mask : list cell -> bool) (t : table) :
  keep_rows mask (keep_rows mask t) = keep_rows mask t.
Proof. unfold keep_rows. simpl. now rewrite filter_idem. Qed.

Lemma view_of_refl (df : table) : view_of df df.
Proof. split; [reflexivity | apply subseq_refl]. Qed.

Lemma view_of_trans (a b c : table) : view_of a b -> view_of b c -> view_of a c.
Proof.
  intros [C1 S1] [C2 S2]. split; [congruence | eapply subseq_trans; eassumption].
Qed.

Lemma view_of_keep_rows (mask : list cell -> bool) (t : table) : view_of (keep_rows mask t) t.
Proof. split; [reflexivity | apply subseq_filter]. Qed.

Lemma view_of_nrows (df_view df : table) : view_of df_view df -> nrows df_view <= nrows df.
Proof. intros [_ S]. now apply subseq_length. Qed.

Lemma mem_index_of (c : pystr) (labels : list pystr) :
  mem c labels = true <-> exists i, index_of c labels = Some i.
Proof.
  induction labels as [|l ls IH]; simpl.
  - split; [discriminate | intros [i E]; discriminate].
  - destruct (pystr_eqb c l); simpl.
    + split; [intros _; now exists 0 | reflexivity].
    + rewrite IH. split; intros [i E].
      * exists (S i). now rewrite E.
      * destruct (index_of c ls) as [j|]; [now exists j | discriminate].
Qed.

Lemma source_filter_view (df : table) (source : pystr) (df_view : table) :
  source_filter df source = Ok df_view -> view_of df_view df.
Proof.
  unfold source_filter. destruct (negb (pystr_eqb source (py "All"))).
  - destruct (index_of (py "source_file") (columns df)); [| discriminate].
    intros E. injection E as <-. apply view_of_keep_rows.
  - intros E. injection E as <-. apply view_of_refl.
Qed.

Lemma source_filter_all (df : table) : source_filter df (py "All") = Ok df.
Proof. reflexivity. Qed.

Lemma year_filter_view (df_view : table) (yr_rng : Z * Z) (v : table) :
  year_filter df_view yr_rng = Ok v -> view_of v df_view.
Proof.
  unfold year_filter. destruct (index_of (py "year") (columns df_view)); [| discriminate].
  destruct (existsb _ _); [discriminate |].
  intros E. injection E as <-. apply view_of_keep_rows.
Qed.

Lemma slider_spec (span : Z * Z) (pick : option (Z * Z)) (yr_rng : Z * Z) :
  slider span pick = Ok yr_rng <->
  accepts span = true /\ yr_rng = match pick with Some handles => handles | None => span end.
Proof.
  unfold slider. destruct (accepts span); split.
  - intros E. injection E as <-. now split.
  - intros [_ ->]. reflexivity.
  - discriminate.
  - intros [E _]. discriminate.
Qed.

Lemma filter_section_view (U : unicode) (df : table) (source : pystr) (pick : option (Z * Z))
      (df_view : table) :
  filter_section U df source pick = Ok df_view -> view_of df_view df.
Proof.
  unfold filter_section. destruct (source_filter df source) as [v|] eqn:S; [| discriminate].
  simpl. apply source_filter_view in S. destruct (has_year v).
  - destruct (year_bounds U v) as [span|]; [| discriminate]. simpl.
    destruct (slider span pick) as [rng|]; [| discriminate]. simpl.
    intros Y. apply year_filter_view in Y. eapply view_of_trans; eassumption.
  - intros E. injection E as <-. exact S.
Qed.

Lemma filter_engine_view (U : unicode) (df : table) (source : pystr) (yr_rng : Z * Z)
      (df_view : table) :
  filter_engine U df source yr_rng = Ok df_view -> view_of df_view df.
Proof. apply filter_section_view. Qed.

(** What the script computes is the Filter Engine run on the range that
    the slider returned. *)
Lemma filter_section_engine (U : unicode) (df : table) (source : pystr) (pick : option (Z * Z))
      (df_view : table) :
  filter_section U df source pick = Ok df_view ->
  exists yr_rng, filter_engine U df source yr_rng = Ok df_view.
Proof.
  unfold filter_engine. destruct pick as [handles|]; [intros H; now exists handles |].
  unfold filter_section.
  destruct (source_filter df source) as [v|]; [| discriminate]. simpl.
  destruct (has_year v).
  - destruct (year_bounds U v) as [span|]; [| discriminate]. simpl.
    unfold slider. destruct (accepts span); [| discriminate]. simpl.
    intros H. now exists span.
  - intros H. now exists (0, 0)%Z.
Qed.

(** The filter leaves the types of the columns alone. *)
Lemma source_filter_dtypes (df : table) (source : pystr) (df_view : table) :
  source_filter df source = Ok df_view -> dtypes df_view = dtypes df.
Proof.
  unfold source_filter. destruct (negb (pystr_eqb source (py "All"))).
  - destruct (index_of (py "source_file") (columns df)); [| discriminate].
    intros E. now injection E as <-.
  - intros E. now injection E as <-.
Qed.

Lemma year_filter_dtypes (df_view : table) (yr_rng : Z * Z) (v : table) :
  year_filter df_view yr_rng = Ok v -> dtypes v = dtypes df_view.
Proof.
  unfold year_filter. destruct (index_of (py "year") (columns df_view)); [| discriminate].
  destruct (existsb _ _); [discriminate |].
  intros E. now injection E as <-.
Qed.

Lemma filter_section_dtypes (U : unicode) (df : table) (source : pystr) (pick : option (Z * Z))
      (df_view : table) :
  filter_section U df source pick = Ok df_view -> dtypes df_view = dtypes df.
Proof.
  unfold filter_section. destruct (source_filter df source) as [v|] eqn:S; [| discriminate].
  simpl. apply source_filter_dtypes in S. destruct (has_year v).
  - destruct (year_bounds U v) as [span|]; [| discriminate]. simpl.
    destruct (slider span pick) as [rng|]; [| discriminate]. simpl.
    intros Y. apply year_filter_dtypes in Y. congruence.
  - intros E. injection E as <-. exact S.
Qed.

(** *** Years *)

Lemma Qcleb_le (x y : Qc) : Qcleb x y = true <-> (x <= y)%Qc.
Proof. unfold Qcleb, Qcle. apply Qle_bool_iff. Qed.

Lemma Qcleb_total (x y : Qc) : Qcleb x y = false -> Qcleb y x = true.
Proof.
  intros H. apply Qcleb_le. destruct (Qclt_le_dec y x) as [L | L].
  - now apply Qclt_le_weak.
  - apply Qcleb_le in L. congruence.
Qed.

Lemma Qcleb_refl (x : Qc) : Qcleb x x = true.
Proof. apply Qcleb_le, Qcle_refl. Qed.

Lemma Qcleb_trans (x y z : Qc) : Qcleb x y = true -> Qcleb y z = true -> Qcleb x z = true.
Proof. rewrite !Qcleb_le. apply Qcle_trans. Qed.

Lemma fold_Qcmin (l : list Qc) (a : Qc) :
  In (fold_left Qcmin l a) (a :: l)
  /\ forall x, In x (a :: l) -> (fold_left Qcmin l a <= x)%Qc.
Proof.
  revert a. induction l as [|b l IH]; intros a; simpl.
  - split; [now left | intros x [<- | []]; apply Qcle_refl].
  - destruct (IH (Qcmin a b)) as [I L]. split.
    + destruct I as [E | I]; [| now right; right].
      rewrite <- E. unfold Qcmin. destruct (Qcleb a b); [now left | right; now left].
    + assert (La : (Qcmin a b <= a)%Qc).
      { unfold Qcmin. destruct (Qcleb a b) eqn:E; [apply Qcle_refl |].
        now apply Qcleb_le, Qcleb_total. }
      assert (Lb : (Qcmin a b <= b)%Qc).
      { unfold Qcmin. destruct (Qcleb a b) eqn:E; [now apply Qcleb_le | apply Qcle_refl]. }
      pose proof (L _ (or_introl eq_refl)) as L0.
      intros x [<- | [<- | Hx]].
      * eapply Qcle_trans; eassumption.
      * eapply Qcle_trans; eassumption.
      * apply L. now right.
Qed.

Lemma fold_Qcmax (l : list Qc) (a : Qc) :
  In (fold_left Qcmax l a) (a :: l)
  /\ forall x, In x (a :: l) -> (x <= fold_left Qcmax l a)%Qc.
Proof.
  revert a. induction l as [|b l IH]; intros a; simpl.
  - split; [now left | intros x [<- | []]; apply Qcle_refl].
  - destruct (IH (Qcmax a b)) as [I L]. split.
    + destruct I as [E | I]; [| now right; right].
      rewrite <- E. unfold Qcmax. destruct (Qcleb a b); [right; now left | now left].
    + assert (La : (a <= Qcmax a b)%Qc).
      { unfold Qcmax. destruct (Qcleb a b) eqn:E; [now apply Qcleb_le | apply Qcle_refl]. }
      assert (Lb : (b <= Qcmax a b)%Qc).
      { unfold Qcmax. destruct (Qcleb a b) eqn:E; [apply Qcle_refl |].
        now apply Qcleb_le, Qcleb_total. }
      pose proof (L _ (or_introl eq_refl)) as L0.
      intros x [<- | [<- | Hx]].
      * eapply Qcle_trans; eassumption.
      * eapply Qcle_trans; eassumption.
      * apply L. now right.
Qed.

Lemma series_min_spec (qs : list Qc) (m : Qc) :
  series_min qs = Some m -> In m qs /\ forall q, In q qs -> (m <= q)%Qc.
Proof.
  destruct qs as [|a l]; [discriminate |]. simpl. intros E. injection E as <-.
  apply fold_Qcmin.
Qed.

Lemma series_max_spec (qs : list Qc) (m : Qc) :
  series_max qs = Some m -> In m qs /\ forall q, In q qs -> (q <= m)%Qc.
Proof.
  destruct qs as [|a l]; [discriminate |]. simpl. intros E. injection E as <-.
  apply fold_Qcmax.
Qed.

Lemma numbers_In (cells : list cell) (q : Qc) : In q (numbers cells) <-> In (Num q) cells.
Proof.
  unfold numbers. rewrite in_flat_map. split.
  - intros [c [Hc Hq]]. destruct c; simpl in Hq; try contradiction.
    destruct Hq as [<- | []]. exact Hc.
  - intros H. exists (Num q). split; [exact H | now left].
Qed.

(** [int()] is exact on a whole number ... *)
Lemma py_int_whole (q : Qc) : is_whole q -> inject_Z (py_int q) = this q.
Proof.
  unfold is_whole, py_int, inject_Z. destruct q as [[n d] c]. simpl.
  intros ->. now rewrite Z.quot_1_r.
Qed.

(** ... and cuts the fraction off otherwise, toward zero. *)
Lemma py_int_truncates (q : Qc) :
  ((0 <= Qnum q)%Z -> (inject_Z (py_int q) <= q)%Q /\ (q < inject_Z (py_int q + 1))%Q)
  /\ ((Qnum q <= 0)%Z -> (inject_Z (py_int q - 1) < q)%Q /\ (q <= inject_Z (py_int q))%Q).
Proof.
  unfold py_int, inject_Z, Qle, Qlt. destruct q as [[n d] c]. simpl.
  pose proof (Z.quot_rem' n (Z.pos d)) as E.
  split; intros Hn.
  - pose proof (Z.rem_bound_pos n (Z.pos d) Hn (Pos2Z.is_pos d)) as B. nia.
  - pose proof (Z.rem_bound_pos_neg n (Z.pos d) (Pos2Z.is_pos d) Hn) as B. nia.
Qed.

Lemma in_range_spec (yr_rng : Z * Z) (c : cell) :
  in_range yr_rng c = true <->
  exists q, c = Num q /\ (inject_Z (fst yr_rng) <= q)%Q /\ (q <= inject_Z (snd yr_rng))%Q.
Proof.
  unfold in_range. destruct c as [| q | s].
  - split; [discriminate | intros [q [E _]]; discriminate].
  - rewrite andb_true_iff, !Qle_bool_iff. split.
    + intros H. now exists q.
    + intros [q' [E H]]. now injection E as ->.
  - split; [discriminate | intros [q [E _]]; discriminate].
Qed.

Lemma cells_of_index (t : table) (c : pystr) (i : nat) :
  index_of c (columns t) = Some i -> cells_of t c = map (at_col i) (rows t).
Proof. unfold cells_of, column_values. now intros ->. Qed.

Lemma not_text_whole (cells : list cell) :
  Forall (fun c => exists q, c = Num q /\ is_whole q) cells -> existsb is_text cells = false.
Proof.
  intros H. apply not_true_is_false. intros T. apply existsb_exists in T as [c [Hc Tc]].
  rewrite Forall_forall in H. destruct (H c Hc) as [q [-> _]]. discriminate.
Qed.

Lemma no_text_texts (cells : list cell) : existsb is_text cells = false -> texts cells = [].
Proof.
  induction cells as [|c l IH]; simpl; [reflexivity |].
  destruct c; simpl; try discriminate; exact IH.
Qed.

(** The bounds of the slider on a column that holds a number and no text. *)
Lemma year_bounds_spec (U : unicode) (df_view : table) :
  has_year df_view = true ->
  existsb is_text (cells_of df_view (py "year")) = false ->
  (exists q, In (Num q) (cells_of df_view (py "year"))) ->
  exists lo hi,
    year_bounds U df_view = Ok (py_int lo, py_int hi)
    /\ In (Num lo) (cells_of df_view (py "year"))
    /\ In (Num hi) (cells_of df_view (py "year"))
    /\ forall q, In (Num q) (cells_of df_view (py "year")) -> (lo <= q)%Qc /\ (q <= hi)%Qc.
Proof.
  intros HY NT [q0 H0]. apply mem_index_of in HY as [i Hi].
  unfold year_bounds, column_values. rewrite (cells_of_index _ _ _ Hi) in *. rewrite Hi. simpl.
  rewrite (no_text_texts _ NT). apply numbers_In in H0.
  destruct (series_min (numbers (map (at_col i) (rows df_view)))) as [lo|] eqn:Emin.
  2:{ destruct (numbers (map (at_col i) (rows df_view))); [contradiction | discriminate]. }
  destruct (series_max (numbers (map (at_col i) (rows df_view)))) as [hi|] eqn:Emax.
  2:{ destruct (numbers (map (at_col i) (rows df_view))); [contradiction | discriminate]. }
  apply series_min_spec in Emin as [Imin Lmin]. apply series_max_spec in Emax as [Imax Lmax].
  exists lo, hi. repeat split.
  - now apply numbers_In.
  - now apply numbers_In.
  - apply Lmin. now apply numbers_In.
  - apply Lmax. now apply numbers_In.
Qed.

(** With no year at all, [int(nan)] stops the script. *)
Lemma year_bounds_no_year (U : unicode) (df_view : table) :
  existsb is_text (cells_of df_view (py "year")) = false ->
  (forall q, ~ In (Num q) (cells_of df_view (py "year"))) ->
  year_bounds U df_view = Raised.
Proof.
  intros NT H. unfold year_bounds, cells_of in *.
  destruct (column_values df_view (py "year")) as [years|]; [| reflexivity]. simpl.
  rewrite (no_text_texts _ NT).
  destruct (numbers years) as [|q l] eqn:E; [reflexivity |].
  exfalso. apply (H q). apply numbers_In. rewrite E. now left.
Qed.

(** *** The sample tables are what the loader builds *)

Example load_ab : load_data plain [a_csv; b_csv] = Ok df_ab.
Proof. reflexivity. Qed.

Example load_ac : load_data plain [a_csv; c_csv] = Ok df_ac.
Proof. reflexivity. Qed.

Example load_d : load_data plain [d_csv] = Ok df_d.
Proof. reflexivity. Qed.

Example load_one : load_data plain [one_csv] = Ok df_one.
Proof. reflexivity. Qed.

(** The bounds follow the selector: all files, then [a.csv], then [b.csv]. *)
Example bounds_follow_selector :
  (v <- source_filter df_ab (py "All") ;; year_bounds plain v) = Ok (1990, 2010)%Z
  /\ (v <- source_filter df_ab (py "a.csv") ;; year_bounds plain v) = Ok (2000, 2010)%Z
  /\ (v <- source_filter df_ab (py "b.csv") ;; year_bounds plain v) = Ok (1990, 1995)%Z.
Proof. repeat split; reflexivity. Qed.

Lemma whole_years_in_range (df : table) (i : nat) (lo hi : Qc) (r : list cell) :
  index_of (py "year") (columns df) = Some i ->
  whole_years df ->
  In (Num lo) (cells_of df (py "year")) ->
  In (Num hi) (cells_of df (py "year")) ->
  (forall q, In (Num q) (cells_of df (py "year")) -> (lo <= q)%Qc /\ (q <= hi)%Qc) ->
  In r (rows df) ->
  in_range (py_int lo, py_int hi) (at_col i r) = true.
Proof.
  intros Hi W Ilo Ihi B Hr. unfold whole_years in W. rewrite Forall_forall in W.
  destruct (W _ Ilo) as [lo' [El Wl]]. injection El as <-.
  destruct (W _ Ihi) as [hi' [Eh Wh]]. injection Eh as <-.
  assert (Hc : In (at_col i r) (cells_of df (py "year"))).
  { rewrite (cells_of_index _ _ _ Hi). now apply in_map. }
  destruct (W _ Hc) as [q [Eq _]]. rewrite Eq in *.
  apply in_range_spec. exists q. split; [reflexivity |]. cbn [fst snd].
  rewrite (py_int_whole _ Wl), (py_int_whole _ Wh). apply (B q Hc).
Qed.

(** Whole years that are not all the same, and small enough, give the
    slider a span it accepts. *)
Lemma whole_lt (lo hi : Qc) :
  is_whole lo -> is_whole hi -> (lo <= hi)%Qc -> lo <> hi -> (py_int lo < py_int hi)%Z.
Proof.
  intros Wl Wh L N. apply Z.nle_gt. intros C. apply N. apply Qcle_antisym; [exact L |].
  unfold Qcle. rewrite <- (py_int_whole _ Wl), <- (py_int_whole _ Wh).
  now rewrite <- Zle_Qle.
Qed.

Lemma span_accepted (df : table) (lo hi : Qc) :
  whole_years df -> years_apart df -> years_safe df ->
  In (Num lo) (cells_of df (py "year")) ->
  In (Num hi) (cells_of df (py "year")) ->
  (forall q, In (Num q) (cells_of df (py "year")) -> (lo <= q)%Qc /\ (q <= hi)%Qc) ->
  accepts (py_int lo, py_int hi) = true.
Proof.
  intros W [q1 [q2 [I1 [I2 N]]]] Safe Ilo Ihi B.
  unfold whole_years in W. rewrite Forall_forall in W.
  destruct (W _ Ilo) as [lo' [El Wl]]. injection El as <-.
  destruct (W _ Ihi) as [hi' [Eh Wh]]. injection Eh as <-.
  unfold accepts. cbn [fst snd]. rewrite (Safe _ Ilo), (Safe _ Ihi), !andb_true_r.
  apply Z.ltb_lt. apply whole_lt; [exact Wl | exact Wh | apply (B hi Ihi) |].
  intros E. subst hi. apply N.
  destruct (B _ I1) as [A1 A2]. destruct (B _ I2) as [B1 B2].
  rewrite (Qcle_antisym _ _ A2 A1). now apply Qcle_antisym.
Qed.

(** Years that are all the same leave the slider no span. *)
Lemma span_refused (df : table) (lo hi : Qc) :
  ~ years_apart df ->
  In (Num lo) (cells_of df (py "year")) ->
  In (Num hi) (cells_of df (py "year")) ->
  accepts (py_int lo, py_int hi) = false.
Proof.
  intros NA Ilo Ihi. destruct (Qc_eq_dec lo hi) as [-> | N].
  - unfold accepts. cbn [fst snd]. now rewrite Z.ltb_irrefl.
  - exfalso. apply NA. now exists lo, hi.
Qed.

Lemma full_span_keeps_all (U : unicode) (df : table) :
  has_year df = true -> whole_years df -> years_apart df -> years_safe df ->
  filter_section U df (py "All") None = Ok df.
Proof.
  intros HY W NA Safe. unfold filter_section. rewrite source_filter_all. simpl. rewrite HY.
  pose proof HY as HY'. apply mem_index_of in HY' as [i Hi].
  assert (NT : existsb is_text (cells_of df (py "year")) = false) by now apply not_text_whole.
  assert (EX : exists q, In (Num q) (cells_of df (py "year"))).
  { destruct NA as [q [_ [I _]]]. now exists q. }
  destruct (year_bounds_spec U df HY NT EX) as [lo [hi [E [Ilo [Ihi B]]]]].
  rewrite E. simpl. unfold slider.
  rewrite (span_accepted df lo hi W NA Safe Ilo Ihi B). simpl.
  unfold year_filter. rewrite Hi.
  rewrite (cells_of_index _ _ _ Hi), existsb_map in NT. rewrite NT.
  f_equal. apply keep_rows_all. intros r Hr.
  eapply whole_years_in_range; eassumption.
Qed.

Lemma same_year_stops (U : unicode) (df : table) (pick : option (Z * Z)) :
  has_year df = true -> whole_years df -> ~ years_apart df ->
  filter_section U df (py "All") pick = Raised.
Proof.
  intros HY W NA. unfold filter_section. rewrite source_filter_all. simpl. rewrite HY.
  assert (NT : existsb is_text (cells_of df (py "year")) = false) by now apply not_text_whole.
  destruct (year_bounds U df) as [span|] eqn:E; [| reflexivity]. simpl.
  destruct (numbers (cells_of df (py "year"))) as [|q0 l0] eqn:EN.
  { rewrite year_bounds_no_year in E; [discriminate | exact NT |].
    intros q Hq. apply numbers_In in Hq. rewrite EN in Hq. contradiction. }
  assert (EX : exists q, In (Num q) (cells_of df (py "year"))).
  { exists q0. apply numbers_In. rewrite EN. now left. }
  destruct (year_bounds_spec U df HY NT EX) as [lo [hi [E' [Ilo [Ihi B]]]]].
  rewrite E' in E. injection E as <-.
  unfold slider. now rewrite (span_refused df lo hi NA Ilo Ihi).
Qed.

Lemma no_year_keeps_all (U : unicode) (df : table) (pick : option (Z * Z)) :
  has_year df = false -> filter_section U df (py "All") pick = Ok df.
Proof.
  intros HY. unfold filter_section. rewrite source_filter_all. simpl. now rewrite HY.
Qed.

(** C1, as stated, fails: the selector is "All", the slider is on its full
    span, and the row that has no year is dropped all the same. *)
Lemma full_span_drops_rows_without_year :
  exists df_view,
    load_data plain [a_csv; c_csv] = Ok df_ac
    /\ filter_section plain df_ac (py "All") None = Ok df_view
    /\ nrows df_view = 3 /\ nrows df_ac = 4.
Proof.
  eexists. split; [reflexivity | split; [reflexivity | split; reflexivity]].
Qed.

(** C1 (amended).  Whatever the selector and the year range, the Filtered
    View has the labels of the Unified Table and a sub-sequence of its
    rows, hence at most as many rows.  With the selector on "All" it is
    the whole table when there is no year column, and, on the full span
    of the slider, when every row has a year that is a whole number, two
    rows differ in their year and no year is beyond what the slider
    accepts.  When every row has the same whole year the slider has no
    span and the script stops there. *)
Theorem filtered_view_is_subset (U : unicode) (df : table) (source : pystr) :
  (forall yr_rng df_view, filter_engine U df source yr_rng = Ok df_view ->
     view_of df_view df /\ nrows df_view <= nrows df)
  /\ (forall pick df_view, filter_section U df source pick = Ok df_view ->
     view_of df_view df /\ nrows df_view <= nrows df)
  /\ (has_year df = false -> forall pick, filter_section U df (py "All") pick = Ok df)
  /\ (has_year df = true -> whole_years df -> years_apart df -> years_safe df ->
      filter_section U df (py "All") None = Ok df)
  /\ (has_year df = true -> whole_years df -> ~ years_apart df ->
      forall pick, filter_section U df (py "All") pick = Raised).
Proof.
  split; [| split; [| split; [| split]]].
  - intros rng v H. apply filter_engine_view in H. split; [exact H | now apply view_of_nrows].
  - intros pick v H. apply filter_section_view in H. split; [exact H | now apply view_of_nrows].
  - intros HY pick. now apply no_year_keeps_all.
  - apply full_span_keeps_all.
  - intros HY W NA pick. now apply same_year_stops.
Qed.

Lemma filtered_view_is_subset_witness :
  filter_section plain df_ab (py "All") None = Ok df_ab
  /\ filter_section plain df_one (py "All") None = Raised
  /\ (forall pick df_view, filter_section plain df_ab (py "a.csv") pick = Ok df_view ->
        view_of df_view df_ab /\ nrows df_view <= nrows df_ab).
Proof.
  split; [| split].
  - apply (filtered_view_is_subset plain df_ab (py "All")).
    + reflexivity.
    + repeat constructor; eexists; split; reflexivity.
    + exists (Q2Qc (inject_Z 2000)), (Q2Qc (inject_Z 2005)).
      split; [now left | split; [right; now left | discriminate]].
    + intros q H. cbn in H.
      repeat (destruct H as [H | H]; [injection H as <-; reflexivity |]). contradiction.
  - apply (filtered_view_is_subset plain df_one (py "All")).
    + reflexivity.
    + repeat constructor; eexists; split; reflexivity.
    + intros [q1 [q2 [I1 [I2 N]]]]. cbn in I1, I2. apply N.
      destruct I1 as [I1 | [I1 | []]]; destruct I2 as [I2 | [I2 | []]]; congruence.
  - apply (filtered_view_is_subset plain df_ab (py "a.csv")).
Defined.

(** *** The year slider and the year filter *)

Lemma year_filter_spec (df_view : table) (yr_rng : Z * Z) :
  has_year df_view = true ->
  existsb is_text (cells_of df_view (py "year")) = false ->
  year_filter df_view yr_rng
  = Ok (keep_rows (fun r => in_range yr_rng (cell_at df_view (py "year") r)) df_view).
Proof.
  intros HY NT. apply mem_index_of in HY as [i Hi].
  unfold year_filter, cell_at. rewrite Hi.
  rewrite (cells_of_index _ _ _ Hi), existsb_map in NT. now rewrite NT.
Qed.

(** C8, as stated, fails.  In [d.csv] the first year is 2000.5: the slider
    starts at [int(2000.5) = 2000], which is no year of the file.  And with
    [a.csv] and [c.csv] loaded, [c.csv] selected, no row has a year and
    line 89 raises. *)
Lemma slider_bounds_are_truncated :
  year_bounds plain df_d = Ok (2000, 2001)%Z
  /\ ~ bounds_are_extremes plain df_d
  /\ (v <- source_filter df_ac (py "c.csv") ;; year_bounds plain v) = Raised.
Proof.
  split; [reflexivity | split; [| reflexivity]].
  intros [lo [hi [E [[I _] _]]]].
  change (year_bounds plain df_d) with (Ok (A := Z * Z) (2000, 2001)%Z) in E.
  injection E as <- <-.
  cbn in I. destruct I as [I | [I | []]]; injection I as I; discriminate I.
Qed.

(** C8 (amended).  When the rows matching the selector have a year column
    with no text and at least one year in it, the bounds of the slider
    are [int()] of the least and of the greatest year of these rows, that
    is these years themselves when they are whole numbers.  The slider
    takes these bounds when the first is below the second and both are
    numbers it accepts, and the script then filters on the range the
    slider returns; otherwise the script stops at the slider.  The year
    filter keeps, in order, exactly the rows whose year is present and
    within the range, both ends included. *)
Theorem year_slider_and_filter (U : unicode) (df : table) (source : pystr) (df_view : table) :
  source_filter df source = Ok df_view ->
  has_year df_view = true ->
  existsb is_text (cells_of df_view (py "year")) = false ->
  (exists q, In (Num q) (cells_of df_view (py "year"))) ->
  exists lo hi : Qc,
    is_min_year df_view lo /\ is_max_year df_view hi
    /\ year_bounds U df_view = Ok (py_int lo, py_int hi)
    /\ (is_whole lo -> inject_Z (py_int lo) = this lo)
    /\ (is_whole hi -> inject_Z (py_int hi) = this hi)
    /\ ((py_int lo < py_int hi)%Z ->
        is_safe (py_int lo) = true -> is_safe (py_int hi) = true ->
        forall pick,
          filter_section U df source pick
          = year_filter df_view (match pick with
                                 | Some handles => handles
                                 | None => (py_int lo, py_int hi)
                                 end))
    /\ ((py_int hi <= py_int lo)%Z \/ is_safe (py_int lo) = false
                                   \/ is_safe (py_int hi) = false ->
        forall pick, filter_section U df source pick = Raised)
    /\ (forall yr_rng,
          exists v,
            year_filter df_view yr_rng = Ok v
            /\ columns v = columns df_view
            /\ rows v = filter (fun r => in_range yr_rng (cell_at df_view (py "year") r))
                               (rows df_view)
            /\ forall r,
                 In r (rows v) <->
                 In r (rows df_view)
                 /\ exists q, cell_at df_view (py "year") r = Num q
                              /\ (inject_Z (fst yr_rng) <= q)%Q
                              /\ (q <= inject_Z (snd yr_rng))%Q).
Proof.
  intros S HY NT EX.
  destruct (year_bounds_spec U df_view HY NT EX) as [lo [hi [E [Ilo [Ihi B]]]]].
  exists lo, hi.
  split; [split; [exact Ilo | intros q Hq; apply B, Hq] |].
  split; [split; [exact Ihi | intros q Hq; apply B, Hq] |].
  split; [exact E |].
  split; [apply py_int_whole |].
  split; [apply py_int_whole |].
  split; [| split].
  - intros L Sl Sh pick. unfold filter_section. rewrite S. simpl. rewrite HY, E. simpl.
    unfold slider, accepts. cbn [fst snd]. apply Z.ltb_lt in L. now rewrite L, Sl, Sh.
  - intros C pick. unfold filter_section. rewrite S. simpl. rewrite HY, E. simpl.
    unfold slider, accepts. cbn [fst snd].
    destruct C as [C | [C | C]].
    + apply Z.ltb_ge in C. now rewrite C.
    + rewrite C. now rewrite andb_false_r.
    + rewrite C. now rewrite andb_false_r.
  - intros rng. eexists. split; [apply (year_filter_spec _ _ HY NT) |].
    split; [reflexivity | split; [reflexivity |]].
    intros r. cbn [rows keep_rows]. rewrite filter_In, in_range_spec. reflexivity.
Qed.

Lemma year_slider_and_filter_witness :
  exists lo hi : Qc,
    is_min_year df_ab lo /\ is_max_year df_ab hi
    /\ year_bounds plain df_ab = Ok (py_int lo, py_int hi)
    /\ year_bounds plain df_ab = Ok (1990, 2010)%Z.
Proof.
  destruct (@year_slider_and_filter plain df_ab (py "All") df_ab)
    as [lo [hi [Hmin [Hmax [E _]]]]].
  - reflexivity.
  - reflexivity.
  - reflexivity.
  - exists (Q2Qc (inject_Z 2000)). now left.
  - exists lo, hi. split; [exact Hmin | split; [exact Hmax | split; [exact E | reflexivity]]].
Defined.

(** *** Idempotence *)

Lemma view_rows_In (v t : table) (r : list cell) : view_of v t -> In r (rows v) -> In r (rows t).
Proof. intros [_ S]. now apply subseq_In. Qed.

Lemma source_filter_twice (df : table) (source : pystr) (v w : table) :
  source_filter df source = Ok v -> view_of w v -> source_filter w source = Ok w.
Proof.
  unfold source_filter. intros H [C S].
  destruct (negb (pystr_eqb source (py "All"))); [| reflexivity].
  destruct (index_of (py "source_file") (columns df)) as [i|] eqn:Hi; [| discriminate].
  injection H as <-. cbn [columns keep_rows] in C. rewrite C, Hi.
  f_equal. apply keep_rows_all. intros r Hr.
  pose proof (subseq_In _ _ _ S Hr) as Hr'. cbn [rows keep_rows] in Hr'.
  now apply filter_In in Hr'.
Qed.

Lemma has_year_view (v t : table) : view_of v t -> has_year v = has_year t.
Proof. intros [C _]. unfold has_year. now rewrite C. Qed.

Lemma year_filter_twice (t : table) (yr_rng : Z * Z) (v : table) :
  year_filter t yr_rng = Ok v -> year_filter v yr_rng = Ok v.
Proof.
  unfold year_filter. destruct (index_of (py "year") (columns t)) as [i|] eqn:Hi; [| discriminate].
  destruct (existsb (fun r => is_text (at_col i r)) (rows t)) eqn:T; [discriminate |].
  intros E. injection E as <-. cbn [columns keep_rows]. rewrite Hi.
  assert (T' : existsb (fun r => is_text (at_col i r))
                 (rows (keep_rows (fun r => in_range yr_rng (at_col i r)) t)) = false).
  { apply not_true_is_false. intros X. apply existsb_exists in X as [r [Hr Tr]].
    cbn [rows keep_rows] in Hr. apply filter_In in Hr as [Hr _].
    assert (Y : existsb (fun r => is_text (at_col i r)) (rows t) = true); [| congruence].
    apply existsb_exists. now exists r. }
  rewrite T'. now rewrite keep_rows_idem.
Qed.

(** Lines 84-91 run on their own result: the masks keep every row, and
    what is left to go wrong is the slider, whose span is computed anew
    from the rows that are left. *)
Lemma filter_engine_again (U : unicode) (df : table) (source : pystr) (yr_rng : Z * Z)
      (df_view : table) :
  filter_engine U df source yr_rng = Ok df_view ->
  filter_engine U df_view source yr_rng
  = if has_year df_view
    then span <- year_bounds U df_view ;; if accepts span then Ok df_view else Raised
    else Ok df_view.
Proof.
  unfold filter_engine, filter_section.
  destruct (source_filter df source) as [v|] eqn:S; [| discriminate]. simpl.
  destruct (has_year v) eqn:HY.
  - destruct (year_bounds U v) as [span|]; [| discriminate]. simpl.
    unfold slider at 1. destruct (accepts span); [| discriminate]. simpl.
    intros Y. pose proof (year_filter_view _ _ _ Y) as V.
    rewrite (source_filter_twice _ _ _ _ S V). simpl.
    rewrite (has_year_view _ _ V), HY.
    destruct (year_bounds U df_view) as [span'|]; [| reflexivity]. simpl.
    unfold slider. destruct (accepts span'); [| reflexivity]. simpl.
    eapply year_filter_twice. exact Y.
  - intros E. injection E as <-.
    rewrite (source_filter_twice _ _ _ _ S (view_of_refl v)). simpl. now rewrite HY.
Qed.

(** C9, as stated, fails.  On the range (2001, 2002) no row of [a.csv] and
    [b.csv] is left, and the second run finds no year to start the slider
    from; on the range (2005, 2005) one row is left, and the second run
    finds a slider without span. *)
Lemma filtering_twice_raises :
  load_data plain [a_csv; b_csv] = Ok df_ab
  /\ (exists df_view,
        filter_engine plain df_ab (py "All") (2001, 2002)%Z = Ok df_view
        /\ nrows df_view = 0
        /\ filter_engine plain df_view (py "All") (2001, 2002)%Z = Raised)
  /\ (exists df_view,
        filter_engine plain df_ab (py "All") (2005, 2005)%Z = Ok df_view
        /\ nrows df_view = 1
        /\ filter_engine plain df_view (py "All") (2005, 2005)%Z = Raised).
Proof.
  split; [reflexivity |].
  split.
  - exists (keep_rows (fun r => in_range (2001, 2002)%Z (at_col 1 r)) df_ab).
    split; [vm_compute; reflexivity | split; vm_compute; reflexivity].
  - exists (keep_rows (fun r => in_range (2005, 2005)%Z (at_col 1 r)) df_ab).
    split; [vm_compute; reflexivity | split; vm_compute; reflexivity].
Qed.

(** C9 (amended).  When the Filter Engine returns a view, a second run on
    that view with the same selector and the same year range either
    raises or returns the view unchanged.  It returns exactly when the
    view has no year column or its years give the slider a span it
    accepts; this is the case when the years of the view are whole
    numbers, not all the same and not beyond what the slider accepts. *)
Theorem filter_engine_idempotent (U : unicode) (df : table) (source : pystr) (yr_rng : Z * Z)
        (df_view : table) :
  filter_engine U df source yr_rng = Ok df_view ->
  (filter_engine U df_view source yr_rng = Ok df_view
   \/ filter_engine U df_view source yr_rng = Raised)
  /\ (filter_engine U df_view source yr_rng = Ok df_view <->
      has_year df_view = false
      \/ exists span, year_bounds U df_view = Ok span /\ accepts span = true)
  /\ (whole_years df_view -> years_apart df_view -> years_safe df_view ->
      filter_engine U df_view source yr_rng = Ok df_view).
Proof.
  intros H. rewrite (filter_engine_again _ _ _ _ _ H).
  destruct (has_year df_view) eqn:HY.
  - split; [| split].
    + destruct (year_bounds U df_view) as [span|]; [| now right]. simpl.
      destruct (accepts span); [now left | now right].
    + split.
      * destruct (year_bounds U df_view) as [span|]; [| discriminate]. simpl.
        destruct (accepts span) eqn:A; [| discriminate].
        intros _. right. now exists span.
      * intros [C | [span [E A]]]; [discriminate |]. rewrite E. simpl. now rewrite A.
    + intros W NA Safe.
      assert (NT : existsb is_text (cells_of df_view (py "year")) = false)
        by now apply not_text_whole.
      assert (EX : exists q, In (Num q) (cells_of df_view (py "year"))).
      { destruct NA as [q [_ [I _]]]. now exists q. }
      destruct (year_bounds_spec U df_view HY NT EX) as [lo [hi [E [Ilo [Ihi B]]]]].
      rewrite E. simpl. now rewrite (span_accepted df_view lo hi W NA Safe Ilo Ihi B).
  - split; [now left | split; [| reflexivity]].
    split; [intros _; now left | reflexivity].
Qed.

Lemma filter_engine_idempotent_witness :
  exists df_view,
    filter_engine plain df_ab (py "All") (2000, 2010)%Z = Ok df_view
    /\ nrows df_view = 3
    /\ filter_engine plain df_view (py "All") (2000, 2010)%Z = Ok df_view.
Proof.
  exists (keep_rows (fun r => in_range (2000, 2010)%Z (at_col 1 r)) df_ab).
  assert (E : filter_engine plain df_ab (py "All") (2000, 2010)%Z
              = Ok (keep_rows (fun r => in_range (2000, 2010)%Z (at_col 1 r)) df_ab))
    by (vm_compute; reflexivity).
  split; [exact E | split; [vm_compute; reflexivity |]].
  apply (filter_engine_idempotent plain df_ab (py "All") (2000, 2010)%Z _ E).
  - vm_compute. repeat constructor; eexists; split; reflexivity.
  - exists (Q2Qc (inject_Z 2000)), (Q2Qc (inject_Z 2005)).
    split; [vm_compute; now left | split; [vm_compute; right; now left | discriminate]].
  - intros q I. vm_compute in I.
    repeat (destruct I as [I | I]; [injection I as <-; reflexivity |]). contradiction.
Defined.

(** ** Sorting *)

Section SortFacts.
Variable A : Type.
Variable leb : A -> A -> bool.

Lemma insert_by_perm (x : A) (l : list A) : Permutation (insert_by leb x l) (x :: l).
Proof.
  induction l as [|y l IH]; simpl; [reflexivity |].
  destruct (leb x y); [reflexivity |].
  rewrite IH. apply perm_swap.
Qed.

Lemma sort_by_perm (l : list A) : Permutation (sort_by leb l) l.
Proof.
  induction l as [|x l IH]; simpl; [reflexivity |].
  rewrite insert_by_perm. now constructor.
Qed.

Lemma sort_by_length (l : list A) : length (sort_by leb l) = length l.
Proof. apply Permutation_length, sort_by_perm. Qed.

Lemma sort_by_In (l : list A) (x : A) : In x (sort_by leb l) <-> In x l.
Proof.
  split; apply Permutation_in; [apply sort_by_perm | symmetry; apply sort_by_perm].
Qed.

(** Sorting with a comparison that decides a transitive relation [R]:
    the result is sorted for [R], whatever the comparison does between
    entries that [R] holds equal. *)
Lemma insert_by_sorted_for (R : A -> A -> Prop) (x : A) (l : list A) :
  (forall a b, leb a b = true -> R a b) ->
  (forall a b, leb a b = false -> R b a) ->
  (forall a b c, R a b -> R b c -> R a c) ->
  StronglySorted R l -> StronglySorted R (insert_by leb x l).
Proof.
  intros Hyes Hno Htrans.
  induction 1 as [| y l S IH F]; simpl.
  - repeat constructor.
  - destruct (leb x y) eqn:E.
    + constructor; [now constructor |].
      constructor; [now apply Hyes |].
      rewrite Forall_forall in *. intros z Hz. eapply Htrans; [apply Hyes, E | now apply F].
    + constructor; [exact IH |].
      rewrite Forall_forall in *. intros z Hz.
      apply (Permutation_in _ (insert_by_perm x l)) in Hz as [<- | Hz].
      * now apply Hno.
      * now apply F.
Qed.

Lemma sort_by_sorted_for (R : A -> A -> Prop) (l : list A) :
  (forall a b, leb a b = true -> R a b) ->
  (forall a b, leb a b = false -> R b a) ->
  (forall a b c, R a b -> R b c -> R a c) ->
  StronglySorted R (sort_by leb l).
Proof.
  intros Hyes Hno Htrans.
  induction l as [|x l IH]; simpl; [constructor | now apply insert_by_sorted_for].
Qed.

Hypothesis leb_total : forall a b, leb a b = false -> leb b a = true.
Hypothesis leb_trans : forall a b c, leb a b = true -> leb b c = true -> leb a c = true.

Lemma insert_by_sorted (x : A) (l : list A) :
  StronglySorted (fun a b => leb a b = true) l ->
  StronglySorted (fun a b => leb a b = true) (insert_by leb x l).
Proof.
  apply insert_by_sorted_for; [auto | exact leb_total | exact leb_trans].
Qed.

Lemma sort_by_sorted (l : list A) : StronglySorted (fun a b => leb a b = true) (sort_by leb l).
Proof.
  apply sort_by_sorted_for; [auto | exact leb_total | exact leb_trans].
Qed.
End SortFacts.

Lemma firstn_incl {A : Type} (n : nat) (l : list A) (x : A) : In x (firstn n l) -> In x l.
Proof.
  revert n. induction l as [|y l IH]; intros n.
  - now rewrite firstn_nil.
  - destruct n as [|n]; simpl; [intros [] |]. intros [E | H]; [now left | right; eauto].
Qed.

Lemma StronglySorted_firstn {A : Type} (R : A -> A -> Prop) (n : nat) (l : list A) :
  StronglySorted R l -> StronglySorted R (firstn n l).
Proof.
  intros S. revert n. induction S as [| x l S IH F]; intros n.
  - rewrite firstn_nil. constructor.
  - destruct n as [|n]; simpl; [constructor |].
    constructor; [apply IH |].
    rewrite Forall_forall in *. intros y Hy. apply F. eapply firstn_incl. exact Hy.
Qed.

Lemma StronglySorted_map {A B : Type} (R : B -> B -> Prop) (f : A -> B) (l : list A) :
  StronglySorted (fun a b => R (f a) (f b)) l -> StronglySorted R (map f l).
Proof.
  induction 1 as [| x l S IH F]; simpl; constructor; [exact IH |].
  rewrite Forall_forall in *. intros y Hy. apply in_map_iff in Hy as [z [<- Hz]]. now apply F.
Qed.

(** *** The order of [sort_values] *)

Lemma value_leb_total (ascending : bool) (a b : cell) :
  value_leb ascending a b = false -> value_leb ascending b a = true.
Proof.
  destruct a as [| x | s], b as [| y | t], ascending; simpl; try congruence;
    apply Qcleb_total.
Qed.

Lemma value_leb_trans (ascending : bool) (a b c : cell) :
  value_leb ascending a b = true -> value_leb ascending b c = true ->
  value_leb ascending a c = true.
Proof.
  destruct a as [| x | s], b as [| y | t], c as [| z | u], ascending; simpl;
    try congruence; intros H1 H2; eapply Qcleb_trans; eassumption.
Qed.

Lemma value_leb_refl (ascending : bool) (a : cell) : value_leb ascending a a = true.
Proof. destruct a, ascending; simpl; try reflexivity; apply Qcleb_refl. Qed.

(** [before] decides the order of the values, and the order numpy gives
    to equal values does not show in it. *)
Lemma before_yes (P : pandas) (ascending : bool) (a b : cell * cell) :
  before P ascending a b = true -> value_leb ascending (snd a) (snd b) = true.
Proof.
  unfold before. destruct (snd a) as [| x | s], (snd b) as [| y | t]; try (intros H; exact H).
  destruct (Qc_eq_dec x y) as [-> | N]; [intros _; apply value_leb_refl | intros H; exact H].
Qed.

Lemma before_no (P : pandas) (ascending : bool) (a b : cell * cell) :
  before P ascending a b = false -> value_leb ascending (snd b) (snd a) = true.
Proof.
  unfold before. destruct (snd a) as [| x | s], (snd b) as [| y | t];
    try (intros H; now apply value_leb_total).
  destruct (Qc_eq_dec x y) as [-> | N];
    [intros _; apply value_leb_refl | intros H; now apply value_leb_total].
Qed.

Lemma sort_values_sorted (P : pandas) (ascending : bool) (s : series) :
  StronglySorted (fun a b => value_leb ascending a b = true)
                 (values (sort_values P ascending s)).
Proof.
  unfold values, sort_values. apply StronglySorted_map.
  apply (sort_by_sorted_for (cell * cell) (before P ascending)
           (fun a b => value_leb ascending (snd a) (snd b) = true)).
  - apply before_yes.
  - apply before_no.
  - intros a b c. apply value_leb_trans.
Qed.

Lemma sort_stable_sorted (ascending : bool) (s : series) :
  StronglySorted (fun a b => value_leb ascending a b = true)
                 (values (sort_stable ascending s)).
Proof.
  unfold values, sort_stable. apply StronglySorted_map.
  apply (sort_by_sorted (cell * cell) (fun a b => value_leb ascending (snd a) (snd b))).
  - intros a b. apply value_leb_total.
  - intros a b c. apply value_leb_trans.
Qed.

Lemma sort_values_perm (P : pandas) (ascending : bool) (s : series) :
  Permutation (sort_values P ascending s) s.
Proof. apply (sort_by_perm (cell * cell)). Qed.

Lemma sort_stable_perm (ascending : bool) (s : series) :
  Permutation (sort_stable ascending s) s.
Proof. apply (sort_by_perm (cell * cell)). Qed.

Lemma sort_values_length (P : pandas) (ascending : bool) (s : series) :
  length (sort_values P ascending s) = length s.
Proof. apply (sort_by_length (cell * cell)). Qed.

Lemma sort_values_In (P : pandas) (ascending : bool) (s : series) (e : cell * cell) :
  In e (sort_values P ascending s) <-> In e s.
Proof. apply (sort_by_In (cell * cell)). Qed.

Lemma sort_stable_length (ascending : bool) (s : series) :
  length (sort_stable ascending s) = length s.
Proof. apply (sort_by_length (cell * cell)). Qed.

Lemma sort_stable_In (ascending : bool) (s : series) (e : cell * cell) :
  In e (sort_stable ascending s) <-> In e s.
Proof. apply (sort_by_In (cell * cell)). Qed.

(** A list of means sorted by [sort_values] is a sorted run of numbers
    followed by the missing ones. *)
Lemma sorted_values_shape (ascending : bool) (l : list cell) :
  StronglySorted (fun a b => value_leb ascending a b = true) l ->
  Forall (fun c => is_text c = false) l ->
  exists qs k,
    l = map Num qs ++ repeat NaN k /\ StronglySorted (in_order ascending) qs.
Proof.
  induction 1 as [| a l Hs IH F]; intros T.
  - exists [], 0. split; [reflexivity | constructor].
  - inversion T as [| ? ? Ta Tl]; subst.
    destruct (IH Tl) as [qs [k [E Sq]]].
    destruct a as [| x | s]; [| | discriminate].
    + (* a missing value: nothing present may follow *)
      destruct qs as [|q qs].
      * exists [], (S k). simpl in *. now rewrite E.
      * exfalso. rewrite E in F. inversion F as [| ? ? Hq _]. discriminate Hq.
    + exists (x :: qs), k. split; [simpl; now rewrite E |].
      constructor; [exact Sq |].
      rewrite Forall_forall in *. intros q Hq.
      assert (Hin : In (Num q) l) by (rewrite E; apply in_or_app; left; now apply in_map).
      specialize (F _ Hin). unfold in_order. simpl in F.
      destruct ascending; now apply Qcleb_le.
Qed.

(** ** Grouping *)

Lemma cell_eqb_spec (a b : cell) : cell_eqb a b = true <-> a <> NaN /\ a = b.
Proof.
  unfold cell_eqb. destruct a as [| x | s].
  - split; [discriminate | intros [H _]; congruence].
  - destruct (cell_eq_dec (Num x) b); split; try congruence;
      [intros _; split; [discriminate | assumption] | now intros [_ E]].
  - destruct (cell_eq_dec (Str s) b); split; try congruence;
      [intros _; split; [discriminate | assumption] | now intros [_ E]].
Qed.

Lemma is_nan_spec (c : cell) : is_nan c = true <-> c = NaN.
Proof. destruct c; simpl; split; congruence. Qed.

Lemma is_nan_false (c : cell) : is_nan c = false <-> c <> NaN.
Proof. destruct c; simpl; split; congruence. Qed.

Lemma NoDup_snoc {A : Type} (l : list A) (x : A) : NoDup l -> ~ In x l -> NoDup (l ++ [x]).
Proof.
  intros N H. apply (Permutation_NoDup (l := x :: l)).
  - apply Permutation_cons_append.
  - now constructor.
Qed.

Lemma add_to_group_keys (k x : cell) (groups : list (cell * list cell)) :
  (In k (map fst groups) -> map fst (add_to_group k x groups) = map fst groups)
  /\ (~ In k (map fst groups) -> map fst (add_to_group k x groups) = map fst groups ++ [k]).
Proof.
  induction groups as [|[k0 xs0] G [IH1 IH2]]; simpl.
  - split; [intros [] | reflexivity].
  - destruct (cell_eq_dec k0 k) as [-> | NE]; simpl.
    + split; [reflexivity | intros H; exfalso; apply H; now left].
    + split.
      * intros [E | H]; [congruence | now rewrite IH1].
      * intros H. rewrite IH2; [reflexivity | intros X; apply H; now right].
Qed.

Lemma add_to_group_In (k x : cell) (groups : list (cell * list cell)) (k' : cell) (xs' : list cell) :
  NoDup (map fst groups) ->
  In (k', xs') (add_to_group k x groups) ->
  (k' <> k /\ In (k', xs') groups)
  \/ (k' = k /\ ((exists xs0, In (k, xs0) groups /\ xs' = xs0 ++ [x])
                 \/ (~ In k (map fst groups) /\ xs' = [x]))).
Proof.
  induction groups as [|[k0 xs0] G IH]; simpl; intros N H.
  - destruct H as [E | []]. injection E as <- <-. right. split; [reflexivity |].
    right. split; [intros [] | reflexivity].
  - inversion N as [| ? ? N0 NG]; subst.
    destruct (cell_eq_dec k0 k) as [-> | NE].
    + destruct H as [E | H].
      * injection E as <- <-. right. split; [reflexivity |]. left.
        exists xs0. split; [now left | reflexivity].
      * left. split; [| now right]. intros ->. apply N0.
        change k with (fst (k, xs')). now apply in_map.
    + destruct H as [E | H].
      * injection E as <- <-. left. split; [exact NE | now left].
      * destruct (IH NG H) as [[D I] | [-> [[xs1 [I E]] | [NI E]]]].
        -- left. split; [exact D | now right].
        -- right. split; [reflexivity |]. left. exists xs1. split; [now right | exact E].
        -- right. split; [reflexivity |]. right. split; [| exact E].
           intros [X | X]; [congruence | now apply NI].
Qed.

Lemma values_of_snoc (k : cell) (kvs : list (cell * cell)) (k1 x1 : cell) :
  values_of k (kvs ++ [(k1, x1)])
  = values_of k kvs ++ (if cell_eqb k1 k then [x1] else []).
Proof.
  unfold values_of. rewrite filter_app, map_app. simpl. now destruct (cell_eqb k1 k).
Qed.

Lemma values_of_absent (k : cell) (kvs : list (cell * cell)) :
  ~ In k (map fst kvs) -> values_of k kvs = [].
Proof.
  intros H. unfold values_of.
  replace (filter (fun kv => cell_eqb (fst kv) k) kvs) with (@nil (cell * cell)); [reflexivity |].
  symmetry. induction kvs as [|[k0 x0] l IH]; simpl; [reflexivity |].
  destruct (cell_eqb k0 k) eqn:E.
  - apply cell_eqb_spec in E as [_ ->]. exfalso. apply H. now left.
  - apply IH. intros X. apply H. now right.
Qed.

(** One walk over the rows: the keys met, each once, NaN never; and under
    each key the values of its rows, in the order of the rows. *)
Lemma group_walk (kvs : list (cell * cell)) :
  let groups := fold_left group_step kvs [] in
  NoDup (map fst groups)
  /\ (forall k, In k (map fst groups) <-> k <> NaN /\ In k (map fst kvs))
  /\ (forall k xs, In (k, xs) groups -> xs = values_of k kvs).
Proof.
  induction kvs as [|[k1 x1] kvs IH] using rev_ind; simpl.
  - split; [constructor | split]; [| intros k xs []].
    intros k. split; [intros [] | intros [_ []]].
  - rewrite fold_left_app. simpl. simpl in IH.
    set (G := fold_left group_step kvs []) in *.
    destruct IH as [N [K V]].
    assert (Hmap : forall k, In k (map fst (kvs ++ [(k1, x1)])) <-> In k (map fst kvs) \/ k = k1).
    { intros k. rewrite map_app, in_app_iff. simpl. intuition congruence. }
    unfold group_step. simpl. destruct (is_nan k1) eqn:E1.
    + apply is_nan_spec in E1. subst k1.
      split; [exact N | split].
      * intros k. rewrite K, Hmap. intuition congruence.
      * intros k xs H. rewrite values_of_snoc. simpl. rewrite app_nil_r. now apply V.
    + apply is_nan_false in E1.
      destruct (add_to_group_keys k1 x1 G) as [A1 A2].
      assert (Hkeys : forall k, In k (map fst (add_to_group k1 x1 G)) <-> In k (map fst G) \/ k = k1).
      { intros k. destruct (in_dec cell_eq_dec k1 (map fst G)) as [I | I].
        - rewrite (A1 I). split; [now left | intros [H | ->]; assumption].
        - rewrite (A2 I), in_app_iff. simpl. intuition congruence. }
      split; [| split].
      * destruct (in_dec cell_eq_dec k1 (map fst G)) as [I | I].
        -- now rewrite (A1 I).
        -- rewrite (A2 I). now apply NoDup_snoc.
      * intros k. rewrite Hkeys, K, Hmap. intuition congruence.
      * intros k xs H. rewrite values_of_snoc.
        destruct (add_to_group_In k1 x1 G k xs N H) as [[D I] | [-> [[xs0 [I E]] | [NI E]]]].
        -- replace (cell_eqb k1 k) with false.
           ++ rewrite app_nil_r. now apply V.
           ++ symmetry. apply not_true_is_false. intros X.
              apply cell_eqb_spec in X as [_ X]. congruence.
        -- replace (cell_eqb k1 k1) with true by (symmetry; now apply cell_eqb_spec).
           rewrite E. f_equal. now apply V.
        -- replace (cell_eqb k1 k1) with true by (symmetry; now apply cell_eqb_spec).
           rewrite E. rewrite values_of_absent; [reflexivity |].
           intros X. apply NI. apply K. split; assumption.
Qed.

Lemma combine_map {A B C : Type} (f : A -> B) (g : A -> C) (l : list A) :
  combine (map f l) (map g l) = map (fun r => (f r, g r)) l.
Proof. induction l as [|x l IH]; simpl; [reflexivity | now rewrite IH]. Qed.

Lemma nunique_length (keys l : list cell) :
  NoDup l -> (forall k, In k l <-> k <> NaN /\ In k keys) -> length l = nunique keys.
Proof.
  intros N H. unfold nunique. apply Permutation_length, NoDup_Permutation.
  - exact N.
  - apply NoDup_nodup.
  - intros k. rewrite nodup_In, H. unfold dropna. rewrite filter_In, negb_true_iff, is_nan_false.
    tauto.
Qed.

Lemma mean_not_text (P : pandas) (cells : list cell) : is_text (mean P cells) = false.
Proof. unfold mean. now destruct (numbers cells). Qed.

Lemma no_text_in_groups (keys vals : list cell) :
  existsb is_text vals = false ->
  existsb (fun kv => negb (is_nan (fst kv)) && is_text (snd kv)) (combine keys vals) = false.
Proof.
  intros T. apply not_true_is_false. intros X. apply existsb_exists in X as [[k v] [I H]].
  apply andb_true_iff in H as [_ H]. simpl in H.
  assert (Y : existsb is_text vals = true); [| congruence].
  apply existsb_exists. exists v. split; [| exact H]. eapply in_combine_r. exact I.
Qed.

(** *** The contract of [groupby(by)[col].mean()] *)

Lemma groupby_mean_spec (P : pandas) (df_view : table) (by_ col : pystr) (s : series) :
  groupby_mean P df_view by_ col = Ok s ->
  NoDup (index s)
  /\ length s = nunique (cells_of df_view by_)
  /\ (forall k, In k (index s) <-> k <> NaN /\ In k (cells_of df_view by_))
  /\ (forall k m, In (k, m) s -> m = mean P (values_where df_view by_ k col))
  /\ Forall (fun m => is_text m = false) (values s).
Proof.
  unfold groupby_mean, values_where, cells_of, cell_at, column_values.
  destruct (index_of by_ (columns df_view)) as [i|]; [| discriminate].
  destruct (index_of col (columns df_view)) as [j|]; [| discriminate]. simpl.
  destruct (existsb _ (combine _ _)); [discriminate |].
  intros E. injection E as <-.
  set (kvs := combine (map (at_col i) (rows df_view)) (map (at_col j) (rows df_view))).
  assert (Hwhere : forall k,
            map (at_col j) (filter (fun r => cell_eqb (at_col i r) k) (rows df_view))
            = values_of k kvs).
  { intros k. unfold values_of, kvs. rewrite combine_map, filter_map_swap, map_map. reflexivity. }
  fold (group_values (map (at_col i) (rows df_view)) (map (at_col j) (rows df_view))).
  unfold group_values. fold kvs.
  destruct (group_walk kvs) as [N [K V]].
  set (G := fold_left group_step kvs []) in *.
  set (leb := fun a b : cell * list cell => key_leb (fst a) (fst b)).
  pose proof (sort_by_perm _ leb G) as Perm.
  assert (Hfst : map fst kvs = map (at_col i) (rows df_view)).
  { unfold kvs. rewrite combine_map, map_map. reflexivity. }
  assert (Hidx : index (map (fun g => (fst g, mean P (snd g))) (sort_by leb G))
                 = map fst (sort_by leb G)).
  { unfold index. rewrite map_map. reflexivity. }
  assert (PK : Permutation (map fst (sort_by leb G)) (map fst G)) by now apply Permutation_map.
  split; [| split; [| split; [| split]]].
  - rewrite Hidx. apply (Permutation_NoDup (l := map fst G)); [now symmetry | exact N].
  - rewrite length_map, (Permutation_length Perm), <- (length_map fst G).
    apply nunique_length; [exact N |]. intros k. rewrite K, Hfst. reflexivity.
  - intros k. rewrite Hidx, <- Hfst, <- K. split; apply Permutation_in; [exact PK | now symmetry].
  - intros k m H. apply in_map_iff in H as [[k0 xs] [E H]]. simpl in E. injection E as <- <-.
    apply (Permutation_in _ Perm) in H. rewrite Hwhere. f_equal. now apply V.
  - unfold values. rewrite map_map. simpl. apply Forall_forall. intros m H.
    apply in_map_iff in H as [g [<- _]]. apply mean_not_text.
Qed.

Lemma groupby_mean_returns (P : pandas) (df_view : table) (by_ col : pystr) :
  mem by_ (columns df_view) = true ->
  mem col (columns df_view) = true ->
  existsb is_text (cells_of df_view col) = false ->
  exists s, groupby_mean P df_view by_ col = Ok s.
Proof.
  intros Hb Hc T. apply mem_index_of in Hb as [i Hi]. apply mem_index_of in Hc as [j Hj].
  unfold groupby_mean, column_values. rewrite (cells_of_index _ _ _ Hj) in T.
  rewrite Hi, Hj. simpl. rewrite (no_text_in_groups _ _ T). eexists; reflexivity.
Qed.

(** ** Chart renderers *)

Lemma category_returns (df_view : table) (c : pystr) :
  In c (columns df_view) ->
  exists cat, category df_view = Ok cat /\ mem cat (columns df_view) = true.
Proof.
  intros H. unfold category. destruct (mem (py "entity") (columns df_view)) eqn:E.
  - now exists (py "entity").
  - destruct (columns df_view) as [|c0 l]; [contradiction |].
    exists c0. split; [reflexivity |]. apply mem_In. now left.
Qed.

Lemma present_sorted (ascending : bool) (qs : list Qc) :
  StronglySorted (in_order ascending) qs ->
  if ascending then non_decreasing (map Num qs) else non_increasing (map Num qs).
Proof.
  intros H. apply StronglySorted_Sorted in H.
  destruct ascending; unfold non_decreasing, non_increasing;
    (induction H as [| x l S IH HR]; simpl; constructor; [exact IH |];
     destruct HR; simpl; constructor; assumption).
Qed.

(** *** Cutting a sorted series *)

Lemma sort_values_ordered (P : pandas) (ascending : bool) (s : series) :
  StronglySorted (fun a b => value_leb ascending (snd a) (snd b) = true)
                 (sort_values P ascending s).
Proof.
  apply (sort_by_sorted_for (cell * cell) (before P ascending)
           (fun a b => value_leb ascending (snd a) (snd b) = true)).
  - apply before_yes.
  - apply before_no.
  - intros a b c. apply value_leb_trans.
Qed.

Lemma sort_stable_ordered (ascending : bool) (s : series) :
  StronglySorted (fun a b => value_leb ascending (snd a) (snd b) = true)
                 (sort_stable ascending s).
Proof.
  apply (sort_by_sorted (cell * cell) (fun a b => value_leb ascending (snd a) (snd b))).
  - intros a b. apply value_leb_total.
  - intros a b c. apply value_leb_trans.
Qed.

Lemma StronglySorted_by {A B : Type} (R : B -> B -> Prop) (f : A -> B) (l : list A) :
  StronglySorted (fun a b => R (f a) (f b)) l -> StronglySorted R (map f l).
Proof. apply StronglySorted_map. Qed.

(** [full] is the series [s] in the order of its values; what is said
    here holds of its first [n] entries whatever the order among equal
    values. *)
Lemma cut_sorted (ascending : bool) (n : nat) (full s : series) :
  Permutation full s ->
  StronglySorted (fun a b => value_leb ascending (snd a) (snd b) = true) full ->
  Forall (fun m => is_text m = false) (values s) ->
  length (firstn n full) = Nat.min n (length s)
  /\ (forall e, In e (firstn n full) -> In e s)
  /\ exists qs k,
       values (firstn n full) = map Num qs ++ repeat NaN k
       /\ StronglySorted (in_order ascending) qs.
Proof.
  intros Perm So T. split; [| split].
  - now rewrite length_firstn, (Permutation_length Perm).
  - intros e H. apply firstn_incl in H. now apply (Permutation_in _ Perm).
  - unfold values. rewrite <- firstn_map. apply sorted_values_shape.
    + apply StronglySorted_firstn. now apply StronglySorted_by.
    + rewrite Forall_forall in *. intros m H. apply firstn_incl in H.
      apply in_map_iff in H as [e [<- He]]. apply (Permutation_in _ Perm) in He.
      apply T. unfold values. now apply in_map.
Qed.

Lemma StronglySorted_app_rel {A : Type} (R : A -> A -> Prop) (l1 l2 : list A) (a b : A) :
  StronglySorted R (l1 ++ l2) -> In a l1 -> In b l2 -> R a b.
Proof.
  induction l1 as [|x l1 IH]; simpl; intros S Ha Hb; [contradiction |].
  inversion S as [| ? ? S' F]; subst. destruct Ha as [-> | Ha].
  - rewrite Forall_forall in F. apply F. apply in_or_app. now right.
  - now apply IH.
Qed.

(** What is cut off comes after everything that is kept. *)
Lemma cut_sorted_rest (ascending : bool) (n : nat) (full s : series) (e e' : cell * cell) :
  Permutation full s ->
  StronglySorted (fun a b => value_leb ascending (snd a) (snd b) = true) full ->
  In e (firstn n full) -> In e' s -> ~ In e' (firstn n full) ->
  value_leb ascending (snd e) (snd e') = true.
Proof.
  intros Perm So He He' Hn.
  rewrite <- (firstn_skipn n full) in So.
  apply (StronglySorted_app_rel _ _ _ e e' So He).
  apply (Permutation_in _ (Permutation_sym Perm)) in He'.
  rewrite <- (firstn_skipn n full) in He'.
  apply in_app_or in He' as [X | X]; [contradiction | exact X].
Qed.

Lemma head_sort_values (P : pandas) (top_n : nat) (ascending : bool) (s : series) :
  Forall (fun m => is_text m = false) (values s) ->
  length (head top_n (sort_values P ascending s)) = Nat.min top_n (length s)
  /\ (forall e, In e (head top_n (sort_values P ascending s)) -> In e s)
  /\ exists qs k,
       values (head top_n (sort_values P ascending s)) = map Num qs ++ repeat NaN k
       /\ StronglySorted (in_order ascending) qs.
Proof.
  intros T. unfold head.
  apply cut_sorted; [apply sort_values_perm | apply sort_values_ordered | exact T].
Qed.

Lemma present_after_filter (s : series) (e : cell * cell) :
  In e (filter (fun e => negb (is_nan (snd e))) s) <-> In e s /\ snd e <> NaN.
Proof. now rewrite filter_In, negb_true_iff, is_nan_false. Qed.

(** [nlargest] is a cut of what it keeps, put in decreasing order. *)
Lemma nlargest_cut (P : pandas) (n : nat) (s : series) :
  exists full,
    nlargest P n s = firstn n full
    /\ Permutation full (nlargest_kept P s)
    /\ StronglySorted (fun a b => value_leb false (snd a) (snd b) = true) full.
Proof.
  unfold nlargest. destruct (length s <=? n).
  - exists (sort_values P false (nlargest_kept P s)).
    split; [reflexivity | split; [apply sort_values_perm | apply sort_values_ordered]].
  - exists (sort_stable false (nlargest_kept P s)).
    split; [reflexivity | split; [apply sort_stable_perm | apply sort_stable_ordered]].
Qed.

Lemma nlargest_kept_In (P : pandas) (s : series) (e : cell * cell) :
  In e (nlargest_kept P s) -> In e s.
Proof.
  unfold nlargest_kept. destruct (nlargest_keeps_nan P); [auto |].
  intros H. now apply present_after_filter in H.
Qed.

Lemma nlargest_kept_length (P : pandas) (s : series) :
  length (nlargest_kept P s) <= length s.
Proof.
  unfold nlargest_kept. destruct (nlargest_keeps_nan P); [lia |].
  apply subseq_length, subseq_filter.
Qed.

Lemma nlargest_kept_no_text (P : pandas) (s : series) :
  Forall (fun m => is_text m = false) (values s) ->
  Forall (fun m => is_text m = false) (values (nlargest_kept P s)).
Proof.
  intros F. rewrite Forall_forall in *. intros m Hm.
  apply in_map_iff in Hm as [e [<- He]]. apply nlargest_kept_In in He.
  apply F. unfold values. now apply in_map.
Qed.

(** *** The samples on the page *)

Example load_m : load_data plain [m_csv] = Ok df_m.
Proof. reflexivity. Qed.

(** C4, as stated, fails.  In [m.csv] entity Y has a year and no gap
    value.  The file alone, the selector on "All" and the slider on its
    full span give a Filtered View that holds the three rows; the mean of
    Y is NaN and closes the series of the Bar Chart in both orders, and
    no comparison with NaN holds. *)
Lemma bar_chart_missing_mean_breaks_order :
  load_data plain [m_csv] = Ok df_m
  /\ numeric_cols df_m = Ok [py "year"; py "gap_"]
  /\ filter_section plain df_m (py "All") None = Ok df_m
  /\ exists highest lowest,
       bar_chart modern df_m (Some (py "gap_")) 10 true = Ok highest
       /\ bar_chart modern df_m (Some (py "gap_")) 10 false = Ok lowest
       /\ index highest = [txt "Z"; txt "X"; txt "Y"]
       /\ index lowest = [txt "X"; txt "Z"; txt "Y"]
       /\ map reading (values highest) = [Some (20 # 1)%Q; Some (10 # 1)%Q; None]
       /\ map reading (values lowest) = [Some (10 # 1)%Q; Some (20 # 1)%Q; None]
       /\ ~ non_increasing (values highest)
       /\ ~ non_decreasing (values lowest)
       /\ exists page,
            app plain modern [m_csv] ui_bar = Ok page
            /\ In (Pyplot (Bars highest)) page.
Proof.
  split; [reflexivity |]. split; [reflexivity |]. split; [vm_compute; reflexivity |].
  exists (match bar_chart modern df_m (Some (py "gap_")) 10 true with
          | Ok agg => agg
          | Raised => []
          end),
         (match bar_chart modern df_m (Some (py "gap_")) 10 false with
          | Ok agg => agg
          | Raised => []
          end).
  split; [vm_compute; reflexivity |]. split; [vm_compute; reflexivity |].
  split; [vm_compute; reflexivity |]. split; [vm_compute; reflexivity |].
  split; [vm_compute; reflexivity |]. split; [vm_compute; reflexivity |].
  split; [| split].
  - intros H. vm_compute in H.
    inversion H as [| ? ? H1 _]; subst.
    inversion H1 as [| ? ? _ H2]; subst.
    inversion H2 as [| ? ? V]; subst. exact V.
  - intros H. vm_compute in H.
    inversion H as [| ? ? H1 _]; subst.
    inversion H1 as [| ? ? _ H2]; subst.
    inversion H2 as [| ? ? V]; subst. exact V.
  - exists (match app plain modern [m_csv] ui_bar with
            | Ok page => page
            | Raised => []
            end).
    split; [vm_compute; reflexivity |].
    vm_compute. do 7 right. left. reflexivity.
Qed.

(** C4 (amended).  For a metric column without text, the series of the
    Bar Chart has min(N, number of distinct non-missing categories)
    entries, each the mean of the metric over the rows of its category
    that have a value, NaN when none has; its values are the means that
    are present, non-increasing under "Highest First" and non-decreasing
    under "Lowest First", followed in both orders by the missing means;
    when no mean is missing the whole series is ordered as the
    specification says. *)
Theorem bar_chart_series (P : pandas) (df_view : table) (metric : pystr) (top_n : nat)
        (srt : bool) :
  mem metric (columns df_view) = true ->
  existsb is_text (cells_of df_view metric) = false ->
  exists cat agg,
    category df_view = Ok cat
    /\ bar_chart P df_view (Some metric) top_n srt = Ok agg
    /\ length agg = Nat.min top_n (nunique (cells_of df_view cat))
    /\ (forall k m, In (k, m) agg ->
          m = match numbers (values_where df_view cat k metric) with
              | [] => NaN
              | qs => Num (average P qs)
              end)
    /\ exists qs k,
         values agg = map Num qs ++ repeat NaN k
         /\ StronglySorted (fun x y => if srt then (y <= x)%Qc else (x <= y)%Qc) qs
         /\ (k = 0 -> if srt then non_increasing (values agg) else non_decreasing (values agg)).
Proof.
  intros Hm T.
  destruct (category_returns df_view metric) as [cat [Ec Hc]]; [now apply mem_In |].
  destruct (groupby_mean_returns P df_view cat metric Hc Hm T) as [s Es].
  destruct (groupby_mean_spec _ _ _ _ _ Es) as [_ [L [_ [M F]]]].
  destruct (head_sort_values P top_n (negb srt) s F) as [Hl [Hin [qs [k [Ev So]]]]].
  exists cat, (head top_n (sort_values P (negb srt) s)).
  split; [exact Ec |]. split; [unfold bar_chart; rewrite Ec; simpl; now rewrite Es |].
  split; [now rewrite Hl, L |].
  split; [intros k0 m H; exact (M k0 m (Hin _ H)) |].
  exists qs, k. split; [exact Ev |]. split.
  - destruct srt; exact So.
  - intros ->. rewrite Ev. simpl. rewrite app_nil_r.
    pose proof (present_sorted _ _ So) as Hp. now destruct srt.
Qed.

Lemma bar_chart_series_witness :
  exists cat agg,
    category df_ab = Ok cat
    /\ bar_chart modern df_ab (Some (py "gap_")) 3 true = Ok agg
    /\ length agg = Nat.min 3 (nunique (cells_of df_ab cat))
    /\ index agg = [txt "Y"; txt "X"; txt "Z"]
    /\ map reading (values agg) = [Some (23 # 2)%Q; Some (25 # 4)%Q; Some (1 # 1)%Q].
Proof.
  destruct (bar_chart_series modern df_ab (py "gap_") 3 true) as [cat [agg [Hc [Hb [Hl _]]]]].
  - reflexivity.
  - reflexivity.
  - exists cat, agg. split; [exact Hc |]. split; [exact Hb |]. split; [exact Hl |].
    pose proof Hb as E. vm_compute in E. injection E as <-.
    split; vm_compute; reflexivity.
Defined.

(** *** Grouping in the Bar Chart and in the Pie *)

(** C10.  [groupby(by)[col].mean()] has one entry per distinct key that is
    present: a row whose key is missing belongs to no group, the mean of a
    group is the float64 mean of the values of its rows that are present,
    in the order of the rows (NaN when there is none), and the number of
    entries is the number of distinct non-missing keys.  The Bar Chart
    and the Pie take their entries from this series, grouped by the
    category column. *)
Theorem grouping_ignores_missing (P : pandas) (df_view : table) :
  (forall by_ col s,
      groupby_mean P df_view by_ col = Ok s ->
      NoDup (index s)
      /\ length s = nunique (cells_of df_view by_)
      /\ (forall k, In k (index s) <-> k <> NaN /\ In k (cells_of df_view by_))
      /\ forall k m, In (k, m) s ->
           k <> NaN
           /\ m = match numbers (values_where df_view by_ k col) with
                  | [] => NaN
                  | qs => Num (average P qs)
                  end)
  /\ (forall metric top_n srt agg,
        bar_chart P df_view (Some metric) top_n srt = Ok agg ->
        exists cat s,
          category df_view = Ok cat
          /\ groupby_mean P df_view cat metric = Ok s
          /\ (forall e, In e agg -> In e s)
          /\ length agg = Nat.min top_n (nunique (cells_of df_view cat)))
  /\ (forall pie_data,
        pie_chart P df_view = Ok (Some pie_data) ->
        exists cat g s,
          category df_view = Ok cat
          /\ gap_col df_view = Some g
          /\ groupby_mean P df_view cat g = Ok s
          /\ (forall e, In e pie_data -> In e s)
          /\ length pie_data = Nat.min 8 (length (nlargest_kept P s))
          /\ length pie_data <= nunique (cells_of df_view cat)).
Proof.
  split; [| split].
  - intros by_ col s H. destruct (groupby_mean_spec _ _ _ _ _ H) as [N [L [K [M _]]]].
    split; [exact N |]. split; [exact L |]. split; [exact K |].
    intros k m Hin. split.
    + apply (K k). unfold index. change k with (fst (k, m)). now apply in_map.
    + apply M in Hin. exact Hin.
  - intros metric top_n srt agg H. unfold bar_chart in H.
    destruct (category df_view) as [cat|]; [| discriminate]. simpl in H.
    destruct (groupby_mean P df_view cat metric) as [s|] eqn:Es; [| discriminate].
    simpl in H. injection H as <-.
    destruct (groupby_mean_spec _ _ _ _ _ Es) as [_ [L [_ [_ F]]]].
    destruct (head_sort_values P top_n (negb srt) s F) as [Hl [Hi _]].
    exists cat, s. split; [reflexivity |]. split; [exact Es |].
    split; [exact Hi | now rewrite Hl, L].
  - intros pie_data H. unfold pie_chart in H.
    destruct (gap_col df_view) as [[|ch g]|] eqn:Eg; [discriminate | | discriminate].
    destruct (category df_view) as [cat|]; [| discriminate]. simpl in H.
    destruct (groupby_mean P df_view cat (ch :: g)) as [s|] eqn:Es; [| discriminate].
    simpl in H. destruct (is_object _); [discriminate |]. injection H as <-.
    destruct (groupby_mean_spec _ _ _ _ _ Es) as [_ [L [_ [_ F]]]].
    destruct (nlargest_cut P 8 s) as [full [E [Perm So]]].
    destruct (cut_sorted false 8 full _ Perm So (nlargest_kept_no_text P s F))
      as [Hl [Hin _]].
    exists cat, (ch :: g), s. split; [reflexivity |]. split; [reflexivity |].
    split; [exact Es |]. rewrite E. split; [| split].
    + intros e He. apply nlargest_kept_In with (P := P). now apply Hin.
    + exact Hl.
    + rewrite Hl, <- L. pose proof (nlargest_kept_length P s). lia.
Qed.

Lemma grouping_ignores_missing_witness :
  (exists s,
     groupby_mean modern df_ab (py "entity") (py "gap_") = Ok s
     /\ index s = [txt "X"; txt "Y"; txt "Z"]
     /\ map reading (values s) = [Some (25 # 4)%Q; Some (23 # 2)%Q; Some (1 # 1)%Q]
     /\ length s = nunique (cells_of df_ab (py "entity")))
  /\ (exists s,
        groupby_mean modern df_ac (py "year") (py "gap_") = Ok s
        /\ length s = nunique (cells_of df_ac (py "year"))
        /\ length s = 3 /\ nrows df_ac = 4).
Proof.
  split.
  - exists (match groupby_mean modern df_ab (py "entity") (py "gap_") with
            | Ok s => s
            | Raised => []
            end).
    assert (E : groupby_mean modern df_ab (py "entity") (py "gap_")
                = Ok (match groupby_mean modern df_ab (py "entity") (py "gap_") with
                      | Ok s => s
                      | Raised => []
                      end)) by (vm_compute; reflexivity).
    split; [exact E |]. split; [vm_compute; reflexivity |].
    split; [vm_compute; reflexivity |].
    destruct (grouping_ignores_missing modern df_ab) as [G _].
    destruct (G (py "entity") (py "gap_") _ E) as [_ [L _]]. exact L.
  - exists (match groupby_mean modern df_ac (py "year") (py "gap_") with
            | Ok s => s
            | Raised => []
            end).
    assert (E : groupby_mean modern df_ac (py "year") (py "gap_")
                = Ok (match groupby_mean modern df_ac (py "year") (py "gap_") with
                      | Ok s => s
                      | Raised => []
                      end)) by (vm_compute; reflexivity).
    split; [exact E |].
    destruct (grouping_ignores_missing modern df_ac) as [G _].
    destruct (G (py "year") (py "gap_") _ E) as [_ [L _]].
    split; [exact L |]. split; vm_compute; reflexivity.
Defined.

(** *** Treatment Gap Pie *)

Lemma find_first {A : Type} (f : A -> bool) (l : list A) (x : A) :
  find f l = Some x ->
  exists pre post, l = pre ++ x :: post /\ f x = true /\ forall y, In y pre -> f y = false.
Proof.
  induction l as [|a l IH]; simpl; [discriminate |].
  destruct (f a) eqn:E.
  - intros H. injection H as <-. exists [], l. split; [reflexivity |]. split; [exact E | intros y []].
  - intros H. destruct (IH H) as [pre [post [-> [Fx Fp]]]].
    exists (a :: pre), post. split; [reflexivity |]. split; [exact Fx |].
    intros y [<- | Hy]; [exact E | now apply Fp].
Qed.

Lemma find_nothing {A : Type} (f : A -> bool) (l : list A) :
  (forall x, In x l -> f x = false) -> find f l = None.
Proof.
  intros H. induction l as [|a l IH]; simpl; [reflexivity |].
  rewrite (H a (or_introl eq_refl)). apply IH. intros x Hx. apply H. now right.
Qed.

Lemma is_gap_label_spec (c : pystr) :
  is_gap_label c = true <->
  (exists pre post, c = pre ++ py "gap" ++ post)
  \/ (exists pre post, c = pre ++ py "percent" ++ post).
Proof.
  unfold is_gap_label. now rewrite orb_true_iff, !contains_infix.
Qed.

Lemma nlargest_length (P : pandas) (n : nat) (s : series) : length (nlargest P n s) <= n.
Proof.
  unfold nlargest. destruct (length s <=? n); apply firstn_le_length.
Qed.

Lemma value_leb_numbers (ascending : bool) (x y : Qc) :
  value_leb ascending (Num x) (Num y) = true -> in_order ascending x y.
Proof. unfold in_order. simpl. destruct ascending; apply Qcleb_le. Qed.

(** What [nlargest] returns on a series of means: as many entries as it
    can, taken from what it keeps, in non-increasing order with the
    missing ones last, and nothing left out that exceeds one taken. *)
Lemma nlargest_spec (P : pandas) (n : nat) (s : series) :
  Forall (fun m => is_text m = false) (values s) ->
  length (nlargest P n s) = Nat.min n (length (nlargest_kept P s))
  /\ (forall e, In e (nlargest P n s) -> In e (nlargest_kept P s))
  /\ (exists qs k,
        values (nlargest P n s) = map Num qs ++ repeat NaN k
        /\ StronglySorted (fun x y => (y <= x)%Qc) qs
        /\ (nlargest_keeps_nan P = false -> k = 0))
  /\ (forall k x k' y,
        In (k, Num x) (nlargest P n s) -> In (k', Num y) s ->
        ~ In (k', Num y) (nlargest P n s) -> (y <= x)%Qc).
Proof.
  intros F. destruct (nlargest_cut P n s) as [full [E [Perm So]]]. rewrite E.
  destruct (cut_sorted false n full _ Perm So (nlargest_kept_no_text P s F))
    as [Hl [Hin [qs [k [Ev Sq]]]]].
  split; [exact Hl |]. split; [exact Hin |]. split.
  - exists qs, k. split; [exact Ev |]. split; [exact Sq |].
    intros K. destruct k as [|k]; [reflexivity | exfalso].
    assert (X : In NaN (values (firstn n full))).
    { rewrite Ev. apply in_or_app. right. now left. }
    apply in_map_iff in X as [e [Ee He]]. apply Hin in He.
    unfold nlargest_kept in He. rewrite K in He.
    apply present_after_filter in He as [_ He]. contradiction.
  - intros k0 x k' y H1 H2 H3.
    apply (value_leb_numbers false).
    apply (cut_sorted_rest false n full (nlargest_kept P s) (k0, Num x) (k', Num y) Perm So H1);
      [| exact H3].
    unfold nlargest_kept. destruct (nlargest_keeps_nan P); [exact H2 |].
    apply present_after_filter. split; [exact H2 | discriminate].
Qed.

Lemma gap_col_label (df_view : table) (g : pystr) :
  gap_col df_view = Some g -> exists ch g', g = ch :: g'.
Proof.
  intros E. destruct (find_first _ _ _ E) as [_ [_ [_ [Fg _]]]].
  destruct g as [|ch g']; [discriminate Fg | now exists ch, g'].
Qed.

Example load_at : load_data plain [a_csv; t_csv] = Ok df_at.
Proof. reflexivity. Qed.

(** C5.  The series of the Pie never has more than 8 entries.  When no
    label contains "gap" or "percent" there is no series: the view shows
    a warning and no chart.  Otherwise the metric is the first such label
    in column order, a column of numeric type, averaged by category and
    cut to the 8 largest means: as many as there are, up to 8, in
    non-increasing order, none left out exceeding one that is shown.
    The series exists when that column is of numeric type; when it is
    typed as objects the view raises. *)
Theorem pie_chart_series (P : pandas) (df_view : table) :
  (forall pie_data, pie_chart P df_view = Ok pie_data -> length (drawn pie_data) <= 8)
  /\ ((forall c, In c (columns df_view) -> is_gap_label c = false) ->
      pie_chart P df_view = Ok None
      /\ length (drawn None) = 0
      /\ forall ui numeric_cols,
           view ui = TreatmentGapPie ->
           render P ui df_view numeric_cols = Ok [Warning "No gap column found."])
  /\ (forall pie_data,
        pie_chart P df_view = Ok (Some pie_data) ->
        exists pre g post cat agg,
          columns df_view = pre ++ g :: post
          /\ is_gap_label g = true
          /\ (forall c, In c pre -> is_gap_label c = false)
          /\ category df_view = Ok cat
          /\ dtype_of df_view g = Numeric
          /\ groupby_mean P df_view cat g = Ok agg
          /\ pie_data = nlargest P 8 agg
          /\ length pie_data = Nat.min 8 (length (nlargest_kept P agg))
          /\ (forall e, In e pie_data -> In e (nlargest_kept P agg))
          /\ (exists qs k,
                values pie_data = map Num qs ++ repeat NaN k
                /\ StronglySorted (fun x y => (y <= x)%Qc) qs
                /\ (nlargest_keeps_nan P = false -> k = 0))
          /\ (forall k x k' y,
                In (k, Num x) pie_data -> In (k', Num y) agg ->
                ~ In (k', Num y) pie_data -> (y <= x)%Qc))
  /\ (forall g,
        gap_col df_view = Some g ->
        dtype_of df_view g = Numeric ->
        existsb is_text (cells_of df_view g) = false ->
        exists pie_data, pie_chart P df_view = Ok (Some pie_data))
  /\ (forall g,
        gap_col df_view = Some g ->
        dtype_of df_view g = Object ->
        pie_chart P df_view = Raised).
Proof.
  split; [| split; [| split; [| split]]].
  - intros pie_data H. unfold pie_chart in H.
    destruct (gap_col df_view) as [[|ch g]|].
    + injection H as <-. simpl. lia.
    + destruct (category df_view) as [cat|]; [| discriminate]. simpl in H.
      destruct (groupby_mean P df_view cat (ch :: g)) as [s|]; [| discriminate].
      simpl in H. destruct (is_object _); [discriminate |].
      injection H as <-. apply nlargest_length.
    + injection H as <-. simpl. lia.
  - intros H. assert (E : gap_col df_view = None) by now apply find_nothing.
    assert (E' : pie_chart P df_view = Ok None) by (unfold pie_chart; now rewrite E).
    split; [exact E' |]. split; [reflexivity |].
    intros ui numeric_cols V. unfold render. now rewrite V, E'.
  - intros pie_data H. unfold pie_chart in H.
    destruct (gap_col df_view) as [[|ch g]|] eqn:Eg; [discriminate | | discriminate].
    destruct (category df_view) as [cat|]; [| discriminate]. simpl in H.
    destruct (groupby_mean P df_view cat (ch :: g)) as [s|] eqn:Es; [| discriminate].
    simpl in H.
    destruct (dtype_of df_view (ch :: g)) eqn:D; [| discriminate]. simpl in H.
    injection H as <-.
    destruct (find_first _ _ _ Eg) as [pre [post [Ec [Fg Fp]]]].
    destruct (groupby_mean_spec _ _ _ _ _ Es) as [_ [_ [_ [_ F]]]].
    destruct (nlargest_spec P 8 s F) as [Hl [Hin [Hsh Hrest]]].
    exists pre, (ch :: g), post, cat, s.
    split; [exact Ec |]. split; [exact Fg |]. split; [exact Fp |].
    split; [reflexivity |]. split; [exact D |]. split; [exact Es |].
    split; [reflexivity |]. split; [exact Hl |]. split; [exact Hin |].
    split; [exact Hsh | exact Hrest].
  - intros g Eg D T. unfold pie_chart. rewrite Eg.
    destruct (find_first _ _ _ Eg) as [pre [post [Ec [Fg _]]]].
    destruct g as [|ch g]; [discriminate Fg |].
    assert (Hin : In (ch :: g) (columns df_view)).
    { rewrite Ec. apply in_or_app. right. now left. }
    destruct (category_returns df_view _ Hin) as [cat [Ecat Hcat]].
    destruct (groupby_mean_returns P df_view cat (ch :: g) Hcat) as [s Es];
      [now apply mem_In | exact T |].
    rewrite Ecat. simpl. rewrite Es. simpl. rewrite D. simpl. eexists; reflexivity.
  - intros g Eg D. unfold pie_chart. rewrite Eg.
    destruct (gap_col_label _ _ Eg) as [ch [g' ->]].
    destruct (category df_view) as [cat|]; [| reflexivity]. simpl.
    destruct (groupby_mean P df_view cat (ch :: g')) as [s|]; [| reflexivity]. simpl.
    now rewrite D.
Qed.

Lemma pie_chart_series_witness :
  pie_chart modern df_d = Ok None
  /\ (exists pie_data,
        pie_chart modern df_ab = Ok (Some pie_data)
        /\ length pie_data <= 8
        /\ index pie_data = [txt "Y"; txt "X"; txt "Z"]
        /\ map reading (values pie_data) = [Some (23 # 2)%Q; Some (25 # 4)%Q; Some (1 # 1)%Q])
  /\ (filter_section plain df_at (py "a.csv") None = Ok df_at_a
      /\ pie_chart modern df_at_a = Raised).
Proof.
  split; [| split].
  - apply (pie_chart_series modern df_d).
    intros c [<- | [<- | [<- | []]]]; reflexivity.
  - destruct (pie_chart_series modern df_ab) as [L [_ [_ [R _]]]].
    destruct (R (py "gap_")) as [pie_data E]; [reflexivity | reflexivity | reflexivity |].
    exists pie_data. split; [exact E |]. split; [apply (L (Some pie_data) E) |].
    pose proof E as E'. vm_compute in E'. injection E' as <-.
    split; vm_compute; reflexivity.
  - split; [vm_compute; reflexivity |].
    destruct (pie_chart_series modern df_at_a) as [_ [_ [_ [_ R]]]].
    apply (R (py "gap_")); reflexivity.
Defined.

(** ** The script as a whole *)

Lemma normalize_source_file (U : unicode) : normalize U (py "source_file") = py "source_file".
Proof. reflexivity. Qed.

Lemma set_column_columns (c : pystr) (v : cell) (t : table) (x : pystr) :
  In x (columns (set_column c v t)) <-> In x (columns t) \/ x = c.
Proof.
  unfold set_column. destruct (index_of c (columns t)) as [i|] eqn:E; simpl.
  - split; [now left | intros [H | ->]; [exact H |]].
    apply mem_In, mem_index_of. now exists i.
  - rewrite in_app_iff. simpl. intuition congruence.
Qed.

Lemma load_frame_columns (U : unicode) (f : csv_file) (c : pystr) :
  In c (columns (load_frame U f)) <->
  exists raw, (In raw (header f) \/ raw = py "source_file") /\ c = normalize U raw.
Proof.
  unfold load_frame. cbn [columns]. rewrite in_map_iff. split.
  - intros [raw [<- H]]. exists raw. split; [| reflexivity].
    now apply set_column_columns in H.
  - intros [raw [H ->]]. exists raw. split; [reflexivity |].
    now apply set_column_columns.
Qed.

(** Where a label of the Unified Table comes from. *)
Lemma load_data_label_origin (U : unicode) (csvs : list csv_file) (df : table) (c : pystr) :
  load_data U csvs = Ok df -> In c (columns df) ->
  exists f raw,
    In f csvs /\ (In raw (header f) \/ raw = py "source_file") /\ c = normalize U raw.
Proof.
  unfold load_data. intros H Hc.
  destruct (concat_columns _ _ _ H Hc) as [t [Ht Hct]].
  apply in_map_iff in Ht as [f [<- Hf]].
  apply load_frame_columns in Hct as [raw [Hr ->]]. now exists f, raw.
Qed.

Lemma union_labels_keeps (frames : list table) (acc : list pystr) (c : pystr) :
  In c acc \/ (exists t, In t frames /\ In c (columns t)) ->
  In c (fold_left (fun acc t => acc ++ filter (fun c => negb (mem c acc)) (columns t)) frames acc).
Proof.
  revert acc. induction frames as [|f fs IH]; intros acc; simpl.
  - intros [H | [t [[] _]]]. exact H.
  - intros H. apply IH.
    destruct (mem c acc) eqn:M.
    + left. apply in_or_app. left. now apply mem_In.
    + destruct H as [H | [t [[<- | Ht] Hc]]].
      * apply mem_In in H. congruence.
      * left. apply in_or_app. right. apply filter_In. split; [exact Hc | now rewrite M].
      * right. now exists t.
Qed.

Lemma concat_keeps_labels (frames : list table) (df t : table) (c : pystr) :
  concat frames = Ok df -> In t frames -> In c (columns t) -> In c (columns df).
Proof.
  unfold concat. destruct frames as [|f fs]; [discriminate |].
  destruct (forallb (same_labels f) fs) eqn:Same.
  - intros E Ht Hc. injection E as <-. cbn [columns].
    destruct Ht as [<- | Ht]; [exact Hc |].
    rewrite forallb_forall in Same. specialize (Same t Ht).
    unfold same_labels in Same.
    destruct (list_eq_dec pystr_eq_dec (columns f) (columns t)) as [-> | ]; [exact Hc | discriminate].
  - destruct (forallb (fun g => unique_labels (columns g)) (f :: fs)); [| discriminate].
    intros E Ht Hc. injection E as <-. cbn [columns]. unfold union_labels.
    apply union_labels_keeps. right. now exists t.
Qed.

(** The Unified Table has the [source_file] column. *)
Lemma load_data_has_source_file (U : unicode) (csvs : list csv_file) (df : table) :
  load_data U csvs = Ok df -> mem (py "source_file") (columns df) = true.
Proof.
  unfold load_data. intros H. apply mem_In.
  destruct csvs as [|f l]; [discriminate H |].
  apply (concat_keeps_labels _ _ (load_frame U f) _ H); [now left |].
  apply load_frame_columns. exists (py "source_file").
  split; [now right | symmetry; apply normalize_source_file].
Qed.

Lemma source_filter_returns (df : table) (source : pystr) :
  mem (py "source_file") (columns df) = true ->
  exists df_view, source_filter df source = Ok df_view /\ view_of df_view df.
Proof.
  intros H. apply mem_index_of in H as [i Hi]. unfold source_filter. rewrite Hi.
  destruct (negb _); eexists; (split; [reflexivity |]);
    [apply view_of_keep_rows | apply view_of_refl].
Qed.

Lemma render_trend_no_year (P : pandas) (ui : inputs) (df_view : table) (numeric_cols : list pystr) :
  view ui = TrendOverTime -> has_year df_view = false ->
  render P ui df_view numeric_cols
  = Ok [Warning "This dataset does not contain a 'year' column."].
Proof. intros V HY. unfold render. now rewrite V, HY. Qed.

(** The whole script, Trend view picked, on files without a year. *)
Lemma app_trend_no_year (U : unicode) (P : pandas) (csvs : list csv_file) (ui : inputs)
      (df : table) (numeric : list pystr) :
  load_data U csvs = Ok df -> numeric_cols df = Ok numeric ->
  has_year df = false -> view ui = TrendOverTime ->
  exists page,
    app U P csvs ui = Ok page
    /\ filter is_chart page = []
    /\ filter is_warning page = [Warning "This dataset does not contain a 'year' column."].
Proof.
  intros L N HY V. unfold app. rewrite L. simpl. rewrite N. simpl.
  pose proof (load_data_has_source_file _ _ _ L) as HS.
  unfold source_options, column_values.
  pose proof HS as HS'. apply mem_index_of in HS' as [i Hi]. rewrite Hi. simpl.
  match goal with
  | |- context [filter_section U df ?source _] =>
      destruct (source_filter_returns df source HS) as [v [Ev Vv]]
  end.
  unfold filter_section. rewrite Ev. simpl. rewrite (has_year_view _ _ Vv), HY. simpl.
  rewrite (render_trend_no_year P ui v numeric V); [| now rewrite (has_year_view _ _ Vv)].
  simpl. eexists. split; [reflexivity |]. split; reflexivity.
Qed.

(** *** Trend Over Time *)

Example load_y : load_data plain [y_csv] = Ok df_y.
Proof. reflexivity. Qed.

(** C6.  On a view without a year column the Trend view puts one warning
    on the page, no chart, and raises nothing; so does the whole script
    when the files have no year column.  With a year column, and a metric
    without text, the view plots one point per distinct year that is
    present: the year and the float64 mean of the metric over the rows of
    that year that have a value, in the order of the rows, NaN when none
    has. *)
Theorem trend_over_time (P : pandas) (ui : inputs) (df_view : table) (numeric : list pystr) :
  view ui = TrendOverTime ->
  (has_year df_view = false ->
     render P ui df_view numeric
     = Ok [Warning "This dataset does not contain a 'year' column."]
     /\ (forall page, render P ui df_view numeric = Ok page ->
           filter is_chart page = [] /\ length (filter is_warning page) = 1)
     /\ (forall U csvs,
           load_data U csvs = Ok df_view -> numeric_cols df_view = Ok numeric ->
           exists page,
             app U P csvs ui = Ok page
             /\ filter is_chart page = []
             /\ filter is_warning page
                = [Warning "This dataset does not contain a 'year' column."]))
  /\ (has_year df_view = true ->
      forall tm,
        selectbox numeric (trend_pick ui) = Some tm ->
        mem tm (columns df_view) = true ->
        existsb is_text (cells_of df_view tm) = false ->
        exists grp,
          render P ui df_view numeric = Ok [card_open; Pyplot (Line grp); card_close]
          /\ groupby_mean P df_view (py "year") tm = Ok grp
          /\ NoDup (index grp)
          /\ length grp = nunique (cells_of df_view (py "year"))
          /\ (forall y, In y (index grp) <-> y <> NaN /\ In y (cells_of df_view (py "year")))
          /\ forall y m, In (y, m) grp ->
               m = match numbers (values_where df_view (py "year") y tm) with
                   | [] => NaN
                   | qs => Num (average P qs)
                   end).
Proof.
  intros V. split.
  - intros HY. pose proof (render_trend_no_year P ui df_view numeric V HY) as E.
    split; [exact E |]. split.
    + intros page Hp. rewrite E in Hp. injection Hp as <-. now split.
    + intros U csvs L N. now apply (app_trend_no_year U P csvs ui df_view numeric).
  - intros HY tm Etm Hm T.
    destruct (groupby_mean_returns P df_view (py "year") tm HY Hm T) as [grp Eg].
    destruct (groupby_mean_spec _ _ _ _ _ Eg) as [N [L [K [M _]]]].
    exists grp.
    split; [| split; [exact Eg | split; [exact N | split; [exact L | split; [exact K | exact M]]]]].
    unfold render, trend. rewrite V, HY, Etm. simpl. now rewrite Eg.
Qed.

Lemma trend_over_time_witness :
  render modern ui_trend df_c [py "score"]
  = Ok [Warning "This dataset does not contain a 'year' column."]
  /\ exists grp,
       render modern ui_trend_gap df_y [py "year"; py "gap_"]
       = Ok [card_open; Pyplot (Line grp); card_close]
       /\ index grp = [num 2000; num 2005; num 2010]
       /\ map reading (values grp) = [Some (15 # 1)%Q; None; Some (5 # 1)%Q]
       /\ exists page,
            app plain modern [y_csv] ui_trend_gap = Ok page
            /\ In (Pyplot (Line grp)) page.
Proof.
  split.
  - apply (trend_over_time modern ui_trend df_c [py "score"]); reflexivity.
  - destruct (trend_over_time modern ui_trend_gap df_y [py "year"; py "gap_"]) as [_ H];
      [reflexivity |].
    destruct (H eq_refl (py "gap_")) as [grp [E [G _]]];
      [reflexivity | reflexivity | reflexivity |].
    exists grp. split; [exact E |].
    vm_compute in G. injection G as <-.
    split; [vm_compute; reflexivity |]. split; [vm_compute; reflexivity |].
    exists (match app plain modern [y_csv] ui_trend_gap with
            | Ok page => page
            | Raised => []
            end).
    split; [vm_compute; reflexivity |].
    vm_compute. do 7 right. left. reflexivity.
Defined.

(** ** Dataset Loader: failure, row count and labels *)

(** C7.  With no [.csv] file there is nothing to concatenate: the loader
    raises, no Unified Table is built, and the script stops there
    whatever the user has picked. *)
Theorem no_csv_is_fatal (U : unicode) (P : pandas) (ui : inputs) :
  concat [] = Raised
  /\ load_data U [] = Raised
  /\ (forall df, load_data U [] <> Ok df)
  /\ app U P [] ui = Raised.
Proof.
  split; [reflexivity |]. split; [reflexivity |]. split; [discriminate | reflexivity].
Qed.

(** C2.  For at least one file, the Unified Table has as many rows as the
    files together; and the loader does build it when no frame carries
    the same normalized label twice. *)
Theorem unified_table_row_count (U : unicode) (csvs : list csv_file) :
  csvs <> [] ->
  (forall df, load_data U csvs = Ok df -> nrows df = sum_rows csvs)
  /\ (distinct_labels U csvs ->
      exists df, load_data U csvs = Ok df /\ nrows df = sum_rows csvs).
Proof.
  intros NE. split; [intros df; apply (load_data_nrows U) |].
  intros D. destruct (concat_returns (map (load_frame U) csvs)) as [df E].
  - destruct csvs; [congruence | discriminate].
  - unfold distinct_labels in D. rewrite Forall_forall in *.
    intros t Ht. apply in_map_iff in Ht as [f [<- Hf]]. now apply D.
  - exists df. split; [exact E | now apply (load_data_nrows U)].
Qed.

Lemma unified_table_row_count_witness :
  exists df, load_data plain [a_csv; b_csv] = Ok df /\ nrows df = 5.
Proof.
  destruct (unified_table_row_count plain [a_csv; b_csv]) as [_ H]; [discriminate |].
  destruct H as [df [E R]].
  - repeat constructor.
  - exists df. split; [exact E | exact R].
Defined.

(** C3, as stated, fails: an underscore counts as a word character, so
    the one written in the header stays next to the one that replaces
    "(%)". *)
Lemma label_keeps_double_underscore :
  normalize plain (py "Gap_(%)") = py "gap__"
  /\ tidy (normalize plain (py "Gap_(%)")) = false
  /\ load_data plain [e_csv] = Ok df_e
  /\ In (py "gap__") (columns df_e).
Proof.
  split; [reflexivity |]. split; [reflexivity |]. split; [reflexivity |].
  right. now left.
Qed.

(** The same on any Unicode tables: the label is ASCII. *)
Lemma label_keeps_double_underscore_any (U : unicode) :
  normalize U (py "Gap_(%)") = py "gap__".
Proof. reflexivity. Qed.

(** A letter outside ASCII is a word character and stays. *)
Lemma wide_letter_is_kept (U : unicode) (c : pychar) :
  is_ascii c = false -> word_wide U c = true -> lower_wide U [] c [] = [c] ->
  normalize U [c] = [c].
Proof.
  intros A W L. unfold normalize, str_replace_nonword, str_lower. simpl.
  unfold lower_char, is_upper.
  assert (Hu : ((65 <=? c)%N && (c <=? 90)%N) = false).
  { unfold is_ascii in A. apply N.ltb_ge in A. apply andb_false_iff. right.
    apply N.leb_gt. lia. }
  rewrite Hu, A, L. simpl. unfold is_word. now rewrite A, W.
Qed.

(** C3 (amended).  Every label of the Unified Table is the normal form of
    a header label or of "source_file".  It holds word characters only
    (the class [\w]); when the original label is ASCII it holds nothing
    outside [a-z0-9_], capitals included; and when moreover the original
    label has no underscore, it has no two underscores in a row. *)
Theorem unified_table_labels (U : unicode) (csvs : list csv_file) (df : table) (c : pystr) :
  load_data U csvs = Ok df ->
  In c (columns df) ->
  exists f raw,
    In f csvs
    /\ (In raw (header f) \/ raw = py "source_file")
    /\ c = normalize U raw
    /\ Forall (fun ch => is_word U ch = true) c
    /\ (forallb is_ascii raw = true -> forallb is_az09_ c = true)
    /\ (forallb is_ascii raw = true -> existsb is_underscore raw = false -> tidy c = true).
Proof.
  intros L Hc. destruct (load_data_label_origin U csvs df c L Hc) as [f [raw [Hf [Hr ->]]]].
  exists f, raw. split; [exact Hf |]. split; [exact Hr |]. split; [reflexivity |].
  split; [apply sub_runs_word |]. split; [apply normalize_ascii_charset |].
  intros A N. unfold tidy.
  now rewrite (normalize_ascii_charset U raw A), (normalize_ascii_no_double U raw A N).
Qed.

Lemma unified_table_labels_witness :
  exists raw,
    py "gap_" = normalize plain raw
    /\ Forall (fun ch => is_word plain ch = true) (py "gap_").
Proof.
  destruct (unified_table_labels plain [a_csv; b_csv] df_ab (py "gap_"))
    as [f [raw [_ [_ [E [W _]]]]]].
  - reflexivity.
  - right. right. now left.
  - exists raw. split; [exact E | exact W].
Defined.

(** ** More on the loader: where the cells come from *)

Lemma index_of_nth (c : pystr) (labels : list pystr) (i : nat) :
  index_of c labels = Some i -> nth_error labels i = Some c.
Proof.
  revert i. induction labels as [|l ls IH]; intros i; simpl; [discriminate |].
  destruct (pystr_eqb c l) eqn:E.
  - intros H. injection H as <-. apply pystr_eqb_eq in E. now subst.
  - destruct (index_of c ls) as [j|]; [| discriminate].
    intros H. injection H as <-. simpl. now apply IH.
Qed.

Lemma index_of_lt (c : pystr) (labels : list pystr) (i : nat) :
  index_of c labels = Some i -> i < length labels.
Proof.
  intros H. apply index_of_nth in H. apply nth_error_Some. congruence.
Qed.

Lemma index_of_absent (c : pystr) (labels : list pystr) :
  index_of c labels = None <-> ~ In c labels.
Proof.
  rewrite <- mem_not_In. destruct (mem c labels) eqn:M.
  - apply mem_index_of in M as [i Hi]. rewrite Hi. split; discriminate.
  - split; [reflexivity | intros _].
    destruct (index_of c labels) as [i|] eqn:E; [| reflexivity].
    assert (X : mem c labels = true) by (apply mem_index_of; now exists i). congruence.
Qed.

Lemma at_col_map {A : Type} (g : A -> cell) (l : list A) (i : nat) (x : A) :
  nth_error l i = Some x -> at_col i (map g l) = g x.
Proof.
  unfold at_col. revert i. induction l as [|a l IH]; intros [|i]; simpl; try discriminate.
  - intros H. now injection H as ->.
  - apply IH.
Qed.

(** A cell read back from a row laid out under [labels]. *)
Lemma cell_at_relabel (labels : list pystr) (t u : table) (r : list cell) (c : pystr) :
  columns u = labels -> In c labels ->
  cell_at u c (relabel labels t r) = cell_at t c r.
Proof.
  intros E H. unfold cell_at at 1. rewrite E.
  destruct (index_of c labels) as [j|] eqn:Hj.
  - unfold relabel. apply (at_col_map (fun c0 => cell_at t c0 r)). now apply index_of_nth.
  - apply index_of_absent in Hj. contradiction.
Qed.

Lemma reindex_relabel (labels : list pystr) (t : table) :
  reindex labels t = map (relabel labels t) (rows t).
Proof. reflexivity. Qed.

Lemma same_labels_eq (a b : table) : same_labels a b = true <-> columns a = columns b.
Proof.
  unfold same_labels. destruct (list_eq_dec pystr_eq_dec (columns a) (columns b));
    split; congruence.
Qed.

Lemma cell_at_same_columns (t u : table) (c : pystr) (r : list cell) :
  columns t = columns u -> cell_at t c r = cell_at u c r.
Proof. unfold cell_at. now intros ->. Qed.

Lemma flat_map_ext_in {A B : Type} (f g : A -> list B) (l : list A) :
  (forall a, In a l -> f a = g a) -> flat_map f l = flat_map g l.
Proof.
  intros H. induction l as [|a l IH]; simpl; [reflexivity |].
  rewrite (H a (or_introl eq_refl)), IH; [reflexivity |].
  intros b Hb. apply H. now right.
Qed.

(** The rows of the concatenation, frame by frame, and their cells. *)
Lemma concat_cells (frames : list table) (df : table) :
  concat frames = Ok df ->
  exists lay : table -> list cell -> list cell,
    rows df = flat_map (fun t => map (lay t) (rows t)) frames
    /\ forall t r c, In t frames -> In c (columns df) ->
         cell_at df c (lay t r) = cell_at t c r.
Proof.
  unfold concat. destruct frames as [|f fs]; [discriminate |].
  destruct (forallb (same_labels f) fs) eqn:Same.
  - intros E. injection E as <-. exists (fun _ r => r). split.
    + change (flat_map rows (f :: fs)
              = flat_map (fun t => map (fun r => r) (rows t)) (f :: fs)).
      apply flat_map_ext_in. intros a _. now rewrite map_id.
    + intros t r c Ht _. apply cell_at_same_columns. cbn [columns].
      destruct Ht as [<- | Ht]; [reflexivity |].
      rewrite forallb_forall in Same. now apply same_labels_eq, Same.
  - destruct (forallb (fun g => unique_labels (columns g)) (f :: fs)); [| discriminate].
    intros E. injection E as <-.
    exists (relabel (union_labels (f :: fs))). split; [reflexivity |].
    intros t r c _ Hc. now apply cell_at_relabel.
Qed.

Lemma cell_at_absent (t : table) (c : pystr) (r : list cell) :
  ~ In c (columns t) -> cell_at t c r = NaN.
Proof. intros H. unfold cell_at. apply index_of_absent in H. now rewrite H. Qed.

Lemma cells_of_cell_at (t : table) (c : pystr) :
  In c (columns t) -> cells_of t c = map (cell_at t c) (rows t).
Proof.
  intros H. apply mem_In, mem_index_of in H as [i Hi].
  rewrite (cells_of_index _ _ _ Hi). unfold cell_at. now rewrite Hi.
Qed.

(** X1.  [pd.concat] keeps every cell.  The rows of the result are the
    rows of the frames, frame after frame and in their order; under each
    label of the result a row shows the cell it had in its frame, and NaN
    when its frame has no such label.  The labels of the result are the
    labels of the frames. *)
Theorem concat_keeps_cells (frames : list table) (df : table) :
  concat frames = Ok df ->
  (forall c, In c (columns df) <-> exists t, In t frames /\ In c (columns t))
  /\ exists lay : table -> list cell -> list cell,
       rows df = flat_map (fun t => map (lay t) (rows t)) frames
       /\ (forall t r c, In t frames -> In c (columns df) ->
             cell_at df c (lay t r) = cell_at t c r)
       /\ (forall t r c, In t frames -> In c (columns df) -> ~ In c (columns t) ->
             cell_at df c (lay t r) = NaN).
Proof.
  intros H. split.
  - intros c. split; [now apply concat_columns |].
    intros [t [Ht Hc]]. now apply (concat_keeps_labels frames df t c).
  - destruct (concat_cells frames df H) as [lay [R C]].
    exists lay. split; [exact R |]. split; [exact C |].
    intros t r c Ht Hc N. rewrite (C t r c Ht Hc). now apply cell_at_absent.
Qed.

Lemma concat_keeps_cells_witness :
  In (py "score") (columns df_ac) <->
  exists t, In t (map (load_frame plain) [a_csv; c_csv]) /\ In (py "score") (columns t).
Proof.
  apply (concat_keeps_cells (map (load_frame plain) [a_csv; c_csv]) df_ac). reflexivity.
Defined.

(** *** The [source_file] column *)

Lemma index_of_map_injective (g : pystr -> pystr) (x : pystr) (l : list pystr) (i : nat) :
  NoDup (map g l) -> index_of x l = Some i -> index_of (g x) (map g l) = Some i.
Proof.
  revert i. induction l as [|a l IH]; intros i N; simpl; [discriminate |].
  inversion N as [| ? ? Na Nl]; subst.
  destruct (pystr_eqb x a) eqn:E.
  - apply pystr_eqb_eq in E. subst. now rewrite pystr_eqb_refl.
  - destruct (index_of x l) as [j|] eqn:Hj; [| discriminate].
    intros H. injection H as <-.
    destruct (pystr_eqb (g x) (g a)) eqn:G.
    + exfalso. apply Na. apply pystr_eqb_eq in G. rewrite <- G.
      apply in_map. apply index_of_nth in Hj. now apply nth_error_In in Hj.
    + now rewrite (IH j Nl eq_refl).
Qed.

Lemma index_of_snoc (c : pystr) (l : list pystr) :
  index_of c l = None -> index_of c (l ++ [c]) = Some (length l).
Proof.
  induction l as [|a l IH]; simpl.
  - now rewrite pystr_eqb_refl.
  - destruct (pystr_eqb c a); [discriminate |].
    destruct (index_of c l); [discriminate |]. intros _. now rewrite IH.
Qed.

Lemma at_col_replace_at (i : nat) (v : cell) (r : list cell) :
  i < length r -> at_col i (replace_at i v r) = v.
Proof.
  unfold at_col. revert r. induction i as [|i IH]; intros [|x r]; simpl; try lia.
  - reflexivity.
  - intros H. apply IH. lia.
Qed.

Lemma at_col_snoc (v : cell) (r : list cell) : at_col (length r) (r ++ [v]) = v.
Proof.
  unfold at_col. rewrite app_nth2 by lia. now rewrite Nat.sub_diag.
Qed.

(** Line 56 on a rectangular table: afterwards every row shows [v] under [c]. *)
Lemma set_column_cell (c : pystr) (v : cell) (t : table) :
  Forall (fun r => length r = length (columns t)) (rows t) ->
  exists i,
    index_of c (columns (set_column c v t)) = Some i
    /\ forall r, In r (rows (set_column c v t)) -> at_col i r = v.
Proof.
  intros W. rewrite Forall_forall in W. unfold set_column.
  destruct (index_of c (columns t)) as [i|] eqn:Hi; cbn [columns rows].
  - exists i. split; [exact Hi |]. intros r Hr.
    apply in_map_iff in Hr as [r0 [<- Hr0]]. apply at_col_replace_at.
    rewrite (W r0 Hr0). now apply (index_of_lt c).
  - exists (length (columns t)). split; [now apply index_of_snoc |].
    intros r Hr. apply in_map_iff in Hr as [r0 [<- Hr0]].
    rewrite <- (W r0 Hr0). apply at_col_snoc.
Qed.

Lemma load_frame_source_cell (U : unicode) (f : csv_file) (r : list cell) :
  well_formed f -> unique_labels (columns (load_frame U f)) = true ->
  In r (rows (load_frame U f)) ->
  cell_at (load_frame U f) (py "source_file") r = Str (name f).
Proof.
  intros W N Hr. apply unique_labels_NoDup in N.
  destruct (set_column_cell (py "source_file") (Str (name f))
              (read_csv f) W) as [i [Hi Hc]].
  unfold cell_at, load_frame in *. cbn [columns rows] in *.
  rewrite <- (normalize_source_file U) at 1.
  rewrite (index_of_map_injective (normalize U) _ _ i N Hi). now apply Hc.
Qed.

Lemma map_const_repeat {A B : Type} (g : A -> B) (v : B) (l : list A) :
  (forall x, In x l -> g x = v) -> map g l = repeat v (length l).
Proof.
  intros H. induction l as [|a l IH]; simpl; [reflexivity |].
  rewrite (H a (or_introl eq_refl)), IH; [reflexivity |]. intros x Hx. apply H. now right.
Qed.

Lemma flat_map_map {A B C : Type} (f : A -> B) (g : B -> list C) (l : list A) :
  flat_map g (map f l) = flat_map (fun a => g (f a)) l.
Proof. induction l as [|a l IH]; simpl; [reflexivity | now rewrite IH]. Qed.

Lemma map_flat_map {A B C : Type} (g : B -> C) (f : A -> list B) (l : list A) :
  map g (flat_map f l) = flat_map (fun a => map g (f a)) l.
Proof. induction l as [|a l IH]; simpl; [reflexivity | now rewrite map_app, IH]. Qed.

Lemma source_file_cells (U : unicode) (csvs : list csv_file) (df : table) :
  load_data U csvs = Ok df -> distinct_labels U csvs -> Forall well_formed csvs ->
  cells_of df (py "source_file")
  = flat_map (fun f => repeat (Str (name f)) (length (body f))) csvs.
Proof.
  intros L D W. pose proof (load_data_has_source_file U csvs df L) as HS.
  apply mem_In in HS. rewrite (cells_of_cell_at df _ HS).
  unfold load_data in L. destruct (concat_cells _ _ L) as [lay [R C]].
  rewrite R, map_flat_map, flat_map_map.
  unfold distinct_labels in D. rewrite Forall_forall in D, W.
  apply flat_map_ext_in. intros f Hf. rewrite map_map.
  rewrite <- (load_frame_nrows U f). unfold nrows. apply map_const_repeat.
  intros r Hr. rewrite C; [| now apply in_map | exact HS].
  apply load_frame_source_cell; [now apply W | now apply D | exact Hr].
Qed.

(** X2.  Every row of the Unified Table names its file.  For rectangular
    files without a repeated normalized header, the [source_file] column
    reads, file after file, the name of the file once per row of it. *)
Theorem rows_name_their_file (U : unicode) (csvs : list csv_file) (df : table) :
  load_data U csvs = Ok df -> distinct_labels U csvs -> Forall well_formed csvs ->
  cells_of df (py "source_file")
  = flat_map (fun f => repeat (Str (name f)) (length (body f))) csvs.
Proof. apply source_file_cells. Qed.

Lemma rows_name_their_file_witness :
  cells_of df_ab (py "source_file")
  = flat_map (fun f => repeat (Str (name f)) (length (body f))) [a_csv; b_csv].
Proof.
  apply (rows_name_their_file plain [a_csv; b_csv] df_ab).
  - reflexivity.
  - repeat constructor.
  - repeat constructor.
Defined.

(** ** The dataset selector *)

Lemma cell_eqb_Str (a s : pystr) : cell_eqb (Str a) (Str s) = true <-> a = s.
Proof.
  rewrite cell_eqb_spec. split; [intros [_ E]; now injection E | intros ->; split; [discriminate | reflexivity]].
Qed.

Lemma filter_nothing {A : Type} (p : A -> bool) (l : list A) :
  (forall x, In x l -> p x = false) -> filter p l = [].
Proof.
  intros H. induction l as [|a l IH]; simpl; [reflexivity |].
  rewrite (H a (or_introl eq_refl)). apply IH. intros x Hx. apply H. now right.
Qed.

Lemma filter_repeat_name (s a : pystr) (n : nat) :
  filter (fun c => cell_eqb c (Str s)) (repeat (Str a) n)
  = if pystr_eqb a s then repeat (Str a) n else [].
Proof.
  destruct (pystr_eqb a s) eqn:E.
  - apply filter_id. intros x Hx. apply repeat_spec in Hx. subst x.
    apply cell_eqb_Str. now apply pystr_eqb_eq.
  - apply filter_nothing. intros x Hx. apply repeat_spec in Hx. subst x.
    apply not_true_is_false. intros X. apply cell_eqb_Str in X.
    apply pystr_eqb_neq in E. contradiction.
Qed.

Lemma filter_other_files (s : pystr) (csvs : list csv_file) :
  ~ In s (map name csvs) ->
  filter (fun c => cell_eqb c (Str s))
         (flat_map (fun f => repeat (Str (name f)) (length (body f))) csvs) = [].
Proof.
  intros H. induction csvs as [|a l IH]; simpl; [reflexivity |].
  rewrite filter_app, filter_repeat_name.
  replace (pystr_eqb (name a) s) with false.
  - apply IH. intros X. apply H. now right.
  - symmetry. apply pystr_eqb_neq. intros E. apply H. now left.
Qed.

Lemma filter_one_file (f : csv_file) (csvs : list csv_file) :
  NoDup (map name csvs) -> In f csvs ->
  length (filter (fun c => cell_eqb c (Str (name f)))
                 (flat_map (fun g => repeat (Str (name g)) (length (body g))) csvs))
  = length (body f).
Proof.
  induction csvs as [|a l IH]; simpl; intros N H; [contradiction |].
  inversion N as [| ? ? Na Nl]; subst.
  rewrite filter_app, length_app, filter_repeat_name. destruct H as [-> | H].
  - rewrite pystr_eqb_refl, repeat_length, (filter_other_files _ _ Na). simpl. lia.
  - replace (pystr_eqb (name a) (name f)) with false.
    + simpl. now apply IH.
    + symmetry. apply pystr_eqb_neq. intros E. apply Na. rewrite E. now apply in_map.
Qed.

Lemma filter_on_column {A : Type} (p : cell -> bool) (g : A -> cell) (l : list A) :
  length (filter (fun r => p (g r)) l) = length (filter p (map g l)).
Proof. now rewrite filter_map_swap, length_map. Qed.

(** X3.  Picking a file in the selector shows that file's rows: for
    rectangular files with distinct names and without a repeated
    normalized header, the source filter returns, and the view has as
    many rows as the file. *)
Theorem selecting_a_file (U : unicode) (csvs : list csv_file) (df : table) (f : csv_file) :
  load_data U csvs = Ok df -> distinct_labels U csvs -> Forall well_formed csvs ->
  NoDup (map name csvs) -> In f csvs -> name f <> py "All" ->
  exists df_view,
    source_filter df (name f) = Ok df_view
    /\ view_of df_view df
    /\ nrows df_view = length (body f).
Proof.
  intros L D W N Hf NA.
  pose proof (load_data_has_source_file U csvs df L) as HS.
  pose proof (source_file_cells U csvs df L D W) as HC.
  apply mem_index_of in HS as [i Hi]. rewrite (cells_of_index _ _ _ Hi) in HC.
  unfold source_filter. apply pystr_eqb_neq in NA. rewrite NA, Hi. simpl.
  eexists. split; [reflexivity |]. split; [apply view_of_keep_rows |].
  unfold nrows, keep_rows. cbn [rows].
  rewrite (filter_on_column (fun c => cell_eqb c (Str (name f))) (at_col i)), HC.
  now apply filter_one_file.
Qed.

Lemma selecting_a_file_witness :
  exists df_view,
    source_filter df_ab (py "a.csv") = Ok df_view
    /\ view_of df_view df_ab
    /\ nrows df_view = 3.
Proof.
  apply (selecting_a_file plain [a_csv; b_csv] df_ab a_csv).
  - reflexivity.
  - repeat constructor.
  - repeat constructor.
  - repeat constructor; simpl; intuition discriminate.
  - now left.
  - discriminate.
Defined.

(** *** The options of the selector (line 78) *)

Lemma pystr_leb_total (a b : pystr) : pystr_leb a b = false -> pystr_leb b a = true.
Proof.
  revert b. induction a as [|x a IH]; intros [|y b]; simpl; try congruence.
  destruct (x <? y)%N eqn:E1; [discriminate |].
  destruct (y <? x)%N eqn:E2; [reflexivity |]. apply IH.
Qed.

Lemma pystr_leb_trans (a b c : pystr) :
  pystr_leb a b = true -> pystr_leb b c = true -> pystr_leb a c = true.
Proof.
  revert b c. induction a as [|x a IH]; intros [|y b] [|z c]; simpl; try congruence.
  destruct (x <? y)%N eqn:Exy, (y <? z)%N eqn:Eyz, (x <? z)%N eqn:Exz;
    destruct (y <? x)%N eqn:Eyx, (z <? y)%N eqn:Ezy, (z <? x)%N eqn:Ezx;
    try reflexivity; try congruence;
    rewrite ?N.ltb_lt, ?N.ltb_ge in *; try lia.
  intros H1 H2. eapply IH; eassumption.
Qed.

Lemma texts_In (cells : list cell) (s : pystr) : In s (texts cells) <-> In (Str s) cells.
Proof.
  unfold texts. rewrite in_flat_map. split.
  - intros [c [Hc Hs]]. destruct c; simpl in Hs; try contradiction.
    destruct Hs as [<- | []]. exact Hc.
  - intros H. exists (Str s). split; [exact H | now left].
Qed.

Lemma source_names_In (csvs : list csv_file) (s : pystr) :
  In (Str s) (flat_map (fun f => repeat (Str (name f)) (length (body f))) csvs)
  <-> exists f, In f csvs /\ body f <> [] /\ name f = s.
Proof.
  rewrite in_flat_map. split.
  - intros [f [Hf Hr]]. exists f. split; [exact Hf |].
    pose proof (repeat_spec _ _ _ Hr) as E. injection E as ->. split; [| reflexivity].
    intros B. rewrite B in Hr. contradiction.
  - intros [f [Hf [B <-]]]. exists f. split; [exact Hf |].
    destruct (body f); [congruence | now left].
Qed.

(** X4.  The selector offers "All" and then the names of the files that
    have at least one row, each once and in lexicographic order; a file
    with a header and no row is not offered. *)
Theorem selector_options (U : unicode) (csvs : list csv_file) (df : table) :
  load_data U csvs = Ok df -> distinct_labels U csvs -> Forall well_formed csvs ->
  exists names,
    source_options df = Ok (py "All" :: names)
    /\ NoDup names
    /\ StronglySorted (fun a b => pystr_leb a b = true) names
    /\ forall s, In s names <-> exists f, In f csvs /\ body f <> [] /\ name f = s.
Proof.
  intros L D W.
  pose proof (load_data_has_source_file U csvs df L) as HS.
  pose proof (source_file_cells U csvs df L D W) as HC.
  apply mem_index_of in HS as [i Hi]. rewrite (cells_of_index _ _ _ Hi) in HC.
  unfold source_options, column_values. rewrite Hi. simpl.
  eexists. split; [reflexivity |]. split; [| split].
  - apply (Permutation_NoDup (l := nodup pystr_eq_dec (texts (map (at_col i) (rows df))))).
    + symmetry. apply sort_by_perm.
    + apply NoDup_nodup.
  - apply sort_by_sorted; [apply pystr_leb_total | apply pystr_leb_trans].
  - intros s. rewrite sort_by_In, nodup_In, texts_In, HC. apply source_names_In.
Qed.

Lemma selector_options_witness :
  exists names,
    source_options df_ab = Ok (py "All" :: names)
    /\ NoDup names
    /\ StronglySorted (fun a b => pystr_leb a b = true) names
    /\ forall s, In s names <->
                 exists f, In f [a_csv; b_csv] /\ body f <> [] /\ name f = s.
Proof.
  apply (selector_options plain [a_csv; b_csv] df_ab).
  - reflexivity.
  - repeat constructor.
  - repeat constructor.
Defined.

(** ** More on the Filter Engine *)

Lemma filter_filter {A : Type} (f g : A -> bool) (l : list A) :
  filter g (filter f l) = filter (fun x => f x && g x) l.
Proof.
  induction l as [|x l IH]; simpl; [reflexivity |].
  destruct (f x); simpl; [destruct (g x) |]; now rewrite IH.
Qed.

Lemma subseq_filter_impl {A : Type} (f g : A -> bool) (l : list A) :
  (forall x, In x l -> f x = true -> g x = true) -> subseq (filter f l) (filter g l).
Proof.
  intros H. induction l as [|x l IH]; simpl; [constructor |].
  assert (IH' : subseq (filter f l) (filter g l)).
  { apply IH. intros y Hy. apply H. now right. }
  destruct (f x) eqn:F.
  - rewrite (H x (or_introl eq_refl) F). now constructor.
  - destruct (g x); [now constructor | exact IH'].
Qed.

(** When the engine returns, the slider has let the range through and
    the two masks have been applied. *)
Lemma filter_engine_steps (U : unicode) (df : table) (source : pystr) (yr_rng : Z * Z)
      (df_view : table) :
  filter_engine U df source yr_rng = Ok df_view ->
  exists w,
    source_filter df source = Ok w
    /\ if has_year w then year_filter w yr_rng = Ok df_view else df_view = w.
Proof.
  unfold filter_engine, filter_section.
  destruct (source_filter df source) as [w|]; [| discriminate]. simpl.
  intros H. exists w. split; [reflexivity |].
  destruct (has_year w).
  - destruct (year_bounds U w) as [span|]; [| discriminate]. simpl in H.
    unfold slider in H. destruct (accepts span); [| discriminate]. exact H.
  - now injection H as <-.
Qed.

(** The rows the engine keeps, by one mask over the rows of the table. *)
Lemma filter_engine_mask (U : unicode) (df : table) (source : pystr) (yr_rng : Z * Z)
      (df_view : table) :
  filter_engine U df source yr_rng = Ok df_view ->
  columns df_view = columns df
  /\ rows df_view
     = filter (fun r => source_matches df source r && year_matches df yr_rng r) (rows df).
Proof.
  intros H. apply filter_engine_steps in H as [w [S Y]]. revert S Y.
  unfold source_filter, source_matches, year_matches, has_year, year_filter, cell_at.
  destruct (pystr_eqb source (py "All")); simpl.
  - intros E. injection E as <-.
    destruct (mem (py "year") (columns df)) eqn:HY; simpl.
    + destruct (index_of (py "year") (columns df)) as [j|]; [| discriminate].
      destruct (existsb _ _); [discriminate |].
      intros E. injection E as <-. now split.
    + intros ->. split; [reflexivity |].
      symmetry. now apply filter_id.
  - destruct (index_of (py "source_file") (columns df)) as [i|]; [| discriminate].
    intros E. injection E as <-. cbn [columns keep_rows].
    destruct (mem (py "year") (columns df)) eqn:HY; simpl.
    + destruct (index_of (py "year") (columns df)) as [j|]; [| discriminate].
      destruct (existsb _ _); [discriminate |].
      intros E. injection E as <-. split; [reflexivity |]. cbn [rows keep_rows].
      apply filter_filter.
    + intros ->. split; [reflexivity |]. cbn [rows keep_rows].
      apply filter_ext. intros r. now rewrite andb_true_r.
Qed.

(** Whether the engine raises does not depend on the range. *)
Lemma filter_engine_returns_any_range (U : unicode) (df : table) (source : pystr)
      (r1 r2 : Z * Z) (v : table) :
  filter_engine U df source r1 = Ok v -> exists v', filter_engine U df source r2 = Ok v'.
Proof.
  unfold filter_engine, filter_section.
  destruct (source_filter df source) as [w|]; [| discriminate]. simpl.
  destruct (has_year w); [| intros _; now exists w].
  destruct (year_bounds U w) as [span|]; [| discriminate]. simpl.
  unfold slider. destruct (accepts span); [| discriminate]. simpl.
  unfold year_filter. destruct (index_of (py "year") (columns w)); [| discriminate].
  destruct (existsb _ _); [discriminate |]. intros _. eexists; reflexivity.
Qed.

Lemma in_range_wider (lo hi lo' hi' : Z) (c : cell) :
  (lo' <= lo)%Z -> (hi <= hi')%Z ->
  in_range (lo, hi) c = true -> in_range (lo', hi') c = true.
Proof.
  intros Hl Hh. rewrite !in_range_spec. cbn [fst snd].
  intros [q [-> [L H]]]. exists q. split; [reflexivity |]. split.
  - eapply Qle_trans; [| exact L]. now rewrite <- Zle_Qle.
  - eapply Qle_trans; [exact H |]. now rewrite <- Zle_Qle.
Qed.

(** X5.  The Filter Engine keeps, in order, exactly the rows of the table
    that pass both masks: the source (any row under "All") and, when
    there is a year column, the year within the range. *)
Theorem filter_engine_keeps_matching_rows
        (U : unicode) (df : table) (source : pystr) (yr_rng : Z * Z) (df_view : table) :
  filter_engine U df source yr_rng = Ok df_view ->
  columns df_view = columns df
  /\ rows df_view
     = filter (fun r => source_matches df source r && year_matches df yr_rng r) (rows df)
  /\ forall r, In r (rows df_view) <->
               In r (rows df)
               /\ (source = py "All" \/ cell_at df (py "source_file") r = Str source)
               /\ (has_year df = false
                   \/ exists q, cell_at df (py "year") r = Num q
                                /\ (inject_Z (fst yr_rng) <= q)%Q
                                /\ (q <= inject_Z (snd yr_rng))%Q).
Proof.
  intros H. destruct (filter_engine_mask U df source yr_rng df_view H) as [C R].
  split; [exact C |]. split; [exact R |].
  intros r. rewrite R, filter_In, andb_true_iff.
  unfold source_matches, year_matches.
  rewrite !orb_true_iff, negb_true_iff, pystr_eqb_eq, cell_eqb_spec, in_range_spec.
  split.
  - intros [Hr [[S | [_ S]] Y]]; (split; [exact Hr |]); (split; [| exact Y]); auto.
  - intros [Hr [[S | S] Y]]; (split; [exact Hr |]); (split; [| exact Y]); auto.
    right. split; [| exact S]. rewrite S. discriminate.
Qed.

Lemma filter_engine_keeps_matching_rows_witness :
  exists df_view,
    filter_engine plain df_ab (py "a.csv") (2000, 2005)%Z = Ok df_view
    /\ nrows df_view = 2
    /\ rows df_view
       = filter (fun r => source_matches df_ab (py "a.csv") r
                          && year_matches df_ab (2000, 2005)%Z r) (rows df_ab).
Proof.
  exists (match filter_engine plain df_ab (py "a.csv") (2000, 2005)%Z with
          | Ok v => v
          | Raised => df_ab
          end).
  assert (E : filter_engine plain df_ab (py "a.csv") (2000, 2005)%Z
              = Ok (match filter_engine plain df_ab (py "a.csv") (2000, 2005)%Z with
                    | Ok v => v
                    | Raised => df_ab
                    end)) by (vm_compute; reflexivity).
  split; [exact E |]. split; [vm_compute; reflexivity |].
  apply (filter_engine_keeps_matching_rows plain df_ab (py "a.csv") (2000, 2005)%Z _ E).
Defined.

(** X6.  Widening the year range never loses a row: when the engine
    returns on a range it returns on every wider one, with a view that
    contains the first. *)
Theorem wider_range_keeps_more
        (U : unicode) (df : table) (source : pystr) (lo hi lo' hi' : Z) (df_view : table) :
  (lo' <= lo)%Z -> (hi <= hi')%Z ->
  filter_engine U df source (lo, hi) = Ok df_view ->
  exists wider,
    filter_engine U df source (lo', hi') = Ok wider
    /\ view_of df_view wider.
Proof.
  intros Hl Hh H.
  destruct (filter_engine_returns_any_range U df source (lo, hi) (lo', hi') df_view H) as [w Hw].
  exists w. split; [exact Hw |].
  destruct (filter_engine_mask _ _ _ _ _ H) as [C R].
  destruct (filter_engine_mask _ _ _ _ _ Hw) as [C' R'].
  split; [congruence |]. rewrite R, R'. apply subseq_filter_impl.
  intros r _. rewrite !andb_true_iff. intros [S Y]. split; [exact S |].
  unfold year_matches in *. apply orb_true_iff in Y as [Y | Y]; apply orb_true_iff;
    [now left | right]. now apply (in_range_wider lo hi).
Qed.

Lemma wider_range_keeps_more_witness :
  exists wider,
    filter_engine plain df_ab (py "All") (1990, 2010)%Z = Ok wider
    /\ forall df_view, filter_engine plain df_ab (py "All") (2000, 2005)%Z = Ok df_view ->
                       nrows df_view <= nrows wider.
Proof.
  set (v := keep_rows (fun r => in_range (2000, 2005)%Z (at_col 1 r)) df_ab).
  assert (E : filter_engine plain df_ab (py "All") (2000, 2005)%Z = Ok v)
    by (vm_compute; reflexivity).
  destruct (wider_range_keeps_more plain df_ab (py "All") 2000 2005 1990 2010 v) as [w [Hw V]];
    [lia | lia | exact E |].
  exists w. split; [exact Hw |]. intros v' Hv'. rewrite E in Hv'. injection Hv' as <-.
  now apply view_of_nrows.
Defined.

(** *** The span of the slider *)

Open Scope Z_scope.

Lemma quot_mono (n1 n2 : Z) (d1 d2 : positive) :
  (n1 * Z.pos d2 <= n2 * Z.pos d1)%Z ->
  (Z.quot n1 (Z.pos d1) <= Z.quot n2 (Z.pos d2))%Z.
Proof.
  intros H.
  pose proof (Z.quot_rem' n1 (Z.pos d1)) as E1.
  pose proof (Z.quot_rem' n2 (Z.pos d2)) as E2.
  pose proof (Pos2Z.is_pos d1) as P1. pose proof (Pos2Z.is_pos d2) as P2.
  set (q1 := Z.quot n1 (Z.pos d1)) in *. set (q2 := Z.quot n2 (Z.pos d2)) in *.
  set (r1 := Z.rem n1 (Z.pos d1)) in *. set (r2 := Z.rem n2 (Z.pos d2)) in *.
  set (a := Z.pos d1) in *. set (b := Z.pos d2) in *.
  destruct (Z_le_gt_dec q1 q2) as [L | G]; [exact L | exfalso].
  assert (Hab : 0 < a * b) by nia.
  destruct (Z_le_gt_dec 0 n1) as [S1 | S1], (Z_le_gt_dec 0 n2) as [S2 | S2].
  - pose proof (Z.rem_bound_pos n1 a S1 P1) as B1.
    pose proof (Z.rem_bound_pos n2 b S2 P2) as B2. fold r1 in B1. fold r2 in B2.
    assert (K1 : a * b * (q2 + 1) <= a * b * q1) by (apply Z.mul_le_mono_nonneg_l; lia).
    assert (K2 : a * r2 < a * b) by (apply Z.mul_lt_mono_pos_l; lia).
    assert (K3 : 0 <= b * r1) by nia.
    nia.
  - nia.
  - assert (Hq1 : (q1 <= 0)%Z) by (apply Z.quot_le_upper_bound; lia).
    assert (Hq2 : (0 <= q2)%Z) by (apply Z.quot_pos; lia).
    lia.
  - pose proof (Z.rem_bound_pos_neg n1 a P1 ltac:(lia)) as B1.
    pose proof (Z.rem_bound_pos_neg n2 b P2 ltac:(lia)) as B2. fold r1 in B1. fold r2 in B2.
    assert (K1 : a * b * (q2 + 1) <= a * b * q1) by (apply Z.mul_le_mono_nonneg_l; lia).
    assert (K2 : - (a * b) < b * r1) by nia.
    assert (K3 : a * r2 <= 0) by nia.
    nia.
Qed.

Close Scope Z_scope.

Lemma py_int_mono (x y : Qc) : (x <= y)%Qc -> (py_int x <= py_int y)%Z.
Proof.
  unfold Qcle, Qle, py_int. apply quot_mono.
Qed.

(** X7.  Whenever line 89 yields a span from a year column that holds
    no text, its lower end does not exceed its upper end; the slider
    takes the span only when the ends differ and are numbers it
    accepts. *)
Theorem year_bounds_ordered (U : unicode) (df_view : table) (yr_min yr_max : Z) :
  existsb is_text (cells_of df_view (py "year")) = false ->
  year_bounds U df_view = Ok (yr_min, yr_max) ->
  (yr_min <= yr_max)%Z
  /\ (forall pick yr_rng,
        slider (yr_min, yr_max) pick = Ok yr_rng ->
        (yr_min < yr_max)%Z /\ is_safe yr_min = true /\ is_safe yr_max = true).
Proof.
  intros NT. unfold year_bounds, cells_of in *.
  destruct (column_values df_view (py "year")) as [years|]; [| discriminate].
  simpl. rewrite (no_text_texts _ NT).
  destruct (series_min (numbers years)) as [lo|] eqn:Emin; [| discriminate].
  destruct (series_max (numbers years)) as [hi|] eqn:Emax; [| discriminate].
  intros E. injection E as <- <-. split.
  - apply py_int_mono.
    apply series_min_spec in Emin as [Imin Lmin].
    apply series_max_spec in Emax as [Imax _]. now apply Lmin.
  - intros pick rng H. apply slider_spec in H as [A _]. unfold accepts in A.
    cbn [fst snd] in A. apply andb_true_iff in A as [A A3].
    apply andb_true_iff in A as [A1 A2]. apply Z.ltb_lt in A1. now split.
Qed.

Example load_s : load_data plain [s_csv] = Ok df_s.
Proof. reflexivity. Qed.

(** On a column of texts that [int()] reads, line 89 returns and the
    span follows the order of the strings: the years "9_0" and "1_00"
    give (100, 90).  The slider refuses that span, and line 91 could not
    compare a text with a number anyway. *)
Example text_years_out_of_order :
  year_bounds plain df_s = Ok (100, 90)%Z
  /\ slider (100, 90)%Z None = Raised
  /\ year_filter df_s (100, 90)%Z = Raised
  /\ filter_section plain df_s (py "All") None = Raised.
Proof. repeat split; reflexivity. Qed.

Lemma year_bounds_ordered_witness :
  year_bounds plain df_ab = Ok (1990, 2010)%Z /\ (1990 <= 2010)%Z.
Proof.
  split; [reflexivity |].
  apply (year_bounds_ordered plain df_ab 1990 2010); reflexivity.
Defined.

(** ** More on the charts *)

Lemma entry_eq_dec (a b : cell * cell) : {a = b} + {a <> b}.
Proof. decide equality; apply cell_eq_dec. Defined.

(** Cutting a sorted series after [n] entries: what is cut off comes
    after everything that is kept. *)
Lemma firstn_sorted_rest (P : pandas) (ascending : bool) (n : nat) (s : series)
      (e e' : cell * cell) :
  In e (firstn n (sort_values P ascending s)) ->
  In e' s -> ~ In e' (firstn n (sort_values P ascending s)) ->
  value_leb ascending (snd e) (snd e') = true.
Proof.
  apply cut_sorted_rest; [apply sort_values_perm | apply sort_values_ordered].
Qed.

(** X8.  The Bar Chart shows the top of the ranking.  Under "Highest
    First" no category that is left out has a higher mean than a category
    that is shown (no lower one under "Lowest First"); and a category
    without any metric value is shown only when every category that has a
    mean is shown too. *)
Theorem bar_chart_shows_the_top
        (P : pandas) (df_view : table) (metric : pystr) (top_n : nat) (srt : bool)
        (agg : series) :
  bar_chart P df_view (Some metric) top_n srt = Ok agg ->
  exists cat s,
    category df_view = Ok cat
    /\ groupby_mean P df_view cat metric = Ok s
    /\ (forall k x k' y,
          In (k, Num x) agg -> In (k', Num y) s -> ~ In (k', Num y) agg ->
          if srt then (y <= x)%Qc else (x <= y)%Qc)
    /\ (forall k k' y,
          In (k, NaN) agg -> In (k', Num y) s -> In (k', Num y) agg).
Proof.
  unfold bar_chart. destruct (category df_view) as [cat|]; [| discriminate]. simpl.
  destruct (groupby_mean P df_view cat metric) as [s|] eqn:Es; [| discriminate]. simpl.
  intros E. injection E as <-. exists cat, s. split; [reflexivity |]. split; [exact Es |].
  unfold head. split.
  - intros k x k' y H1 H2 H3.
    pose proof (firstn_sorted_rest P (negb srt) top_n s _ _ H1 H2 H3) as V.
    apply value_leb_numbers in V. now destruct srt.
  - intros k k' y H1 H2.
    destruct (in_dec entry_eq_dec (k', Num y) (firstn top_n (sort_values P (negb srt) s)))
      as [I | N];
      [exact I | exfalso].
    pose proof (firstn_sorted_rest P (negb srt) top_n s _ _ H1 H2 N) as V.
    simpl in V. destruct srt; discriminate V.
Qed.

Lemma bar_chart_shows_the_top_witness :
  exists agg cat s,
    bar_chart modern df_ab (Some (py "gap_")) 2 true = Ok agg
    /\ index agg = [txt "Y"; txt "X"]
    /\ category df_ab = Ok cat
    /\ groupby_mean modern df_ab cat (py "gap_") = Ok s.
Proof.
  set (agg := match bar_chart modern df_ab (Some (py "gap_")) 2 true with
              | Ok agg => agg
              | Raised => []
              end).
  assert (E : bar_chart modern df_ab (Some (py "gap_")) 2 true = Ok agg)
    by (vm_compute; reflexivity).
  destruct (bar_chart_shows_the_top modern df_ab (py "gap_") 2 true agg E)
    as [cat [s [Hc [Hs _]]]].
  exists agg, cat, s. split; [exact E |]. split; [vm_compute; reflexivity |].
  split; assumption.
Defined.

(** *** The order of the groups *)

Lemma key_leb_total (a b : cell) : key_leb a b = false -> key_leb b a = true.
Proof.
  destruct a as [| x | s], b as [| y | t]; simpl; try congruence;
    [apply Qcleb_total | apply pystr_leb_total].
Qed.

Lemma key_leb_trans (a b c : cell) :
  key_leb a b = true -> key_leb b c = true -> key_leb a c = true.
Proof.
  destruct a as [| x | s], b as [| y | t], c as [| z | u]; simpl; try congruence.
  - apply Qcleb_trans.
  - apply pystr_leb_trans.
Qed.

Lemma groupby_mean_sorted (P : pandas) (df_view : table) (by_ col : pystr) (s : series) :
  groupby_mean P df_view by_ col = Ok s ->
  StronglySorted (fun a b => key_leb a b = true) (index s).
Proof.
  unfold groupby_mean.
  destruct (column_values df_view by_) as [keys|]; [| discriminate]. simpl.
  destruct (column_values df_view col) as [vals|]; [| discriminate]. simpl.
  destruct (existsb _ (combine keys vals)); [discriminate |].
  intros E. injection E as <-. unfold index. rewrite map_map. simpl.
  apply StronglySorted_map.
  apply (sort_by_sorted (cell * list cell) (fun a b => key_leb (fst a) (fst b))).
  - intros a b. apply key_leb_total.
  - intros a b c. apply key_leb_trans.
Qed.

Lemma StronglySorted_nth {A : Type} (R : A -> A -> Prop) (l : list A) (i j : nat) (a b : A) :
  StronglySorted R l -> i < j ->
  nth_error l i = Some a -> nth_error l j = Some b -> R a b.
Proof.
  intros S. revert i j. induction S as [| x l S IH F]; intros i j Hij Hi Hj.
  - destruct i; discriminate.
  - destruct j as [|j]; [lia |]. simpl in Hj. destruct i as [|i]; simpl in Hi.
    + injection Hi as <-. rewrite Forall_forall in F. apply F.
      now apply nth_error_In in Hj.
    + apply (IH i j); [lia | assumption | assumption].
Qed.

(** X9.  The points of the Trend line come in increasing year order:
    of two points whose years are numbers, the one drawn first has the
    strictly smaller year. *)
Theorem trend_points_in_year_order
        (P : pandas) (df_view : table) (tm : pystr) (grp : series) (i j : nat) (x y : Qc) :
  trend P df_view (Some tm) = Ok grp ->
  i < j ->
  nth_error (index grp) i = Some (Num x) ->
  nth_error (index grp) j = Some (Num y) ->
  (x < y)%Qc.
Proof.
  unfold trend. intros H Hij Hi Hj.
  pose proof (groupby_mean_sorted _ _ _ _ _ H) as S.
  destruct (groupby_mean_spec _ _ _ _ _ H) as [N _].
  pose proof (StronglySorted_nth _ _ i j _ _ S Hij Hi Hj) as L. simpl in L.
  apply Qcleb_le in L. apply Qcle_lt_or_eq in L as [L | E]; [exact L | exfalso].
  subst y. rewrite NoDup_nth_error in N.
  assert (i = j); [| lia]. apply N; [| congruence].
  apply nth_error_Some. congruence.
Qed.

Lemma trend_points_in_year_order_witness :
  (Q2Qc (inject_Z 1990) < Q2Qc (inject_Z 1995))%Qc.
Proof.
  set (grp := match trend modern df_ab (Some (py "gap_")) with
              | Ok grp => grp
              | Raised => []
              end).
  assert (E : trend modern df_ab (Some (py "gap_")) = Ok grp) by (vm_compute; reflexivity).
  apply (trend_points_in_year_order modern df_ab (py "gap_") grp 0 1 _ _ E).
  - lia.
  - vm_compute. reflexivity.
  - vm_compute. reflexivity.
Defined.

(** *** The Pie *)

(** X10.  The Pie shows the largest means: they come in non-increasing
    order, no mean that is present and left out exceeds one that is
    shown, and on the pandas releases that drop missing values no
    missing mean is shown. *)
Theorem pie_shows_the_largest (P : pandas) (df_view : table) (pie_data : series) :
  pie_chart P df_view = Ok (Some pie_data) ->
  exists cat g agg,
    category df_view = Ok cat
    /\ gap_col df_view = Some g
    /\ groupby_mean P df_view cat g = Ok agg
    /\ (exists qs k,
          values pie_data = map Num qs ++ repeat NaN k
          /\ StronglySorted (fun x y => (y <= x)%Qc) qs
          /\ (nlargest_keeps_nan P = false -> k = 0))
    /\ (forall k x k' y,
          In (k, Num x) pie_data -> In (k', Num y) agg -> ~ In (k', Num y) pie_data ->
          (y <= x)%Qc).
Proof.
  unfold pie_chart. destruct (gap_col df_view) as [[|ch g]|] eqn:Eg; try discriminate.
  destruct (category df_view) as [cat|]; [| discriminate]. simpl.
  destruct (groupby_mean P df_view cat (ch :: g)) as [agg|] eqn:Ea; [| discriminate]. simpl.
  destruct (is_object _); [discriminate |].
  intros E. injection E as <-. exists cat, (ch :: g), agg.
  split; [reflexivity |]. split; [reflexivity |]. split; [exact Ea |].
  destruct (groupby_mean_spec _ _ _ _ _ Ea) as [_ [_ [_ [_ F]]]].
  destruct (nlargest_spec P 8 agg F) as [_ [_ [Hsh Hrest]]].
  split; [exact Hsh | exact Hrest].
Qed.

Lemma pie_shows_the_largest_witness :
  exists pie_data cat g agg,
    pie_chart modern df_ab = Ok (Some pie_data)
    /\ index pie_data = [txt "Y"; txt "X"; txt "Z"]
    /\ category df_ab = Ok cat
    /\ gap_col df_ab = Some g
    /\ groupby_mean modern df_ab cat g = Ok agg.
Proof.
  set (pie_data := match pie_chart modern df_ab with
                   | Ok (Some s) => s
                   | _ => []
                   end).
  assert (E : pie_chart modern df_ab = Ok (Some pie_data)) by (vm_compute; reflexivity).
  destruct (pie_shows_the_largest modern df_ab pie_data E) as [cat [g [agg [Hc [Hg [Ha _]]]]]].
  exists pie_data, cat, g, agg. split; [exact E |]. split; [vm_compute; reflexivity |].
  split; [exact Hc |]. split; assumption.
Defined.

(** *** When a chart can be drawn *)

Lemma dtype_of_view (df_view df : table) (c : pystr) :
  view_of df_view df -> dtypes df_view = dtypes df -> dtype_of df_view c = dtype_of df c.
Proof. intros [C _] D. unfold dtype_of. now rewrite C, D. Qed.

(** What the "Metric" box offers: labels of columns typed numeric. *)
Lemma numeric_cols_spec (df : table) (numeric : list pystr) (m : pystr) :
  numeric_cols df = Ok numeric -> In m numeric ->
  In m (columns df) /\ dtype_of df m = Numeric.
Proof.
  unfold numeric_cols. destruct (unique_labels (columns df)); [| discriminate].
  intros E Hm. injection E as <-. apply filter_In in Hm as [Hc Hn].
  split; [exact Hc |]. unfold is_numeric in Hn. now destruct (dtype_of df m).
Qed.

Lemma no_text_in_view (df_view df : table) (m : pystr) :
  view_of df_view df -> existsb is_text (cells_of df m) = false ->
  existsb is_text (cells_of df_view m) = false.
Proof.
  intros [C S] T. unfold cells_of, column_values in *. rewrite C.
  destruct (index_of m (columns df)) as [i|]; [| reflexivity].
  apply not_true_is_false. intros X. apply existsb_exists in X as [c [Hc Tc]].
  apply in_map_iff in Hc as [r [<- Hr]].
  assert (Y : existsb is_text (map (at_col i) (rows df)) = true); [| congruence].
  apply existsb_exists. exists (at_col i r). split; [| exact Tc].
  apply in_map. eapply subseq_In; eassumption.
Qed.

(** A metric of the box can be averaged on every view of the table. *)
Lemma offered_metric (df df_view : table) (numeric : list pystr) (m : pystr) :
  well_typed df -> numeric_cols df = Ok numeric ->
  view_of df_view df -> dtypes df_view = dtypes df -> In m numeric ->
  mem m (columns df_view) = true
  /\ existsb is_text (cells_of df_view m) = false
  /\ dtype_of df_view m = Numeric.
Proof.
  intros W N V D Hm. destruct (numeric_cols_spec df numeric m N Hm) as [Hc Hd].
  split; [destruct V as [C _]; rewrite C; now apply mem_In |].
  split; [apply (no_text_in_view df_view df m V); now apply W |].
  now rewrite (dtype_of_view df_view df m V D).
Qed.

(** X11.  The Bar Chart is drawn exactly when the "Metric" box has an
    option at the user's pick and some row of the view has a category.
    With no numeric column, and on a view without such a row (an empty
    view among them), the view raises. *)
Theorem bar_chart_needs_a_numeric_column
        (P : pandas) (ui : inputs) (df df_view : table) (numeric : list pystr) :
  well_typed df -> numeric_cols df = Ok numeric ->
  view_of df_view df -> dtypes df_view = dtypes df ->
  view ui = BarChart -> 0 < top_n ui ->
  (metric_pick ui < length numeric ->
     exists cat,
       category df_view = Ok cat
       /\ (nunique (cells_of df_view cat) <> 0 ->
           exists agg,
             agg <> []
             /\ render P ui df_view numeric = Ok [card_open; Pyplot (Bars agg); card_close])
       /\ (nunique (cells_of df_view cat) = 0 -> render P ui df_view numeric = Raised))
  /\ (length numeric <= metric_pick ui -> render P ui df_view numeric = Raised).
Proof.
  intros W N V D B Top. unfold render. rewrite B. unfold selectbox. split.
  - intros L. destruct (nth_error numeric (metric_pick ui)) as [m|] eqn:E.
    2:{ apply nth_error_None in E. lia. }
    apply nth_error_In in E.
    destruct (offered_metric df df_view numeric m W N V D E) as [Hm [T Dm]].
    destruct (category_returns df_view m) as [cat [Ec Hc]]; [now apply mem_In |].
    destruct (groupby_mean_returns P df_view cat m Hc Hm T) as [s Es].
    destruct (groupby_mean_spec _ _ _ _ _ Es) as [_ [Ls [_ [_ F]]]].
    destruct (head_sort_values P (top_n ui) (negb (highest_first ui)) s F) as [Hl _].
    exists cat. split; [exact Ec |].
    unfold bar_chart. rewrite Ec. simpl. rewrite Es. simpl.
    set (agg := head (top_n ui) (sort_values P (negb (highest_first ui)) s)) in *.
    rewrite Ls in Hl. unfold plot_bar. split.
    + intros NZ. exists agg. destruct agg as [|e agg'] eqn:Ea.
      * simpl in Hl. lia.
      * split; [discriminate |]. now rewrite Dm.
    + intros Z. rewrite Z, Nat.min_0_r in Hl.
      destruct agg as [|e agg']; [reflexivity | discriminate Hl].
  - intros L. apply nth_error_None in L. rewrite L. unfold bar_chart.
    now destruct (category df_view).
Qed.

Lemma bar_chart_needs_a_numeric_column_witness :
  (exists agg, render modern ui_bar df_ab [py "year"; py "gap_"]
               = Ok [card_open; Pyplot (Bars agg); card_close])
  /\ filter_section plain df_ab (py "All") (Some (2001, 2002)%Z) = Ok df_ab_none
  /\ render modern ui_bar df_ab_none [py "year"; py "gap_"] = Raised.
Proof.
  assert (W : well_typed df_ab).
  { intros c [<- | [<- | [<- | [<- | []]]]] H; try discriminate H; reflexivity. }
  split; [| split].
  - destruct (bar_chart_needs_a_numeric_column modern ui_bar df_ab df_ab [py "year"; py "gap_"])
      as [H _]; [exact W | reflexivity | apply view_of_refl | reflexivity | reflexivity
                | simpl; lia |].
    destruct H as [cat [Ec [Hyes _]]]; [simpl; lia |].
    vm_compute in Ec. injection Ec as <-.
    destruct Hyes as [agg [_ E]]; [vm_compute; discriminate |]. now exists agg.
  - vm_compute. reflexivity.
  - destruct (bar_chart_needs_a_numeric_column modern ui_bar df_ab df_ab_none
                [py "year"; py "gap_"]) as [H _];
      [exact W | reflexivity | split; [reflexivity | repeat constructor] | reflexivity
      | reflexivity | simpl; lia |].
    destruct H as [cat [Ec [_ Hno]]]; [simpl; lia |].
    vm_compute in Ec. injection Ec as <-. apply Hno. reflexivity.
Defined.

(** *** From the files to the page *)

Lemma union_labels_NoDup (frames : list table) (acc : list pystr) :
  NoDup acc -> Forall (fun t => NoDup (columns t)) frames ->
  NoDup (fold_left (fun acc t => acc ++ filter (fun c => negb (mem c acc)) (columns t))
                   frames acc).
Proof.
  revert acc. induction frames as [|f fs IH]; intros acc Na F; simpl; [exact Na |].
  inversion F as [| ? ? Hf Hfs]; subst. apply IH; [| exact Hfs].
  apply NoDup_app; [exact Na | now apply NoDup_filter |].
  intros a Ha Hb. apply filter_In in Hb as [_ Hb]. apply negb_true_iff, mem_not_In in Hb.
  contradiction.
Qed.

Lemma concat_unique_labels (frames : list table) (df : table) :
  concat frames = Ok df ->
  (unique_labels (columns df) = true
   <-> Forall (fun t => unique_labels (columns t) = true) frames).
Proof.
  unfold concat. destruct frames as [|f fs]; [discriminate |].
  destruct (forallb (same_labels f) fs) eqn:Same.
  - intros E. injection E as <-. cbn [columns]. rewrite forallb_forall in Same. split.
    + intros H. constructor; [exact H |]. apply Forall_forall. intros t Ht.
      apply Same, same_labels_eq in Ht. now rewrite <- Ht.
    + intros H. now inversion H.
  - destruct (forallb (fun g => unique_labels (columns g)) (f :: fs)) eqn:Un; [| discriminate].
    intros E. injection E as <-. cbn [columns]. rewrite forallb_forall in Un. split.
    + intros _. now apply Forall_forall.
    + intros _. apply unique_labels_NoDup. unfold union_labels.
      apply union_labels_NoDup; [constructor |].
      apply Forall_forall. intros t Ht. now apply unique_labels_NoDup, Un.
Qed.

(** X12.  The script gets past lines 62 and 65 exactly when there is at
    least one file and no file has two headers with the same normal form:
    with no file, or with such a pair of headers, it raises before
    anything is drawn. *)
Theorem script_reaches_the_page (U : unicode) (csvs : list csv_file) :
  (exists df numeric, load_data U csvs = Ok df /\ numeric_cols df = Ok numeric)
  <-> (csvs <> [] /\ distinct_labels U csvs).
Proof.
  unfold distinct_labels. split.
  - intros [df [numeric [L N]]]. split; [intros ->; discriminate L |].
    unfold numeric_cols in N.
    destruct (unique_labels (columns df)) eqn:Un; [| discriminate].
    unfold load_data in L. apply (concat_unique_labels _ _ L) in Un.
    rewrite Forall_forall in *. intros f Hf. apply Un. now apply in_map.
  - intros [NE D].
    assert (F : Forall (fun t => unique_labels (columns t) = true) (map (load_frame U) csvs)).
    { rewrite Forall_forall in *. intros t Ht. apply in_map_iff in Ht as [f [<- Hf]].
      now apply D. }
    destruct (concat_returns (map (load_frame U) csvs)) as [df E]; [| exact F |].
    + destruct csvs; [congruence | discriminate].
    + exists df. unfold numeric_cols. apply (concat_unique_labels _ _ E) in F.
      rewrite F. eexists. split; [exact E | reflexivity].
Qed.

Lemma script_reaches_the_page_witness :
  exists df numeric, load_data plain [a_csv; c_csv] = Ok df /\ numeric_cols df = Ok numeric.
Proof.
  apply (script_reaches_the_page plain [a_csv; c_csv]). split; [discriminate |].
  repeat constructor.
Defined.

(** ** Normalizing a label twice *)

Lemma az09_is_plain (U : unicode) (c : pychar) :
  is_az09_ c = true -> is_ascii c = true /\ is_upper c = false /\ is_word U c = true.
Proof.
  unfold is_az09_, is_word, is_ascii, is_upper, is_lower, is_digit, is_underscore, underscore.
  intros H.
  assert (R : (97 <= c <= 122 \/ 48 <= c <= 57 \/ c = 95)%N).
  { apply orb_true_iff in H as [H | H]; [apply orb_true_iff in H as [H | H] |].
    - apply andb_true_iff in H as [H1 H2]. apply N.leb_le in H1. apply N.leb_le in H2. lia.
    - apply andb_true_iff in H as [H1 H2]. apply N.leb_le in H1. apply N.leb_le in H2. lia.
    - apply N.eqb_eq in H. lia. }
  assert (A : (c <? 128)%N = true) by (apply N.ltb_lt; lia).
  assert (Up : ((65 <=? c)%N && (c <=? 90)%N) = false).
  { apply andb_false_iff. destruct (N.le_gt_cases c 90) as [L | G].
    - left. apply N.leb_gt. lia.
    - right. apply N.leb_gt. lia. }
  rewrite A, Up. repeat split. simpl. exact H.
Qed.

Lemma lower_from_fixed (U : unicode) (s before : pystr) :
  forallb is_az09_ s = true -> lower_from U before s = s.
Proof.
  revert before. induction s as [|c s IH]; intros before; simpl; [reflexivity |].
  intros H. apply andb_true_iff in H as [Hc Hs].
  destruct (az09_is_plain U c Hc) as [A [Up _]].
  unfold lower_char. rewrite Up, A. simpl. now rewrite IH.
Qed.

Lemma sub_runs_fixed (U : unicode) (s : pystr) (in_run : bool) :
  forallb is_az09_ s = true -> sub_runs U in_run s = s.
Proof.
  revert in_run. induction s as [|c s IH]; intros in_run; simpl; [reflexivity |].
  intros H. apply andb_true_iff in H as [Hc Hs].
  destruct (az09_is_plain U c Hc) as [_ [_ W]]. rewrite W. now rewrite IH.
Qed.

Lemma sub_runs_length (U : unicode) (s : pystr) (in_run : bool) :
  length (sub_runs U in_run s) <= length s.
Proof.
  revert in_run. induction s as [|c s IH]; intros in_run; simpl; [lia |].
  destruct (is_word U c); simpl; [specialize (IH false); lia |].
  destruct in_run; simpl; specialize (IH true); lia.
Qed.

Lemma lower_from_ascii_length (U : unicode) (s before : pystr) :
  forallb is_ascii s = true -> length (lower_from U before s) = length s.
Proof.
  revert before. induction s as [|c s IH]; intros before; simpl; [reflexivity |].
  intros H. apply andb_true_iff in H as [Hc Hs].
  destruct (lower_char_ascii U before s c Hc) as [d [E _]].
  rewrite E. simpl. now rewrite IH.
Qed.

(** X13.  On an ASCII label the normalization of lines 57-60 is a
    projection: applied to its own result it changes nothing; and the
    result is never longer than the label. *)
Theorem normalize_idempotent (U : unicode) (name : pystr) :
  forallb is_ascii name = true ->
  normalize U (normalize U name) = normalize U name
  /\ length (normalize U name) <= length name.
Proof.
  intros A. split.
  - pose proof (normalize_ascii_charset U name A) as C.
    unfold normalize at 1. unfold str_lower, str_replace_nonword.
    rewrite (lower_from_fixed U _ [] C). now apply sub_runs_fixed.
  - unfold normalize, str_replace_nonword, str_lower.
    rewrite <- (lower_from_ascii_length U name [] A). apply sub_runs_length.
Qed.

Lemma normalize_idempotent_witness :
  normalize plain (normalize plain (py "Gap (%)")) = normalize plain (py "Gap (%)")
  /\ length (normalize plain (py "Gap (%)")) <= length (py "Gap (%)").
Proof. apply (normalize_idempotent plain (py "Gap (%)")). reflexivity. Defined.

(** ** KPIs, preview and page *)

Lemma nunique_le (cells : list cell) : nunique cells <= length cells.
Proof.
  unfold nunique, dropna. apply NoDup_incl_length; [apply NoDup_nodup |].
  intros c Hc. apply nodup_In in Hc. now apply filter_In in Hc.
Qed.

Lemma cells_of_length (t : table) (c : pystr) : length (cells_of t c) <= nrows t.
Proof.
  unfold cells_of, column_values, nrows.
  destruct (index_of c (columns t)); simpl; [now rewrite length_map | lia].
Qed.

(** X14.  The three tiles.  "Rows" counts the rows of the Filtered View,
    never more than the Unified Table has; "Numeric Columns" is the
    count taken from the Unified Table and does not move with the
    filters; "Entities" counts the distinct entities that are present,
    never more than "Rows", and is 0 when there is no entity column. *)
Theorem kpi_tiles (df df_view : table) (numeric : list pystr) :
  view_of df_view df ->
  exists rows_kpi entities,
    kpis df_view numeric
    = [Metric "Rows" rows_kpi; Metric "Numeric Columns" (length numeric);
       Metric "Entities" entities]
    /\ rows_kpi = nrows df_view
    /\ rows_kpi <= nrows df
    /\ entities = nunique (cells_of df_view (py "entity"))
    /\ entities <= rows_kpi
    /\ (~ In (py "entity") (columns df_view) -> entities = 0).
Proof.
  intros V. exists (nrows df_view), (nunique (cells_of df_view (py "entity"))).
  split; [| split; [reflexivity | split; [now apply view_of_nrows | split; [reflexivity | split]]]].
  - unfold kpis, cells_of. now destruct (column_values df_view (py "entity")).
  - etransitivity; [apply nunique_le | apply cells_of_length].
  - intros H. unfold cells_of, column_values. apply index_of_absent in H. now rewrite H.
Qed.

Lemma kpi_tiles_witness :
  exists rows_kpi entities,
    kpis df_ab [py "year"; py "gap_"]
    = [Metric "Rows" rows_kpi; Metric "Numeric Columns" 2; Metric "Entities" entities]
    /\ entities <= rows_kpi.
Proof.
  destruct (kpi_tiles df_ab df_ab [py "year"; py "gap_"]) as [r [e [K [_ [_ [_ [L _]]]]]]].
  - apply view_of_refl.
  - exists r, e. split; [exact K | exact L].
Defined.

Lemma subseq_firstn {A : Type} (n : nat) (l : list A) : subseq (firstn n l) l.
Proof.
  revert n. induction l as [|x l IH]; intros [|n]; simpl; try constructor.
  - clear IH. induction l; constructor; assumption.
  - apply IH.
Qed.

(** X15.  The Data Preview never raises, whatever the view, an empty one
    included: it shows the labels of the view and its first
    min(15, rows) rows, in order. *)
Theorem data_preview_shows_first_rows
        (P : pandas) (ui : inputs) (df_view : table) (numeric : list pystr) :
  view ui = DataPreview ->
  render P ui df_view numeric
  = Ok [card_open; Subheader "Sample of Filtered Data"; Dataframe (preview df_view); card_close]
  /\ view_of (preview df_view) df_view
  /\ nrows (preview df_view) = Nat.min 15 (nrows df_view)
  /\ (nrows df_view <= 15 -> preview df_view = df_view)
  /\ exists rest, rows df_view = rows (preview df_view) ++ rest.
Proof.
  intros V. split; [unfold render; now rewrite V |]. unfold preview, nrows. cbn [rows columns].
  split; [| split; [apply length_firstn | split]].
  - split; [reflexivity | apply subseq_firstn].
  - intros H. rewrite firstn_all2 by exact H. now destruct df_view.
  - exists (skipn 15 (rows df_view)). symmetry. apply firstn_skipn.
Qed.

Lemma data_preview_shows_first_rows_witness :
  nrows (preview df_ab) = Nat.min 15 (nrows df_ab).
Proof.
  apply (data_preview_shows_first_rows modern
           {| source_pick := 0; view := DataPreview; year_pick := None; metric_pick := 0;
              top_n := 3; highest_first := true; trend_pick := 0 |} df_ab []).
  reflexivity.
Defined.

Lemma render_counts (P : pandas) (ui : inputs) (df_view : table) (numeric : list pystr)
      (chart : list element) :
  render P ui df_view numeric = Ok chart ->
  filter is_metric chart = []
  /\ length (filter is_chart chart) + length (filter is_warning chart) <= 1
  /\ (view ui = DataPreview <-> length (filter is_chart chart) + length (filter is_warning chart) = 0).
Proof.
  unfold render. destruct (view ui).
  - intros E. injection E as <-. simpl. repeat split; try lia.
  - destruct (bar_chart _ _ _ _) as [agg|]; [| discriminate]. simpl.
    destruct (plot_bar _ _ agg) as [fig|]; [| discriminate]. simpl.
    intros E. injection E as <-. simpl. repeat split; try lia; discriminate.
  - destruct (negb (has_year df_view)).
    + intros E. injection E as <-. simpl. repeat split; try lia; discriminate.
    + destruct (trend _ _ _); [| discriminate]. simpl.
      intros E. injection E as <-. simpl. repeat split; try lia; discriminate.
  - destruct (pie_chart P df_view) as [[s|]|]; [| | discriminate]; simpl.
    + destruct (plot_pie s) as [fig|]; [| discriminate]. simpl.
      intros E; injection E as <-; simpl; repeat split; try lia; discriminate.
    + intros E; injection E as <-; simpl; repeat split; try lia; discriminate.
  - destruct (plot_heatmap numeric) as [fig|]; [| discriminate]. simpl.
    intros E. injection E as <-. simpl. repeat split; try lia; discriminate.
Qed.

(** X16.  Whenever the script delivers a page, the page has exactly the
    three tiles and at most one of a chart and a warning, never both;
    it has neither only under the Data Preview. *)
Theorem page_layout (U : unicode) (P : pandas) (csvs : list csv_file) (ui : inputs)
        (page : list element) :
  app U P csvs ui = Ok page ->
  length (filter is_metric page) = 3
  /\ length (filter is_chart page) + length (filter is_warning page) <= 1
  /\ (view ui = DataPreview
      <-> length (filter is_chart page) + length (filter is_warning page) = 0).
Proof.
  unfold app.
  destruct (load_data U csvs) as [df|]; [| discriminate]. simpl.
  destruct (numeric_cols df) as [numeric|]; [| discriminate]. simpl.
  destruct (source_options df) as [options|]; [| discriminate]. simpl.
  destruct (filter_section U df _ (year_pick ui)) as [v|]; [| discriminate]. simpl.
  destruct (render P ui v numeric) as [chart|] eqn:R; [| discriminate]. simpl.
  intros E. injection E as <-.
  destruct (render_counts P ui v numeric chart R) as [M [C D]].
  unfold kpis. cbn [filter is_metric is_chart is_warning app].
  rewrite !filter_app. rewrite M. cbn [filter is_metric is_chart is_warning app length].
  rewrite !app_nil_r. split; [reflexivity |]. split; [exact C | exact D].
Qed.

Lemma page_layout_witness :
  exists page,
    app plain modern [a_csv; b_csv] ui_trend = Ok page
    /\ length (filter is_metric page) = 3.
Proof.
  assert (E : exists page, app plain modern [a_csv; b_csv] ui_trend = Ok page)
    by (vm_compute; eexists; reflexivity).
  destruct E as [page E]. exists page. split; [exact E |].
  apply (page_layout plain modern [a_csv; b_csv] ui_trend page E).
Defined.

(** ** The types of the columns *)

Lemma nth_map_seq {A : Type} (g : nat -> A) (n i : nat) (d : A) :
  i < n -> nth i (map g (seq 0 n)) d = g i.
Proof.
  intros H. rewrite (nth_indep _ d (g 0)) by now rewrite length_map, length_seq.
  rewrite map_nth, seq_nth by exact H. reflexivity.
Qed.

Lemma read_dtype_spec (cells : list cell) :
  read_dtype cells = Numeric <-> cells <> [] /\ existsb is_text cells = false.
Proof.
  unfold read_dtype. destruct cells as [|c l].
  - split; [discriminate | intros [H _]; congruence].
  - destruct (existsb is_text (c :: l)).
    + split; [discriminate | intros [_ H]; discriminate H].
    + split; [intros _; split; [discriminate | reflexivity] | reflexivity].
Qed.

Lemma read_csv_dtype (f : csv_file) (i : nat) :
  i < length (header f) ->
  nth i (dtypes (read_csv f)) Object = read_dtype (map (at_col i) (body f)).
Proof. intros H. unfold read_csv. cbn [dtypes]. now rewrite nth_map_seq. Qed.

Lemma read_csv_dtypes_length (f : csv_file) :
  length (dtypes (read_csv f)) = length (header f).
Proof. unfold read_csv. cbn [dtypes]. now rewrite length_map, length_seq. Qed.

Lemma nth_replace_dtype_same (j : nat) (d d' : dtype) (l : list dtype) :
  j < length l -> nth j (replace_dtype j d l) d' = d.
Proof.
  revert l. induction j as [|j IH]; intros [|x l]; simpl; try lia.
  - reflexivity.
  - intros H. apply IH. lia.
Qed.

Lemma nth_replace_dtype_other (i j : nat) (d d' : dtype) (l : list dtype) :
  i <> j -> nth i (replace_dtype j d l) d' = nth i l d'.
Proof.
  revert i l. induction j as [|j IH]; intros [|i] [|x l] N; simpl; try reflexivity; try lia.
  apply IH. lia.
Qed.

Lemma at_col_replace_at_other (i j : nat) (v : cell) (r : list cell) :
  i <> j -> at_col i (replace_at j v r) = at_col i r.
Proof.
  unfold at_col. revert i r. induction j as [|j IH]; intros [|i] [|x r] N; simpl;
    try reflexivity; try lia.
  apply IH. lia.
Qed.

Lemma at_col_app_l (i : nat) (v : cell) (r : list cell) :
  i < length r -> at_col i (r ++ [v]) = at_col i r.
Proof. intros H. unfold at_col. now apply app_nth1. Qed.

Lemma map_ext_in_cells {A : Type} (g h : A -> cell) (l : list A) :
  (forall x, In x l -> g x = h x) -> map g l = map h l.
Proof. apply map_ext_in. Qed.

Lemma all_text (cells : list cell) :
  cells <> [] -> (forall c, In c cells -> is_text c = true) -> existsb is_text cells = true.
Proof.
  destruct cells as [|c l]; [congruence |]. intros _ H. simpl.
  now rewrite (H c (or_introl eq_refl)).
Qed.

(** Lines 55-56 on a rectangular file: a column is typed numeric exactly
    when the file has a row and the column holds no text. *)
Lemma set_column_dtype (f : csv_file) (i : nat) :
  well_formed f ->
  let t := set_column (py "source_file") (Str (name f)) (read_csv f) in
  i < length (columns t) ->
  (nth i (dtypes t) Object = Numeric
   <-> body f <> [] /\ existsb is_text (map (at_col i) (rows t)) = false).
Proof.
  intros W. unfold well_formed in W. rewrite Forall_forall in W.
  unfold set_column. change (columns (read_csv f)) with (header f).
  change (rows (read_csv f)) with (body f).
  destruct (index_of (py "source_file") (header f)) as [j|] eqn:Hj;
    cbn [columns dtypes rows]; intros Hi.
  - pose proof (index_of_lt _ _ _ Hj) as Lj.
    destruct (Nat.eq_dec i j) as [-> | N].
    + rewrite nth_replace_dtype_same by now rewrite read_csv_dtypes_length.
      split; [discriminate | intros [NE T]; exfalso].
      rewrite all_text in T; [discriminate | |].
      * destruct (body f); [congruence | discriminate].
      * intros c Hc. apply in_map_iff in Hc as [r [<- Hr]].
        apply in_map_iff in Hr as [r0 [<- Hr0]].
        rewrite at_col_replace_at; [reflexivity |]. now rewrite (W r0 Hr0).
    + rewrite nth_replace_dtype_other by exact N.
      rewrite (read_csv_dtype f i Hi), read_dtype_spec, map_map.
      rewrite (map_ext_in_cells (fun r => at_col i (replace_at j (Str (name f)) r)) (at_col i));
        [| intros r _; now apply at_col_replace_at_other].
      split; intros [H1 H2]; (split; [| exact H2]).
      * intros E. apply H1. now rewrite E.
      * intros E. apply H1. now destruct (body f).
  - rewrite length_app in Hi. simpl in Hi.
    destruct (Nat.eq_dec i (length (header f))) as [-> | N].
    + rewrite <- (read_csv_dtypes_length f), nth_middle.
      split; [discriminate | intros [NE T]; exfalso].
      rewrite all_text in T; [discriminate | |].
      * destruct (body f); [congruence | discriminate].
      * intros c Hc. apply in_map_iff in Hc as [r [<- Hr]].
        apply in_map_iff in Hr as [r0 [<- Hr0]].
        rewrite read_csv_dtypes_length, <- (W r0 Hr0), at_col_snoc. reflexivity.
    + assert (Li : i < length (header f)) by lia.
      rewrite app_nth1 by now rewrite read_csv_dtypes_length.
      rewrite (read_csv_dtype f i Li), read_dtype_spec, map_map.
      rewrite (map_ext_in_cells (fun r => at_col i (r ++ [Str (name f)])) (at_col i));
        [| intros r Hr; apply at_col_app_l; now rewrite (W r Hr)].
      split; intros [H1 H2]; (split; [| exact H2]).
      * intros E. apply H1. now rewrite E.
      * intros E. apply H1. now destruct (body f).
Qed.

Lemma load_frame_dtype (U : unicode) (f : csv_file) (c : pystr) :
  well_formed f ->
  (dtype_of (load_frame U f) c = Numeric
   <-> In c (columns (load_frame U f))
       /\ body f <> []
       /\ existsb is_text (cells_of (load_frame U f) c) = false).
Proof.
  intros W. unfold dtype_of, cells_of, column_values.
  destruct (index_of c (columns (load_frame U f))) as [i|] eqn:Hi.
  - pose proof (index_of_lt _ _ _ Hi) as Li.
    assert (Hin : In c (columns (load_frame U f))).
    { apply index_of_nth in Hi. now apply nth_error_In in Hi. }
    unfold load_frame in *. cbn [columns dtypes rows] in *. rewrite length_map in Li.
    rewrite (set_column_dtype f i W Li). tauto.
  - split; [discriminate |]. intros [H _]. apply index_of_absent in Hi. contradiction.
Qed.

Lemma load_frame_well_typed (U : unicode) (f : csv_file) :
  well_formed f -> well_typed (load_frame U f).
Proof.
  intros W c _ D. now apply (load_frame_dtype U f c W) in D.
Qed.

Lemma typed_object_false (t : table) (c : pystr) :
  typed_object t c = false <-> (In c (columns t) -> dtype_of t c = Numeric).
Proof.
  unfold typed_object, dtype_of. destruct (index_of c (columns t)) as [i|] eqn:Hi.
  - assert (Hin : In c (columns t)).
    { apply index_of_nth in Hi. now apply nth_error_In in Hi. }
    destruct (nth i (dtypes t) Object); simpl; split; auto; try discriminate.
    intros H. specialize (H Hin). discriminate.
  - apply index_of_absent in Hi. split; [intros _ H; contradiction | reflexivity].
Qed.

Lemma index_of_map_nth {A : Type} (g : pystr -> A) (c : pystr) (l : list pystr) (i : nat)
      (d : A) :
  index_of c l = Some i -> nth i (map g l) d = g c.
Proof.
  intros H. pose proof (index_of_lt _ _ _ H) as L. apply index_of_nth in H.
  rewrite (nth_indep _ d (g c)) by now rewrite length_map.
  rewrite map_nth. f_equal. now apply nth_error_nth.
Qed.

Lemma existsb_ext_in {A : Type} (g h : A -> bool) (l : list A) :
  (forall x, In x l -> g x = h x) -> existsb g l = existsb h l.
Proof.
  intros H. induction l as [|a l IH]; simpl; [reflexivity |].
  rewrite (H a (or_introl eq_refl)), IH; [reflexivity |].
  intros x Hx. apply H. now right.
Qed.

(** The type of a column of the concatenation. *)
Lemma concat_dtype (frames : list table) (df : table) (c : pystr) :
  concat frames = Ok df -> In c (columns df) ->
  dtype_of df c = joined_dtype frames c.
Proof.
  unfold concat. destruct frames as [|f fs]; [discriminate |].
  destruct (forallb (same_labels f) fs) eqn:Same.
  - intros E Hc. injection E as <-. unfold dtype_of. cbn [columns dtypes] in *.
    apply mem_In, mem_index_of in Hc as [i Hi]. rewrite Hi. unfold stacked_dtypes.
    rewrite nth_map_seq by now apply (index_of_lt c).
    unfold joined_dtype.
    rewrite (existsb_ext_in (fun t => is_object (nth i (dtypes t) Object))
               (fun t => typed_object t c)); [reflexivity |].
    intros t Ht. unfold typed_object.
    assert (C : columns t = columns f).
    { destruct Ht as [<- | Ht]; [reflexivity |].
      rewrite forallb_forall in Same. symmetry. now apply same_labels_eq, Same. }
    now rewrite C, Hi.
  - destruct (forallb (fun g => unique_labels (columns g)) (f :: fs)); [| discriminate].
    intros E Hc. injection E as <-. unfold dtype_of. cbn [columns dtypes] in *.
    apply mem_In, mem_index_of in Hc as [i Hi]. rewrite Hi.
    now apply index_of_map_nth.
Qed.

Lemma joined_dtype_numeric (frames : list table) (c : pystr) :
  joined_dtype frames c = Numeric <->
  forall t, In t frames -> In c (columns t) -> dtype_of t c = Numeric.
Proof.
  unfold joined_dtype. destruct (existsb (fun t => typed_object t c) frames) eqn:E.
  - split; [discriminate |]. intros H. exfalso.
    apply existsb_exists in E as [t [Ht X]].
    assert (Y : typed_object t c = false) by (apply typed_object_false; now apply H).
    congruence.
  - split; [| reflexivity]. intros _ t Ht. apply typed_object_false.
    apply not_true_is_false. intros X.
    assert (Y : existsb (fun t => typed_object t c) frames = true); [| congruence].
    apply existsb_exists. now exists t.
Qed.

Lemma no_text_flat_map {A : Type} (g : A -> list cell) (l : list A) :
  (forall a, In a l -> existsb is_text (g a) = false) ->
  existsb is_text (flat_map g l) = false.
Proof.
  intros H. induction l as [|a l IH]; simpl; [reflexivity |].
  rewrite existsb_app, (H a (or_introl eq_refl)). simpl.
  apply IH. intros b Hb. apply H. now right.
Qed.

Lemma no_text_all_nan {A : Type} (l : list A) :
  existsb is_text (map (fun _ => NaN) l) = false.
Proof. induction l as [|a l IH]; simpl; [reflexivity | exact IH]. Qed.

(** Stacking frames whose types tell the truth gives such a table. *)
Lemma concat_well_typed (frames : list table) (df : table) :
  concat frames = Ok df -> Forall well_typed frames -> well_typed df.
Proof.
  intros E W c Hc D. rewrite Forall_forall in W.
  rewrite (concat_dtype frames df c E Hc) in D.
  pose proof (proj1 (joined_dtype_numeric frames c) D) as Hn.
  destruct (concat_cells frames df E) as [lay [R C]].
  rewrite (cells_of_cell_at df c Hc), R, map_flat_map.
  apply no_text_flat_map. intros t Ht. rewrite map_map.
  rewrite (map_ext_in_cells (fun r => cell_at df c (lay t r)) (cell_at t c));
    [| intros r _; now apply C].
  destruct (in_dec pystr_eq_dec c (columns t)) as [I | N].
  - rewrite <- (cells_of_cell_at t c I). apply (W t Ht c I). now apply Hn.
  - rewrite (map_ext_in_cells (cell_at t c) (fun _ => NaN));
      [apply no_text_all_nan | intros r _; now apply cell_at_absent].
Qed.

(** The Unified Table of rectangular files is well typed. *)
Lemma load_data_well_typed (U : unicode) (csvs : list csv_file) (df : table) :
  Forall well_formed csvs -> load_data U csvs = Ok df -> well_typed df.
Proof.
  intros W L. unfold load_data in L. apply (concat_well_typed _ _ L).
  rewrite Forall_forall in *. intros t Ht. apply in_map_iff in Ht as [f [<- Hf]].
  apply load_frame_well_typed. now apply W.
Qed.

(** ** The metric boxes *)

Example load_hk : load_data plain [h_csv; k_csv] = Ok df_hk.
Proof. reflexivity. Qed.

(** X17.  With a year column, the Trend view draws its line when the
    "Trend Metric" box has an option at the user's pick and raises when
    it has none; the option picked is always a column that can be
    averaged, on every view of the table. *)
Theorem trend_needs_a_numeric_column
        (P : pandas) (ui : inputs) (df df_view : table) (numeric : list pystr) :
  well_typed df -> numeric_cols df = Ok numeric -> view_of df_view df ->
  view ui = TrendOverTime -> has_year df_view = true ->
  (trend_pick ui < length numeric ->
     exists grp, render P ui df_view numeric = Ok [card_open; Pyplot (Line grp); card_close])
  /\ (length numeric <= trend_pick ui -> render P ui df_view numeric = Raised).
Proof.
  intros W N V T HY. unfold render. rewrite T, HY. simpl. unfold selectbox. split.
  - intros L. destruct (nth_error numeric (trend_pick ui)) as [m|] eqn:E.
    2:{ apply nth_error_None in E. lia. }
    apply nth_error_In in E. destruct (numeric_cols_spec df numeric m N E) as [Hm Dm].
    pose proof (no_text_in_view df_view df m V (W m Hm Dm)) as T'.
    destruct V as [C S].
    assert (Hm' : mem m (columns df_view) = true) by (rewrite C; now apply mem_In).
    destruct (groupby_mean_returns P df_view (py "year") m HY Hm' T') as [s Es].
    unfold trend. rewrite Es. simpl. eexists; reflexivity.
  - intros L. apply nth_error_None in L. now rewrite L.
Qed.

Lemma trend_needs_a_numeric_column_witness :
  (exists grp, render modern ui_trend_gap df_ab [py "year"; py "gap_"]
               = Ok [card_open; Pyplot (Line grp); card_close])
  /\ numeric_cols df_hk = Ok []
  /\ render modern ui_trend df_hk [] = Raised.
Proof.
  split; [| split].
  - apply (trend_needs_a_numeric_column modern ui_trend_gap df_ab df_ab [py "year"; py "gap_"]).
    + apply (load_data_well_typed plain [a_csv; b_csv]); [| reflexivity].
      repeat constructor.
    + reflexivity.
    + apply view_of_refl.
    + reflexivity.
    + reflexivity.
    + simpl. lia.
  - reflexivity.
  - apply (trend_needs_a_numeric_column modern ui_trend df_hk df_hk []).
    + apply (load_data_well_typed plain [h_csv; k_csv]); [| reflexivity].
      repeat constructor.
    + reflexivity.
    + apply view_of_refl.
    + reflexivity.
    + reflexivity.
    + simpl. lia.
Defined.

(** X18.  The metrics on offer (line 65), on the table loaded from
    rectangular files with distinct labels: the columns typed numeric,
    in table order and each once.  A column is typed numeric exactly when
    every file that has it has at least one row and no text in it; so a
    column offered holds no text, and a file with a header and no row
    takes its columns off the offer. *)
Theorem numeric_cols_offered
        (U : unicode) (csvs : list csv_file) (df : table) (numeric : list pystr) :
  Forall well_formed csvs ->
  load_data U csvs = Ok df ->
  numeric_cols df = Ok numeric ->
  NoDup (columns df)
  /\ subseq numeric (columns df)
  /\ NoDup numeric
  /\ (forall c, In c numeric <-> In c (columns df) /\ dtype_of df c = Numeric)
  /\ (forall c, In c numeric <->
                In c (columns df)
                /\ forall f, In f csvs -> In c (columns (load_frame U f)) ->
                     body f <> []
                     /\ existsb is_text (cells_of (load_frame U f) c) = false)
  /\ (forall c, In c numeric -> existsb is_text (cells_of df c) = false).
Proof.
  intros W L. pose proof (load_data_well_typed U csvs df W L) as WT.
  unfold numeric_cols. destruct (unique_labels (columns df)) eqn:Un; [| discriminate].
  intros E. injection E as <-. apply unique_labels_NoDup in Un.
  assert (Hspec : forall c, In c (filter (is_numeric df) (columns df))
                            <-> In c (columns df) /\ dtype_of df c = Numeric).
  { intros c. rewrite filter_In. unfold is_numeric.
    destruct (dtype_of df c); simpl; split; intros [H1 H2]; split;
      try assumption; try reflexivity; discriminate. }
  split; [exact Un |]. split; [apply subseq_filter |].
  split; [now apply NoDup_filter |]. split; [exact Hspec |]. split.
  - intros c. rewrite Hspec. unfold load_data in L.
    rewrite Forall_forall in W. split.
    + intros [Hc D]. split; [exact Hc |]. intros f Hf Hcf.
      rewrite (concat_dtype _ _ c L Hc) in D.
      pose proof (proj1 (joined_dtype_numeric _ c) D (load_frame U f)
                    (in_map _ _ _ Hf) Hcf) as Df.
      apply (load_frame_dtype U f c (W f Hf)) in Df. tauto.
    + intros [Hc H]. split; [exact Hc |].
      rewrite (concat_dtype _ _ c L Hc). apply joined_dtype_numeric.
      intros t Ht Hct. apply in_map_iff in Ht as [f [<- Hf]].
      apply (load_frame_dtype U f c (W f Hf)). split; [exact Hct |]. now apply H.
  - intros c Hc. apply Hspec in Hc as [Hc D]. now apply WT.
Qed.

Lemma numeric_cols_offered_witness :
  (In (py "gap_") [py "year"; py "gap_"] <->
   In (py "gap_") (columns df_ab) /\ dtype_of df_ab (py "gap_") = Numeric)
  /\ numeric_cols df_ab = Ok [py "year"; py "gap_"]
  /\ numeric_cols df_hk = Ok [].
Proof.
  split; [| split; reflexivity].
  apply (numeric_cols_offered plain [a_csv; b_csv] df_ab [py "year"; py "gap_"]).
  - repeat constructor.
  - reflexivity.
  - reflexivity.
Defined.
